(** * Trial generation and counterbalancing of the visual option selection study

    A shallow embedding of [experiment.ts] (the PRNG, the Fisher-Yates shuffle,
    the balanced-index builder, the three item synthesizers, the block planner
    and the Latin-square assigner), of the types of [types.ts], of the CSV
    writer and the participant summary of [export.ts], and of [createSession]
    of [App.tsx].

    Conventions of the embedding.
    - A JavaScript number that holds an integer (seeds, counts, indices, the
      generator state) is a [Z] (or a [nat] where it is an array index or a
      length).  The source computes them in binary64, which is exact as long
      as the magnitudes stay within 2^53: the statements about the planner
      and the sessions assume numbers with which they do ([exact_seeds],
      [MAX_PARTICIPANT_NUMBER]).  A template literal prints such a number
      with all its digits, as [pretty] does.
    - The values returned by [rand()] are fractions; they are binary64 numbers
      ([spec_float] at precision 53), and [rand() * (i + 1)], the division of
      the generator and [Math.floor] are the IEEE 754 operations.
    - A string is a sequence of bytes; the characters the CSV writer looks
      for are single bytes in UTF-8, and no byte of a longer character equals
      them.
    - What a function reads from its environment ([Math.random], the clock,
      the window) is an argument of its model.
    - A [throw] is a [Throw] result.  A swap of [shuffle] whose index falls
      outside the array stores [undefined] in the source; the model stops
      there with [Throw ArrayHole]. *)

From Stdlib Require Import ZArith Lia.
From Stdlib Require Import Floats.SpecFloat.
From stdpp Require Import base option list gmap strings pretty.
Import (notations) Stdlib.Strings.Ascii.

Local Open Scope Z_scope.

(** ** Binary64 arithmetic *)

Module Float64.

Definition prec : Z := 53.
Definition emax : Z := 1024.

(** The double nearest to an integer. *)
Definition of_Z (z : Z) : spec_float := binary_normalize prec emax z 0 false.

Definition mul : spec_float → spec_float → spec_float := SFmul prec emax.
Definition div : spec_float → spec_float → spec_float := SFdiv prec emax.

Definition zero : spec_float := S754_zero false.
Definition one : spec_float := of_Z 1.

(** [Math.floor] of a finite double, as an integer; [NaN] and the
    infinities have none. *)
Definition floor (x : spec_float) : option Z :=
  match x with
  | S754_zero _ => Some 0
  | S754_finite s m e => Some (Z.shiftl (cond_Zopp s (Z.pos m)) e)
  | S754_infinity _ | S754_nan => None
  end.

(** A double in the interval [0, 1). *)
Definition in_unit_interval (x : spec_float) : Prop :=
  valid_binary prec emax x = true ∧ SFleb zero x = true ∧ SFltb x one = true.

(** The exponent of the format, and the second (truncating) normalisation
    [binary_round_aux] ends with, written on integers; both serve the
    proofs only. *)
Definition fexp (e : Z) : Z := Z.max (e - 53) (-1074).

Definition renorm (s : bool) (m1 e1 : Z) : spec_float :=
  let k2 := fexp (Zdigits2 m1 + e1) - e1 in
  let m2 := if decide (0 < k2) then m1 / 2 ^ k2 else m1 in
  let e2 := if decide (0 < k2) then e1 + k2 else e1 in
  match m2 with
  | 0 => S754_zero s
  | Z.pos m => if e2 <=? 971 then S754_finite s m e2 else S754_infinity s
  | Z.neg _ => S754_nan
  end.

End Float64.

(** ** Results of fallible code *)

Inductive Condition := color | shape | combined.

Global Instance Condition_eq_dec : EqDecision Condition.
Proof. solve_decision. Defined.

Inductive error :=
  | TypeError                      (* a property read on [undefined] *)
  | NoMatchingTarget (c : Condition) (* the three [throw new Error] of findItemForTarget *)
  | ArrayHole.                     (* a shuffle index outside the array *)

Inductive result (A : Type) :=
  | Ok (a : A)
  | Throw (e : error).
Global Arguments Ok {A} a.
Global Arguments Throw {A} e.

Global Instance result_ret : MRet result := @Ok.
Global Instance result_bind : MBind result := λ A B f m,
  match m with Ok a => f a | Throw e => Throw e end.

(** [xs[i]] followed by a property read: [undefined] raises a TypeError. *)
Definition get {A} (xs : list A) (i : nat) : result A :=
  match xs !! i with Some x => Ok x | None => Throw TypeError end.

(** [xs.map((x, index) => f index x)] for a callback that can throw. *)
Fixpoint mapi_from {A B} (f : nat → A → result B) (index : nat) (xs : list A)
  : result (list B) :=
  match xs with
  | [] => Ok []
  | x :: xs' => y ← f index x; ys ← mapi_from f (S index) xs'; Ok (y :: ys)
  end.
Definition mapi {A B} (f : nat → A → result B) (xs : list A) : result (list B) :=
  mapi_from f 0%nat xs.

(** ** Constants *)

Definition CONDITIONS : list Condition := [color; shape; combined].

Definition LATIN_SQUARE_3 : list (list Condition) :=
  [ [color; shape; combined];
    [shape; combined; color];
    [combined; color; shape] ].

Record Color := { color_name : string; color_hex : string }.
Record Shape := { shape_name : string; shape_symbol : string }.

Definition COLORS : list Color :=
  [ {| color_name := "red"; color_hex := "#d62828" |};
    {| color_name := "blue"; color_hex := "#1d4ed8" |};
    {| color_name := "green"; color_hex := "#2f9e44" |};
    {| color_name := "orange"; color_hex := "#f97316" |};
    {| color_name := "purple"; color_hex := "#7c3aed" |};
    {| color_name := "yellow"; color_hex := "#eab308" |};
    {| color_name := "cyan"; color_hex := "#0891b2" |};
    {| color_name := "magenta"; color_hex := "#db2777" |} ].

Definition SHAPES : list Shape :=
  [ {| shape_name := "circle"; shape_symbol := "●" |};
    {| shape_name := "triangle"; shape_symbol := "▲" |};
    {| shape_name := "square"; shape_symbol := "■" |};
    {| shape_name := "diamond"; shape_symbol := "◆" |};
    {| shape_name := "star"; shape_symbol := "★" |};
    {| shape_name := "pentagon"; shape_symbol := "⬟" |};
    {| shape_name := "hexagon"; shape_symbol := "⬢" |};
    {| shape_name := "cross"; shape_symbol := "✚" |} ].

Definition DEFAULT_PRACTICE_TRIALS : Z := 3.
Definition DEFAULT_MEASURED_TRIALS : Z := 10.

(** ** Types of the plan *)

Record StimulusItem := {
  item_id : string;
  colorName : string;
  colorHex : string;
  shapeName : string;
  shapeSymbol : string;
}.

Record TrialPlan := {
  trial_id : string;
  trial_blockIndex : Z;
  trial_blockOrder : Z;
  trial_condition : Condition;
  trialIndexInBlock : Z;
  isPractice : bool;
  targetType : Condition;
  targetColor : string;
  targetShape : string;
  promptText : string;
  correctItemId : string;
  items : list StimulusItem;
}.

Record BlockPlan := {
  blockIndex : Z;
  blockOrder : Z;
  condition : Condition;
  practiceTrials : nat;
  measuredTrials : nat;
  trials : list TrialPlan;
}.

(** ** Counterbalancing *)

(** [LATIN_SQUARE_3[participantNumber % 3]]: [%] is the truncating remainder,
    so a negative participant number gives a negative index and the lookup is
    [undefined] ([None]). *)
Definition getLatinSquareOrder (participantNumber : Z) : option (list Condition) :=
  let i := Z.rem participantNumber 3 in
  if decide (0 ≤ i) then LATIN_SQUARE_3 !! Z.to_nat i else None.

Definition condition_letter (c : Condition) : string :=
  match c with color => "A" | shape => "B" | combined => "C" end.

Definition orderToLabel (order : list Condition) : string :=
  String.concat "" (condition_letter <$> order).

(** ** The seeded generator *)

(** The state cell of the closure after [seededRandom(seed)]. *)
Definition seededRandom (seed : Z) : Z :=
  let state := Z.rem seed 2147483647 in
  if decide (state ≤ 0) then state + 2147483646 else state.

(** One call of the closure: the new state and the returned number. *)
Definition lcg (state : Z) : spec_float * Z :=
  let state := Z.rem (state * 16807) 2147483647 in
  (Float64.div (Float64.of_Z (state - 1)) (Float64.of_Z 2147483646), state).

(** ** Shuffle and balanced indices, over any [rand] *)

Section Rand.
(** [rand : () => number] is a closure over a state of type [G]. *)
Context {G : Type} (rand : G → spec_float * G).

(** [Math.floor(r * n)] as an array index. *)
Definition floor_scaled (r : spec_float) (n : nat) : option nat :=
  match Float64.floor (Float64.mul r (Float64.of_Z (Z.of_nat n))) with
  | Some j => if decide (0 ≤ j) then Some (Z.to_nat j) else None
  | None => None
  end.

(** [[next[i], next[j]] = [next[j], next[i]]] for two indices of the array. *)
Definition swap {T} (next : list T) (i j : nat) : result (list T) :=
  match next !! i, next !! j with
  | Some x, Some y => Ok (<[j:=x]> (<[i:=y]> next))
  | _, _ => Throw ArrayHole
  end.

(** The loop [for (i = ...; i > 0; i -= 1)], entered with [i]. *)
Fixpoint shuffle_loop {T} (i : nat) (next : list T) (g : G) : result (list T * G) :=
  match i with
  | O => Ok (next, g)
  | S i' =>
      let '(r, g) := rand g in
      match floor_scaled r (i + 1) with
      | Some j => next ← swap next i j; shuffle_loop i' next g
      | None => Throw ArrayHole
      end
  end.

Definition shuffle {T} (array : list T) (g : G) : result (list T * G) :=
  let next := array in
  shuffle_loop (length next - 1) next g.

(** The state of the closure after [n] more calls. *)
Definition advance (n : nat) (g : G) : G := Nat.iter n (λ g, (rand g).2) g.

(** Every number the closure returns from state [g] on is a double in
    [0, 1). *)
Definition stream_unit (g : G) : Prop :=
  ∀ n, Float64.in_unit_interval (rand (advance n g)).1.

(** [shuffle] on a store of arrays: [array] and the result are references,
    [const next = [...array]] allocates, the swaps write to [next] in place. *)
Fixpoint shuffle_loop_ref {T} (i : nat) (next : positive) (h : gmap positive (list T))
    (g : G) : result (gmap positive (list T) * G) :=
  match i with
  | O => Ok (h, g)
  | S i' =>
      let '(r, g) := rand g in
      match h !! next, floor_scaled r (i + 1) with
      | Some elems, Some j =>
          elems ← swap elems i j;
          shuffle_loop_ref i' next (<[next:=elems]> h) g
      | Some _, None => Throw ArrayHole
      | None, _ => Throw TypeError
      end
  end.

Definition shuffle_ref {T} (array : positive) (h : gmap positive (list T)) (g : G)
  : result (positive * gmap positive (list T) * G) :=
  match h !! array with
  | Some elems =>
      let next := fresh (dom h) in
      let h := <[next:=elems]> h in
      '(h, g) ← shuffle_loop_ref (length elems - 1) next h g;
      Ok (next, h, g)
  | None => Throw TypeError
  end.

(** [Math.floor(count / length)] is the integer quotient here, [count] and
    [length] being positive integers. *)
Definition buildBalancedIndices (length count : Z) (g : G) : result (list nat * G) :=
  if decide (count ≤ 0 ∨ length ≤ 0) then Ok ([], g) else
  let baseRepeats := Z.to_nat (count `div` length) in
  let remainder := Z.to_nat (count `rem` length) in
  let indices :=
    flat_map (λ i, replicate baseRepeats i) (seq 0 (Z.to_nat length)) in
  '(indices, g) ←
    (if decide (0 < remainder)%nat then
       '(shuffled, g) ← shuffle (seq 0 (Z.to_nat length)) g;
       Ok (indices ++ take remainder shuffled, g)
     else Ok (indices, g));
  shuffle indices g.

End Rand.

(** ** Item synthesizers *)

(** [Array.from({ length: n }, (_, i) => i)] *)
Definition range (n : nat) : list nat := seq 0 n.

(** The template literal of an item id, [item_] followed by [index + 1]. *)
Definition item_label (index : nat) : string := "item_" +:+ pretty (index + 1)%nat.

Definition buildItemsForColorOnlyTrial (trialSeed : Z) : result (list StimulusItem) :=
  let g := seededRandom trialSeed in
  '(order, _) ← shuffle lcg (range (length COLORS)) g;
  mapi (λ index colorIndex,
          c ← get COLORS colorIndex;
          Ok {| item_id := item_label index;
                colorName := color_name c;
                colorHex := color_hex c;
                shapeName := "circle";
                shapeSymbol := "●" |}) order.

Definition buildItemsForShapeOnlyTrial (trialSeed : Z) : result (list StimulusItem) :=
  let g := seededRandom trialSeed in
  '(order, _) ← shuffle lcg (range (length SHAPES)) g;
  mapi (λ index shapeIndex,
          s ← get SHAPES shapeIndex;
          Ok {| item_id := item_label index;
                colorName := "black";
                colorHex := "#111111";
                shapeName := shape_name s;
                shapeSymbol := shape_symbol s |}) order.

(** The element type of [pairs]. *)
Record Pair := {
  pair_colorName : string;
  pair_colorHex : string;
  pair_shapeName : string;
  pair_shapeSymbol : string;
}.

Definition buildCombinedItemsForTarget (trialSeed : Z) (targetColor targetShape : string)
  : result (list StimulusItem) :=
  let g := seededRandom trialSeed in
  '(remainingColors, g) ←
    shuffle lcg (filter (λ c, color_name c ≠ targetColor) COLORS) g;
  '(remainingShapes, g) ←
    shuffle lcg (filter (λ s, shape_name s ≠ targetShape) SHAPES) g;
  let target :=
    {| pair_colorName := targetColor;
       pair_colorHex :=
         default "#000000"
           (color_hex <$> List.find (λ c, bool_decide (color_name c = targetColor)) COLORS);
       pair_shapeName := targetShape;
       pair_shapeSymbol :=
         default "■"
           (shape_symbol <$> List.find (λ s, bool_decide (shape_name s = targetShape)) SHAPES) |} in
  others ← mapi (λ _ i,
                   c ← get remainingColors i;
                   s ← get remainingShapes i;
                   Ok {| pair_colorName := color_name c;
                         pair_colorHex := color_hex c;
                         pair_shapeName := shape_name s;
                         pair_shapeSymbol := shape_symbol s |}) (range 7);
  let pairs := target :: others in
  '(orderedPairs, _) ← shuffle lcg pairs g;
  mapi (λ index pair,
          Ok {| item_id := item_label index;
                colorName := pair_colorName pair;
                colorHex := pair_colorHex pair;
                shapeName := pair_shapeName pair;
                shapeSymbol := pair_shapeSymbol pair |}) orderedPairs.

(** The criterion a trial's target is looked up by: the three predicates
    [findItemForTarget] passes to [find], as one function of the condition. *)
Definition matches_target (c : Condition) (targetColor targetShape : string)
    (item : StimulusItem) : bool :=
  match c with
  | color => bool_decide (colorName item = targetColor)
  | shape => bool_decide (shapeName item = targetShape)
  | combined =>
      bool_decide (colorName item = targetColor) && bool_decide (shapeName item = targetShape)
  end.

Definition findItemForTarget (items : list StimulusItem) (targetColor targetShape : string)
    (c : Condition) : result StimulusItem :=
  match c with
  | color =>
      match List.find (λ item, bool_decide (colorName item = targetColor)) items with
      | Some byColor => Ok byColor
      | None => Throw (NoMatchingTarget color)
      end
  | shape =>
      match List.find (λ item, bool_decide (shapeName item = targetShape)) items with
      | Some byShape => Ok byShape
      | None => Throw (NoMatchingTarget shape)
      end
  | combined =>
      match List.find (λ item, bool_decide (colorName item = targetColor)
                                && bool_decide (shapeName item = targetShape)) items with
      | Some byBoth => Ok byBoth
      | None => Throw (NoMatchingTarget combined)
      end
  end.

(** ** The block planner *)

Record BlockArgs := {
  arg_participantNumber : Z;
  arg_blockIndex : Z;
  arg_blockOrder : Z;
  arg_condition : Condition;
  arg_practiceTrials : option Z;
  arg_measuredTrials : option Z;
}.

(** The body of the loop over [t].  The seed of the trial and the numbers
    of its id are integers here; [exact_seeds] says for which calls the
    binary64 seed of the source is that integer. *)
Definition buildTrial (args : BlockArgs) (practiceTrials : Z)
    (balancedColorIndices balancedShapeIndices : list nat) (t : nat) : result TrialPlan :=
  let trialSeed :=
    arg_participantNumber args * 100000 + arg_blockIndex args * 1000 + Z.of_nat t + 1 in
  targetColor ←
    (if decide (arg_condition args = shape) then Ok "black"
     else ci ← get balancedColorIndices t; c ← get COLORS ci; Ok (color_name c));
  targetShape ←
    (if decide (arg_condition args = color) then Ok "circle"
     else si ← get balancedShapeIndices t; s ← get SHAPES si; Ok (shape_name s));
  items ←
    (match arg_condition args with
     | color => buildItemsForColorOnlyTrial trialSeed
     | shape => buildItemsForShapeOnlyTrial trialSeed
     | combined => buildCombinedItemsForTarget trialSeed targetColor targetShape
     end);
  correctItem ← findItemForTarget items targetColor targetShape (arg_condition args);
  let promptText :=
    match arg_condition args with
    | color => "Select the " +:+ targetColor +:+ " circle"
    | shape => "Select the " +:+ targetShape
    | combined => "Select the " +:+ targetColor +:+ " " +:+ targetShape
    end in
  Ok {| trial_id := "b" +:+ pretty (arg_blockIndex args) +:+ "_t" +:+ pretty (Z.of_nat t + 1);
        trial_blockIndex := arg_blockIndex args;
        trial_blockOrder := arg_blockOrder args;
        trial_condition := arg_condition args;
        trialIndexInBlock := Z.of_nat t + 1;
        isPractice := bool_decide (Z.of_nat t < practiceTrials);
        targetType := arg_condition args;
        targetColor := targetColor;
        targetShape := targetShape;
        promptText := promptText;
        correctItemId := item_id correctItem;
        items := items |}.

(** The seed of the block is an integer here, like the seeds of the trials
    ([exact_seeds]). *)
Definition generateBlockPlan (args : BlockArgs) : result BlockPlan :=
  let practiceTrials := default DEFAULT_PRACTICE_TRIALS (arg_practiceTrials args) in
  let measuredTrials := default DEFAULT_MEASURED_TRIALS (arg_measuredTrials args) in
  let totalTrials := practiceTrials + measuredTrials in
  let g :=
    seededRandom (arg_participantNumber args * 1000 + arg_blockIndex args * 77
                  + arg_blockOrder args * 19) in
  '(practiceColorIndices, g) ← buildBalancedIndices lcg (Z.of_nat (length COLORS)) practiceTrials g;
  '(practiceShapeIndices, g) ← buildBalancedIndices lcg (Z.of_nat (length SHAPES)) practiceTrials g;
  '(measuredColorIndices, g) ← buildBalancedIndices lcg (Z.of_nat (length COLORS)) measuredTrials g;
  '(measuredShapeIndices, _) ← buildBalancedIndices lcg (Z.of_nat (length SHAPES)) measuredTrials g;
  let balancedColorIndices := practiceColorIndices ++ measuredColorIndices in
  let balancedShapeIndices := practiceShapeIndices ++ measuredShapeIndices in
  trials ← mapi (λ _ t, buildTrial args practiceTrials balancedColorIndices balancedShapeIndices t)
             (range (Z.to_nat totalTrials));
  let practice := filter (λ trial, isPractice trial = true) trials in
  let measured := filter (λ trial, isPractice trial = false) trials in
  Ok {| blockIndex := arg_blockIndex args;
        blockOrder := arg_blockOrder args;
        condition := arg_condition args;
        practiceTrials := length practice;
        measuredTrials := length measured;
        trials := trials |}.

Definition generateAllBlocks (participantNumber : Z) : result (list BlockPlan) :=
  match getLatinSquareOrder participantNumber with
  | None => Throw TypeError
  | Some assignedOrder =>
      mapi (λ index condition,
              generateBlockPlan
                {| arg_participantNumber := participantNumber;
                   arg_blockIndex := Z.of_nat index;
                   arg_blockOrder := Z.of_nat index + 1;
                   arg_condition := condition;
                   arg_practiceTrials := Some DEFAULT_PRACTICE_TRIALS;
                   arg_measuredTrials := Some DEFAULT_MEASURED_TRIALS |}) assignedOrder
  end.


(** ** The closures of [seededRandom] in a store *)

(** The state variables of the closures [seededRandom] has returned so far: a
    closure is the location of its [state], and a call of it reads and
    writes that variable.  The functions below are the planner run on such
    a store, so that what a call does to the closures that exist, and what
    it takes from them, is there to be stated. *)
Definition Store : Type := gmap positive Z.

(** [seededRandom(seed)]: a new closure, over a state variable of its own. *)
Definition seededRandom_ref (seed : Z) (σ : Store) : positive * Store :=
  let rand := fresh (dom σ) in
  (rand, <[rand := seededRandom seed]> σ).

(** [rand()]: the closure replaces its state and returns the draw.  A
    closure has its variable in the store from the moment [seededRandom]
    returns it, so the second case is never taken. *)
Definition call_ref (rand : positive) (σ : Store) : spec_float * Store :=
  match σ !! rand with
  | Some state => ((lcg state).1, <[rand := (lcg state).2]> σ)
  | None => (S754_nan, σ)
  end.

Definition buildItemsForColorOnlyTrial_ref (trialSeed : Z) (σ : Store)
  : result (list StimulusItem * Store) :=
  let '(rand, σ) := seededRandom_ref trialSeed σ in
  '(order, σ) ← shuffle (call_ref rand) (range (length COLORS)) σ;
  items ← mapi (λ index colorIndex,
                  c ← get COLORS colorIndex;
                  Ok {| item_id := item_label index;
                        colorName := color_name c;
                        colorHex := color_hex c;
                        shapeName := "circle";
                        shapeSymbol := "●" |}) order;
  Ok (items, σ).

Definition buildItemsForShapeOnlyTrial_ref (trialSeed : Z) (σ : Store)
  : result (list StimulusItem * Store) :=
  let '(rand, σ) := seededRandom_ref trialSeed σ in
  '(order, σ) ← shuffle (call_ref rand) (range (length SHAPES)) σ;
  items ← mapi (λ index shapeIndex,
                  s ← get SHAPES shapeIndex;
                  Ok {| item_id := item_label index;
                        colorName := "black";
                        colorHex := "#111111";
                        shapeName := shape_name s;
                        shapeSymbol := shape_symbol s |}) order;
  Ok (items, σ).

Definition buildCombinedItemsForTarget_ref (trialSeed : Z) (targetColor targetShape : string)
    (σ : Store) : result (list StimulusItem * Store) :=
  let '(rand, σ) := seededRandom_ref trialSeed σ in
  '(remainingColors, σ) ←
    shuffle (call_ref rand) (filter (λ c, color_name c ≠ targetColor) COLORS) σ;
  '(remainingShapes, σ) ←
    shuffle (call_ref rand) (filter (λ s, shape_name s ≠ targetShape) SHAPES) σ;
  let target :=
    {| pair_colorName := targetColor;
       pair_colorHex :=
         default "#000000"
           (color_hex <$> List.find (λ c, bool_decide (color_name c = targetColor)) COLORS);
       pair_shapeName := targetShape;
       pair_shapeSymbol :=
         default "■"
           (shape_symbol <$> List.find (λ s, bool_decide (shape_name s = targetShape)) SHAPES) |} in
  others ← mapi (λ _ i,
                   c ← get remainingColors i;
                   s ← get remainingShapes i;
                   Ok {| pair_colorName := color_name c;
                         pair_colorHex := color_hex c;
                         pair_shapeName := shape_name s;
                         pair_shapeSymbol := shape_symbol s |}) (range 7);
  let pairs := target :: others in
  '(orderedPairs, σ) ← shuffle (call_ref rand) pairs σ;
  items ← mapi (λ index pair,
                  Ok {| item_id := item_label index;
                        colorName := pair_colorName pair;
                        colorHex := pair_colorHex pair;
                        shapeName := pair_shapeName pair;
                        shapeSymbol := pair_shapeSymbol pair |}) orderedPairs;
  Ok (items, σ).

(** The body of the loop over [t], on the store. *)
Definition buildTrial_ref (args : BlockArgs) (practiceTrials : Z)
    (balancedColorIndices balancedShapeIndices : list nat) (t : nat) (σ : Store)
  : result (TrialPlan * Store) :=
  let trialSeed :=
    arg_participantNumber args * 100000 + arg_blockIndex args * 1000 + Z.of_nat t + 1 in
  targetColor ←
    (if decide (arg_condition args = shape) then Ok "black"
     else ci ← get balancedColorIndices t; c ← get COLORS ci; Ok (color_name c));
  targetShape ←
    (if decide (arg_condition args = color) then Ok "circle"
     else si ← get balancedShapeIndices t; s ← get SHAPES si; Ok (shape_name s));
  '(items, σ) ←
    (match arg_condition args with
     | color => buildItemsForColorOnlyTrial_ref trialSeed σ
     | shape => buildItemsForShapeOnlyTrial_ref trialSeed σ
     | combined => buildCombinedItemsForTarget_ref trialSeed targetColor targetShape σ
     end);
  correctItem ← findItemForTarget items targetColor targetShape (arg_condition args);
  let promptText :=
    match arg_condition args with
    | color => "Select the " +:+ targetColor +:+ " circle"
    | shape => "Select the " +:+ targetShape
    | combined => "Select the " +:+ targetColor +:+ " " +:+ targetShape
    end in
  Ok ({| trial_id := "b" +:+ pretty (arg_blockIndex args) +:+ "_t" +:+ pretty (Z.of_nat t + 1);
         trial_blockIndex := arg_blockIndex args;
         trial_blockOrder := arg_blockOrder args;
         trial_condition := arg_condition args;
         trialIndexInBlock := Z.of_nat t + 1;
         isPractice := bool_decide (Z.of_nat t < practiceTrials);
         targetType := arg_condition args;
         targetColor := targetColor;
         targetShape := targetShape;
         promptText := promptText;
         correctItemId := item_id correctItem;
         items := items |}, σ).

(** The loop over [t], which passes the store from one trial to the next. *)
Fixpoint trials_from_ref (body : nat → Store → result (TrialPlan * Store)) (ts : list nat)
    (σ : Store) : result (list TrialPlan * Store) :=
  match ts with
  | [] => Ok ([], σ)
  | t :: ts' =>
      '(trial, σ) ← body t σ;
      '(trials, σ) ← trials_from_ref body ts' σ;
      Ok (trial :: trials, σ)
  end.

Definition generateBlockPlan_ref (args : BlockArgs) (σ : Store) : result (BlockPlan * Store) :=
  let practiceTrials := default DEFAULT_PRACTICE_TRIALS (arg_practiceTrials args) in
  let measuredTrials := default DEFAULT_MEASURED_TRIALS (arg_measuredTrials args) in
  let totalTrials := practiceTrials + measuredTrials in
  let '(rand, σ) :=
    seededRandom_ref (arg_participantNumber args * 1000 + arg_blockIndex args * 77
                      + arg_blockOrder args * 19) σ in
  '(practiceColorIndices, σ) ←
    buildBalancedIndices (call_ref rand) (Z.of_nat (length COLORS)) practiceTrials σ;
  '(practiceShapeIndices, σ) ←
    buildBalancedIndices (call_ref rand) (Z.of_nat (length SHAPES)) practiceTrials σ;
  '(measuredColorIndices, σ) ←
    buildBalancedIndices (call_ref rand) (Z.of_nat (length COLORS)) measuredTrials σ;
  '(measuredShapeIndices, σ) ←
    buildBalancedIndices (call_ref rand) (Z.of_nat (length SHAPES)) measuredTrials σ;
  let balancedColorIndices := practiceColorIndices ++ measuredColorIndices in
  let balancedShapeIndices := practiceShapeIndices ++ measuredShapeIndices in
  '(trials, σ) ←
    trials_from_ref
      (buildTrial_ref args practiceTrials balancedColorIndices balancedShapeIndices)
      (range (Z.to_nat totalTrials)) σ;
  let practice := filter (λ trial, isPractice trial = true) trials in
  let measured := filter (λ trial, isPractice trial = false) trials in
  Ok ({| blockIndex := arg_blockIndex args;
         blockOrder := arg_blockOrder args;
         condition := arg_condition args;
         practiceTrials := length practice;
         measuredTrials := length measured;
         trials := trials |}, σ).

(** A run on the store [σ] gives what the function on values gives, and a
    store in which every closure of [σ] still has its state. *)
Definition refines {A} (value : result A) (σ : Store) (run : result (A * Store)) : Prop :=
  match value with
  | Ok a => ∃ σ', run = Ok (a, σ') ∧ σ ⊆ σ'
  | Throw e => run = Throw e
  end.

(** ** The balance check *)

(** [Math.max(...values) - Math.min(...values)]: a number, or [-Infinity]
    when there are no values. *)
Inductive spread_value := Spread (d : Z) | NegInfinity.

Definition min_list (ns : list nat) : nat :=
  match ns with
  | [] => 0%nat
  | n :: ns' => foldr Nat.min n ns'
  end.

Definition spread_of (values : list nat) : spread_value :=
  match values with
  | [] => NegInfinity
  | _ => Spread (Z.of_nat (max_list values) - Z.of_nat (min_list values))
  end.

(** The loop filling a [Map<string, number>] of counts. *)
Definition count_targets (targets : list string) : gmap string nat :=
  foldl (λ counts target, <[target := (default 0 (counts !! target) + 1)%nat]> counts)
        ∅ targets.

Record Balance := { maxColorDiff : spread_value; maxShapeDiff : spread_value }.

Definition assertBalancedTargets (trials : list TrialPlan) : Balance :=
  let measured := filter (λ trial, isPractice trial = false) trials in
  let colorCounts := count_targets (targetColor <$> measured) in
  let shapeCounts := count_targets (targetShape <$> measured) in
  let colorValues := (map_to_list colorCounts).*2 in
  let shapeValues := (map_to_list shapeCounts).*2 in
  {| maxColorDiff := spread_of colorValues; maxShapeDiff := spread_of shapeValues |}.

(** ** Notions the statements use *)

(** The number of occurrences of [x] in [l]. *)
Definition occ `{EqDecision A} (x : A) (l : list A) : nat := length (filter (x =.) l).

(** The largest length of a JavaScript array. *)
Definition MAX_ARRAY_LENGTH : Z := 4294967295.

(** The one class of seeds [seededRandom] does not normalise: reduced to
    -2147483646, they get the state 0. *)
Definition degenerate_seed (seed : Z) : Prop := Z.rem seed 2147483647 = -2147483646.

(** The states of a generator that was seeded properly. *)
Definition lcg_state (state : Z) : Prop := 1 ≤ state ≤ 2147483646.

(** What [buildBalancedIndices] returns: [base] copies of every category plus
    [remainder] distinct extra categories, in some order. *)
Definition balanced (len base remainder : nat) (indices : list nat) : Prop :=
  ∃ extras,
    indices ≡ₚ flat_map (λ i, replicate base i) (seq 0 len) ++ extras
    ∧ NoDup extras ∧ (∀ x, x ∈ extras → (x < len)%nat) ∧ length extras = remainder.

(** The entry of a table at an index that is in range. *)
Definition color_at (i : nat) : Color :=
  default {| color_name := ""; color_hex := "" |} (COLORS !! i).
Definition shape_at (i : nat) : Shape :=
  default {| shape_name := ""; shape_symbol := "" |} (SHAPES !! i).
Definition color_item (index colorIndex : nat) : StimulusItem :=
  {| item_id := item_label index;
     colorName := color_name (color_at colorIndex);
     colorHex := color_hex (color_at colorIndex);
     shapeName := "circle";
     shapeSymbol := "●" |}.
Definition shape_item (index shapeIndex : nat) : StimulusItem :=
  {| item_id := item_label index;
     colorName := "black";
     colorHex := "#111111";
     shapeName := shape_name (shape_at shapeIndex);
     shapeSymbol := shape_symbol (shape_at shapeIndex) |}.
Definition pair_item (index : nat) (pair : Pair) : StimulusItem :=
  {| item_id := item_label index;
     colorName := pair_colorName pair;
     colorHex := pair_colorHex pair;
     shapeName := pair_shapeName pair;
     shapeSymbol := pair_shapeSymbol pair |}.


(** Exactly one item of the trial matches its target, and it is the one
    [correctItemId] names. *)
Definition unique_target (trial : TrialPlan) : Prop :=
  ∃ item,
    filter (λ item, matches_target (trial_condition trial) (targetColor trial)
                      (targetShape trial) item = true) (items trial) = [item]
    ∧ item_id item = correctItemId trial.


Definition practice_count (args : BlockArgs) : Z :=
  default DEFAULT_PRACTICE_TRIALS (arg_practiceTrials args).
Definition measured_count (args : BlockArgs) : Z :=
  default DEFAULT_MEASURED_TRIALS (arg_measuredTrials args).

(** The seeds of a call: one for the block, one for each trial. *)
Definition block_seed (args : BlockArgs) : Z :=
  arg_participantNumber args * 1000 + arg_blockIndex args * 77 + arg_blockOrder args * 19.
Definition trial_seed (args : BlockArgs) (t : nat) : Z :=
  arg_participantNumber args * 100000 + arg_blockIndex args * 1000 + Z.of_nat t + 1.

(** The source computes the two seeds in binary64.  They are the integers
    [block_seed] and [trial_seed] as long as every product and every partial
    sum of the two expressions is an integer of magnitude at most 2^53, which
    binary64 holds exactly: [exact_seeds] bounds them all, through the
    magnitudes of the three numbers and the number of trials.  Beyond it the
    seeds of the source are rounded, or infinite, and the planner of the
    source is not the one of this file.  The block index is then also below
    10^21, where a template literal prints a number with all its digits. *)
Definition exact_seeds (args : BlockArgs) : Prop :=
  Z.abs (arg_participantNumber args) * 1000 + Z.abs (arg_blockIndex args) * 77
    + Z.abs (arg_blockOrder args) * 19 ≤ 2 ^ 53
  ∧ Z.abs (arg_participantNumber args) * 100000 + Z.abs (arg_blockIndex args) * 1000
    + Z.max 0 (practice_count args + measured_count args) ≤ 2 ^ 53.

(** The calls the planner is meant for: counts whose sum an array can hold,
    numbers with which the seeds are exact, and no seed in the class
    [seededRandom] does not normalise.  Every call without a negative
    argument whose seeds are at most 2^53 is one ([nonneg_well_formed]). *)
Definition well_formed (args : BlockArgs) : Prop :=
  0 ≤ practice_count args
  ∧ 0 ≤ measured_count args
  ∧ practice_count args + measured_count args ≤ MAX_ARRAY_LENGTH
  ∧ exact_seeds args
  ∧ ¬ degenerate_seed (block_seed args)
  ∧ ∀ t : nat, Z.of_nat t < practice_count args + measured_count args →
      ¬ degenerate_seed (trial_seed args t).

(** The largest participant number with which the seeds of a session of
    three blocks of 13 trials are exact: the greatest of them, the seed
    [n * 100000 + 2013] of the last trial of the third block, is then at
    most 2^53.  With the next number the product [n * 100000] is already
    beyond 2^53. *)
Definition MAX_PARTICIPANT_NUMBER : Z := 90071992547.

(** What the planner puts in the trial at position [t], whose targets have
    the indices [ci] and [si]. *)
Definition trial_spec (args : BlockArgs) (t ci si : nat) (trial : TrialPlan) : Prop :=
  trial_condition trial = arg_condition args
  ∧ trialIndexInBlock trial = Z.of_nat t + 1
  ∧ isPractice trial = bool_decide (Z.of_nat t < practice_count args)
  ∧ targetColor trial
    = (if decide (arg_condition args = shape) then "black" else color_name (color_at ci))
  ∧ targetShape trial
    = (if decide (arg_condition args = color) then "circle" else shape_name (shape_at si))
  ∧ length (items trial) = 8%nat
  ∧ unique_target trial.

(** The four index sequences and the trials of a plan. *)
Definition plan_spec (args : BlockArgs) (plan : BlockPlan) : Prop :=
  ∃ practiceColors practiceShapes measuredColors measuredShapes,
    let p := practice_count args in
    let m := measured_count args in
    balanced 8 (Z.to_nat (p `div` 8)) (Z.to_nat (p `mod` 8)) practiceColors
    ∧ balanced 8 (Z.to_nat (p `div` 8)) (Z.to_nat (p `mod` 8)) practiceShapes
    ∧ balanced 8 (Z.to_nat (m `div` 8)) (Z.to_nat (m `mod` 8)) measuredColors
    ∧ balanced 8 (Z.to_nat (m `div` 8)) (Z.to_nat (m `mod` 8)) measuredShapes
    ∧ length (trials plan) = Z.to_nat (p + m)
    ∧ ∀ t trial, trials plan !! t = Some trial →
        ∃ ci si,
          (practiceColors ++ measuredColors) !! t = Some ci
          ∧ (practiceShapes ++ measuredShapes) !! t = Some si
          ∧ trial_spec args t ci si trial.



(** A call the tests make: participant 123456, first block, combined. *)
Definition combined_123456 : BlockArgs :=
  {| arg_participantNumber := 123456; arg_blockIndex := 0; arg_blockOrder := 1;
     arg_condition := combined; arg_practiceTrials := Some 3;
     arg_measuredTrials := Some 10 |}.

(** The spread is at most 1, or there is none for want of values. *)
Definition spread_at_most_1 (v : spread_value) : Prop :=
  match v with NegInfinity => True | Spread d => d ≤ 1 end.

(** ** Notions of the further properties *)

(** The prompt of a trial, from its condition and targets. *)
Definition prompt_of (c : Condition) (targetColor targetShape : string) : string :=
  match c with
  | color => "Select the " +:+ targetColor +:+ " circle"
  | shape => "Select the " +:+ targetShape
  | combined => "Select the " +:+ targetColor +:+ " " +:+ targetShape
  end.

(** The items of a trial, from its condition, seed and targets. *)
Definition items_of (c : Condition) (trialSeed : Z) (targetColor targetShape : string)
  : result (list StimulusItem) :=
  match c with
  | color => buildItemsForColorOnlyTrial trialSeed
  | shape => buildItemsForShapeOnlyTrial trialSeed
  | combined => buildCombinedItemsForTarget trialSeed targetColor targetShape
  end.

(** The colour and the shape an item shows, as entries of the tables. *)
Definition item_color (item : StimulusItem) : Color :=
  {| color_name := colorName item; color_hex := colorHex item |}.
Definition item_shape (item : StimulusItem) : Shape :=
  {| shape_name := shapeName item; shape_symbol := shapeSymbol item |}.

(** The ids of the items of a trial. *)
Definition ITEM_IDS : list string :=
  ["item_1"; "item_2"; "item_3"; "item_4"; "item_5"; "item_6"; "item_7"; "item_8"].

(** The pair of a colour and a shape of the tables. *)
Definition make_pair (c : Color) (s : Shape) : Pair :=
  {| pair_colorName := color_name c; pair_colorHex := color_hex c;
     pair_shapeName := shape_name s; pair_shapeSymbol := shape_symbol s |}.
Definition pair_color (pair : Pair) : Color :=
  {| color_name := pair_colorName pair; color_hex := pair_colorHex pair |}.
Definition pair_shape (pair : Pair) : Shape :=
  {| shape_name := pair_shapeName pair; shape_symbol := pair_shapeSymbol pair |}.

(** What a trial of a plan shows, by the condition of the block. *)
Definition trial_items_spec (trial : TrialPlan) : Prop :=
  item_id <$> items trial = ITEM_IDS
  ∧ match trial_condition trial with
    | color =>
        item_color <$> items trial ≡ₚ COLORS
        ∧ Forall (λ item, shapeName item = "circle" ∧ shapeSymbol item = "●") (items trial)
    | shape =>
        item_shape <$> items trial ≡ₚ SHAPES
        ∧ Forall (λ item, colorName item = "black" ∧ colorHex item = "#111111") (items trial)
    | combined =>
        item_color <$> items trial ≡ₚ COLORS ∧ item_shape <$> items trial ≡ₚ SHAPES
    end.

(** The number of draws a call with positive arguments makes. *)
Definition balanced_draws (cats count : Z) : nat :=
  let extra := if decide (count `mod` cats = 0) then 0%nat else (Z.to_nat cats - 1)%nat in
  (extra + (Z.to_nat count - 1))%nat.

(** ** Participant numbers *)

(** [Math.floor(Math.random() * 900000) + 100000], for the number [random]
    that [Math.random] returns. *)
Definition createParticipantNumber (random : spec_float) : option Z :=
  j ← Float64.floor (Float64.mul random (Float64.of_Z 900000));
  Some (j + 100000).

(** ** The names of the conditions *)

Definition readableCondition (c : Condition) : string :=
  match c with
  | color => "A: Colour-Coded"
  | shape => "B: Shape-Coded"
  | combined => "C: Colour + Shape"
  end.

(** ** CSV export ([export.ts]) *)

(** The three characters [escapeCsvValue] looks for: the comma, the double
    quote and the line feed. *)
Definition COMMA : Ascii.ascii := ","%char.
Definition QUOTE : Ascii.ascii := "034"%char.
Definition NEWLINE : Ascii.ascii := "010"%char.

(** [text.includes(c)] for a one-character string [c]. *)
Fixpoint includes (text : string) (c : Ascii.ascii) : bool :=
  match text with
  | EmptyString => false
  | String a rest => bool_decide (a = c) || includes rest c
  end.

(** [text.replaceAll(c, replacement)] for a one-character string [c]. *)
Fixpoint replaceAll (text : string) (c : Ascii.ascii) (replacement : string) : string :=
  match text with
  | EmptyString => EmptyString
  | String a rest =>
      if decide (a = c) then replacement +:+ replaceAll rest c replacement
      else String a (replaceAll rest c replacement)
  end.

(** [parts.join(sep)] for an array of strings. *)
Definition join (parts : list string) (sep : string) : string := String.concat sep parts.

Section Csv.
(** The values of the rows: [String_of] is [String(value)] on the values
    that are neither [null] nor [undefined], which are [None]. *)
Context {V : Type} (String_of : V → string).

(** [String(value ?? '')] *)
Definition text_of (value : option V) : string :=
  match value with Some v => String_of v | None => "" end.

Definition escapeCsvValue (value : option V) : string :=
  let text := text_of value in
  if includes text COMMA || includes text QUOTE || includes text NEWLINE
  then String QUOTE (replaceAll text QUOTE (String QUOTE (String QUOTE "")) +:+ String QUOTE "")
  else text.

(** A row object: its own enumerable properties, in the order [Object.keys]
    lists them, and what [record[key]] is for every other key: the value of
    a property the row inherits (an object literal inherits [toString],
    [constructor] and others from [Object.prototype]) or has without
    listing it, and [None] ([undefined]) where there is no such property. *)
Record Row := {
  own_properties : list (string * option V);
  other_property : string → option V;
}.

Definition Object_keys (row : Row) : list string := (own_properties row).*1.

(** [record[key]] *)
Definition property (record : Row) (key : string) : option V :=
  match List.find (λ kv, bool_decide (kv.1 = key)) (own_properties record) with
  | Some (_, value) => value
  | None => other_property record key
  end.

Definition toCsv (rows : list Row) : string :=
  match rows with
  | [] => ""
  | first :: _ =>
      let headers := Object_keys first in
      let headerRow := join headers (String COMMA "") in
      let body :=
        (λ record, join ((λ key, escapeCsvValue (property record key)) <$> headers)
                        (String COMMA "")) <$> rows in
      join (headerRow :: body) (String NEWLINE "")
  end.

(** The text of the cells of a table, row by row, for given columns. *)
Definition cells (headers : list string) (rows : list Row) : list (list string) :=
  (λ record, (λ key, text_of (property record key)) <$> headers) <$> rows.

End Csv.

(** An object literal with the given properties, whose values are texts;
    of what it inherits only [toString] is put in, as the text an engine
    prints for that function. *)
Definition sample_object (properties : list (string * option string)) : Row :=
  {| own_properties := properties;
     other_property := λ key,
       if decide (key = "toString") then Some "function toString() { [native code] }"
       else None |}.

(** A text without comma, double quote and line feed. *)
Definition plain (text : string) : Prop :=
  includes text COMMA = false ∧ includes text QUOTE = false ∧ includes text NEWLINE = false.

(** A reader of CSV text: records end at a line feed, fields at a comma; a
    field that starts with a double quote runs to the next double quote that
    is not doubled, and a doubled one stands for one double quote. *)
Inductive csv_mode := FieldStart | Unquoted | Quoted | QuoteSeen.

Fixpoint readCsv_from (mode : csv_mode) (field : string) (record : list string)
    (records : list (list string)) (text : string) : list (list string) :=
  match text with
  | EmptyString => reverse (reverse (field :: record) :: records)
  | String a rest =>
      match mode with
      | Quoted =>
          if decide (a = QUOTE) then readCsv_from QuoteSeen field record records rest
          else readCsv_from Quoted (field +:+ String a "") record records rest
      | _ =>
          if decide (a = COMMA) then
            readCsv_from FieldStart "" (field :: record) records rest
          else if decide (a = NEWLINE) then
            readCsv_from FieldStart "" [] (reverse (field :: record) :: records) rest
          else if decide (a = QUOTE) then
            match mode with
            | FieldStart => readCsv_from Quoted field record records rest
            | _ => readCsv_from (if mode is QuoteSeen then Quoted else Unquoted)
                     (field +:+ String a "") record records rest
            end
          else readCsv_from Unquoted (field +:+ String a "") record records rest
      end
  end.

Definition readCsv (text : string) : list (list string) :=
  readCsv_from FieldStart "" [] [] text.

(** The rest of the text starts a new field or a new record, or is empty. *)
Definition at_delimiter (rest : string) : Prop :=
  match rest with
  | EmptyString => True
  | String a _ => a = COMMA ∨ a = NEWLINE
  end.

(** A written field and the text a reader gets from it. *)
Definition reads_as (written text : string) : Prop :=
  ∀ record records rest,
    at_delimiter rest →
    readCsv_from FieldStart "" record records (written +:+ rest)
    = readCsv_from Unquoted text record records rest.

(** The reader at the end of a field, with the fields of the record so far
    (the last one first). *)
Definition readCsv_end (fields : list string) (records : list (list string)) (rest : string)
  : list (list string) :=
  match fields with
  | field :: record => readCsv_from Unquoted field record records rest
  | [] => []
  end.

(** ** The participant summary ([export.ts]) *)

(** [Math.round] of a finite double, as an integer: the nearest integer, a
    tie going up; [NaN] and the infinities have none. *)
Definition Math_round (x : spec_float) : option Z :=
  match x with
  | S754_zero _ => Some 0
  | S754_finite s m e =>
      let n := cond_Zopp s (Z.pos m) in
      Some (if decide (0 ≤ e) then n * 2 ^ e else (2 * n + 2 ^ (- e)) `div` 2 ^ (1 - e))
  | S754_infinity _ | S754_nan => None
  end.

(** The types of [types.ts] of a session; a union of string literals that
    the code only copies is a string. *)
Inductive Stage :=
  | stage_consent | stage_demographics | stage_block_intro | stage_practice_transition
  | stage_trial | stage_post_block | stage_break | stage_complete.

Record Demographics := {
  ageBracket : string;
  computerUse : string;
  colorBlindness : string;
  visionStatus : string;
}.

Record TrialSummary := {
  participant_id : string;
  participant_number : Z;
  row_condition : Condition;
  block_index : Z;
  block_order : Z;
  trial_index_in_block : Z;
  is_practice : bool;
  included_in_analysis : bool;
  target_type : Condition;
  target_color : string;
  target_shape : string;
  prompt_text : string;
  correct_item_id : string;
  clicked_item_id : string;
  is_correct : bool;
  first_click_correct : bool;
  click_count_this_trial : Z;
  error_count_this_trial : Z;
  reaction_time_ms : Z;
  prompt_onset_iso : string;
  response_time_iso : string;
  assigned_order : string;
}.

Record BlockLikert := {
  likert_participant_id : string;
  likert_participant_number : Z;
  likert_block_index : Z;
  likert_block_order : Z;
  likert_condition : Condition;
  clarity_1_to_5 : Z;
  ease_of_use_1_to_5 : Z;
  preference_1_to_5 : Z;
  timestamp_iso : string;
  likert_assigned_order : string;
}.

Inductive EventType :=
  | session_started | block_started | trial_presented | item_clicked
  | trial_completed | likert_submitted | session_completed | withdrawn.

(** The values the payload of an event holds. *)
Inductive PayloadValue :=
  | PayloadString (text : string)
  | PayloadNumber (number : Z)
  | PayloadBoolean (flag : bool).

Record RawEvent := {
  event_participant_id : string;
  event_type : EventType;
  event_timestamp_iso : string;
  event_block_index : option Z;
  event_condition : option Condition;
  event_trial_id : option string;
  event_trial_index_in_block : option Z;
  event_item_id : option string;
  event_is_correct : option bool;
  payload : option (list (string * PayloadValue));
}.

Record SessionState := {
  version : Z;
  participantId : string;
  participantNumber : Z;
  studyOperator : option string;
  assignedOrder : list Condition;
  stage : Stage;
  consentGiven : bool;
  demographics : option Demographics;
  blocks : list BlockPlan;
  currentBlockIndex : Z;
  currentTrialIndex : Z;
  trialSummaries : list TrialSummary;
  rawEvents : list RawEvent;
  blockLikerts : list BlockLikert;
  currentTrialErrors : Z;
  completedAtIso : option string;
}.

Record ParticipantSummary := {
  summary_participant_id : string;
  summary_participant_number : Z;
  study_operator : string;
  summary_assigned_order : string;
  age_bracket : string;
  computer_use_frequency : string;
  color_blindness : string;
  vision_status : string;
  total_trials_including_practice : nat;
  total_measured_trials : nat;
  total_errors_measured : Z;
  mean_reaction_time_ms_measured : option Z;
  completed_at_iso : string;
}.

(** [rows.reduce((sum, row) => sum + f(row), 0)] *)
Definition reduce_sum {A} (f : A → Z) (rows : list A) : Z :=
  foldl (λ sum row, sum + f row) 0 rows.

Definition buildParticipantSummary (session : SessionState) : ParticipantSummary :=
  let measured := filter (λ trial, included_in_analysis trial = true) (trialSummaries session) in
  let totalErrorsMeasured := reduce_sum error_count_this_trial measured in
  let meanReaction :=
    if decide (0 < length measured)%nat
    then Float64.div (Float64.of_Z (reduce_sum reaction_time_ms measured))
                     (Float64.of_Z (Z.of_nat (length measured)))
    else Float64.of_Z 0 in
  {| summary_participant_id := participantId session;
     summary_participant_number := participantNumber session;
     study_operator := default "" (studyOperator session);
     summary_assigned_order := orderToLabel (assignedOrder session);
     age_bracket := default "" (ageBracket <$> demographics session);
     computer_use_frequency := default "" (computerUse <$> demographics session);
     color_blindness := default "" (colorBlindness <$> demographics session);
     vision_status := default "" (visionStatus <$> demographics session);
     total_trials_including_practice := length (trialSummaries session);
     total_measured_trials := length measured;
     total_errors_measured := totalErrorsMeasured;
     mean_reaction_time_ms_measured := Math_round meanReaction;
     completed_at_iso := default "" (completedAtIso session) |}.

(** A session with one practice row and two measured rows. *)
Definition sample_row (included : bool) (errors reaction : Z) : TrialSummary :=
  {| participant_id := "P-123456"; participant_number := 123456; row_condition := color;
     block_index := 0; block_order := 1; trial_index_in_block := 1;
     is_practice := negb included; included_in_analysis := included;
     target_type := color; target_color := "red"; target_shape := "circle";
     prompt_text := "Select the red circle"; correct_item_id := "item_3";
     clicked_item_id := "item_3"; is_correct := true;
     first_click_correct := bool_decide (errors = 0);
     click_count_this_trial := errors + 1; error_count_this_trial := errors;
     reaction_time_ms := reaction; prompt_onset_iso := ""; response_time_iso := "";
     assigned_order := "ABC" |}.

Definition sample_session : SessionState :=
  {| version := 1; participantId := "P-123456"; participantNumber := 123456;
     studyOperator := None; assignedOrder := [color; shape; combined];
     stage := stage_trial; consentGiven := true; demographics := None; blocks := [];
     currentBlockIndex := 0; currentTrialIndex := 3;
     trialSummaries :=
       [sample_row false 2 5000; sample_row true 0 1200; sample_row true 1 1301];
     rawEvents := []; blockLikerts := []; currentTrialErrors := 0;
     completedAtIso := None |}.

(** ** Starting a session ([App.tsx]) *)

Definition SESSION_VERSION : Z := 1.

(** The template literal prints an integer below 10^21 in magnitude with all
    its digits, as [pretty] does; the participant numbers of the statements
    are at most [MAX_PARTICIPANT_NUMBER]. *)
Definition buildParticipantId (participantNumber : Z) : string :=
  "P-" +:+ pretty participantNumber.

(** The optional argument of [createSession]; a field that is left out, or
    the whole argument, is [None]. *)
Record SessionArgs := {
  session_participantNumber : option Z;
  session_assignedOrder : option (list Condition);
  session_studyOperator : option string;
  session_stage : option Stage;
  session_demographics : option Demographics;
  session_consentGiven : option bool;
}.

(** What [createSession] reads from its environment: the draw of
    [Math.random] (used only when no participant number is given), the
    clock and the size of the window. *)
Record Environment := {
  Math_random : spec_float;
  nowIso : string;
  innerWidth : Z;
  innerHeight : Z;
}.

(** A participant number without an order (a negative one that is not a
    multiple of 3) makes the [map] over the order raise a TypeError.  A draw
    of [Math.random] is a finite number, so the number drawn is an integer;
    for a value that is not finite the number would be [NaN], which has no
    order either, and the model gives the TypeError for it in every case,
    also with an order in [args]. *)
Definition createSession (env : Environment) (args : option SessionArgs)
  : result SessionState :=
  let participantNumber :=
    match args ≫= session_participantNumber with
    | Some n => Some n
    | None => createParticipantNumber (Math_random env)
    end in
  match (match args ≫= session_assignedOrder with
         | Some order => Some order
         | None => participantNumber ≫= getLatinSquareOrder
         end), participantNumber with
  | Some assignedOrder, Some participantNumber =>
      blocks ← mapi (λ blockIndex condition,
                       generateBlockPlan
                         {| arg_participantNumber := participantNumber;
                            arg_blockIndex := Z.of_nat blockIndex;
                            arg_blockOrder := Z.of_nat blockIndex + 1;
                            arg_condition := condition;
                            arg_practiceTrials := None;
                            arg_measuredTrials := None |}) assignedOrder;
      Ok {| version := SESSION_VERSION;
            participantId := buildParticipantId participantNumber;
            participantNumber := participantNumber;
            studyOperator := args ≫= session_studyOperator;
            assignedOrder := assignedOrder;
            stage := default stage_consent (args ≫= session_stage);
            consentGiven := default false (args ≫= session_consentGiven);
            demographics := args ≫= session_demographics;
            blocks := blocks;
            currentBlockIndex := 0;
            currentTrialIndex := 0;
            trialSummaries := [];
            rawEvents :=
              [ {| event_participant_id := buildParticipantId participantNumber;
                   event_type := session_started;
                   event_timestamp_iso := nowIso env;
                   event_block_index := None;
                   event_condition := None;
                   event_trial_id := None;
                   event_trial_index_in_block := None;
                   event_item_id := None;
                   event_is_correct := None;
                   payload :=
                     Some [ ("assigned_order", PayloadString (orderToLabel assignedOrder));
                            ("study_operator",
                             PayloadString (default "" (args ≫= session_studyOperator)));
                            ("screen_width_px", PayloadNumber (innerWidth env));
                            ("screen_height_px", PayloadNumber (innerHeight env));
                            ("experiment_design",
                             PayloadString "single-factor, three-level within-subjects repeated-measures controlled visual search paradigm") ] |} ];
            blockLikerts := [];
            currentTrialErrors := 0;
            completedAtIso := None |}
  | _, _ => Throw TypeError
  end.

(** An environment: a draw of the seeded generator stands for [Math.random]. *)
Definition sample_environment : Environment :=
  {| Math_random := (lcg (seededRandom 42)).1; nowIso := "2026-02-27T00:56:05.311Z";
     innerWidth := 1920; innerHeight := 1080 |}.

(** The calls whose counts may have any sign: each count is at most an array
    length in magnitude, the index sequences of the positive counts fit an
    array when they are joined, the seeds are exact and none of them is in
    the class [seededRandom] does not normalise. *)
Definition any_sign_call (args : BlockArgs) : Prop :=
  - MAX_ARRAY_LENGTH ≤ practice_count args
  ∧ - MAX_ARRAY_LENGTH ≤ measured_count args
  ∧ Z.max 0 (practice_count args) + Z.max 0 (measured_count args) ≤ MAX_ARRAY_LENGTH
  ∧ exact_seeds args
  ∧ ¬ degenerate_seed (block_seed args)
  ∧ ∀ t : nat, Z.of_nat t < practice_count args + measured_count args →
      ¬ degenerate_seed (trial_seed args t).

(** A call of the tests with a negative practice count. *)
Definition negative_practice : BlockArgs :=
  {| arg_participantNumber := 123456; arg_blockIndex := 0; arg_blockOrder := 1;
     arg_condition := combined; arg_practiceTrials := Some (-2);
     arg_measuredTrials := Some 10 |}.

(** A measured trial of a combined block, without its items. *)
Definition sample_trial (index : Z) (targetColor targetShape : string) : TrialPlan :=
  {| trial_id := "b0_t" +:+ pretty index; trial_blockIndex := 0; trial_blockOrder := 1;
     trial_condition := combined; trialIndexInBlock := index; isPractice := false;
     targetType := combined; targetColor := targetColor; targetShape := targetShape;
     promptText := prompt_of combined targetColor targetShape;
     correctItemId := "item_1"; items := [] |}.

(** * Facts *)

(** ** The tests of the repository, evaluated *)

Example latin_square_labels : orderToLabel <$> LATIN_SQUARE_3 = ["ABC"; "BCA"; "CAB"].
Proof. reflexivity. Qed.

Example latin_square_first_participants :
  (λ n, orderToLabel <$> getLatinSquareOrder n) <$> [0; 1; 2; 3]
  = [Some "ABC"; Some "BCA"; Some "CAB"; Some "ABC"].
Proof. reflexivity. Qed.

Example latin_square_even_distribution :
  let labels := (λ n, orderToLabel <$> getLatinSquareOrder n) <$> seqZ 100000 300 in
  (λ label, length (filter (Some label =.) labels)) <$> ["ABC"; "BCA"; "CAB"]
  = [100; 100; 100]%nat.
Proof. by vm_compute. Qed.

Example combined_123456_counts :
  (λ plan, (length (trials plan), practiceTrials plan, measuredTrials plan))
    <$> (match generateBlockPlan combined_123456 with Ok plan => Some plan | Throw _ => None end)
  = Some (13, 3, 10)%nat.
Proof. by vm_compute. Qed.

(** ** Rounding in binary64 *)

(** [SpecFloat] rounds by shifting the mantissa right bit by bit, keeping a
    round and a sticky bit.  The lemmas below restate one rounding on
    integers (the quotient by a power of two, plus at most one), and bound
    the two operations the program performs: the product of a double below 1
    and an integer [n] stays below [n], and the quotient the generator
    returns is a double in [0, 1). *)
Module Float64Facts.
Import Float64.

Lemma digits2_pos_size p : digits2_pos p = Pos.size p.
Proof. induction p; simpl; congruence. Qed.

Lemma Zdigits2_log2 m : 0 < m → Zdigits2 m = Z.log2 m + 1.
Proof.
  destruct m as [|p|p]; try lia. intros _. simpl. rewrite digits2_pos_size.
  destruct p; simpl; lia.
Qed.

Lemma Zdigits2_bounds m : 0 < m → 2 ^ (Zdigits2 m - 1) ≤ m < 2 ^ Zdigits2 m.
Proof.
  intros Hm. rewrite Zdigits2_log2 by done.
  replace (Z.log2 m + 1 - 1) with (Z.log2 m) by lia.
  apply Z.log2_spec. done.
Qed.

Lemma Zdigits2_unique m d : 0 < m → 2 ^ (d - 1) ≤ m < 2 ^ d → Zdigits2 m = d.
Proof.
  intros Hm Hd. rewrite Zdigits2_log2 by done.
  assert (0 ≤ d - 1).
  { destruct (decide (0 ≤ d - 1)); [done|].
    assert (d ≤ 0) by lia. 
    assert (2 ^ d ≤ 1).
    { destruct (decide (d = 0)) as [->|]; [simpl; lia|]. rewrite Z.pow_neg_r; lia. }
    lia. }
  rewrite (Z.log2_unique m (d - 1)); [lia|lia|].
  replace (Z.succ (d - 1)) with d by lia. done.
Qed.

Lemma iter_pos_nat {A} (f : A → A) p x : SpecFloat.iter_pos f p x = Nat.iter (Pos.to_nat p) f x.
Proof.
  revert x. induction p as [p IH|p IH|]; intros x; cbn [SpecFloat.iter_pos].
  - rewrite !IH, Pos2Nat.inj_xI.
    replace (S (2 * Pos.to_nat p))%nat with (Pos.to_nat p + (Pos.to_nat p + 1))%nat by lia.
    by rewrite !Nat.iter_add.
  - rewrite !IH, Pos2Nat.inj_xO.
    replace (2 * Pos.to_nat p)%nat with (Pos.to_nat p + Pos.to_nat p)%nat by lia.
    by rewrite Nat.iter_add.
  - done.
Qed.

Lemma shr_1_m mrs : 0 ≤ shr_m mrs → shr_m (shr_1 mrs) = shr_m mrs / 2.
Proof.
  destruct mrs as [m r s]; cbn [shr_m]. intros Hm.
  destruct m as [|[p|p|]|p]; cbn [shr_1 shr_m]; try lia; try done.
  - apply Z.div_unique with 1; lia.
  - apply Z.div_unique with 0; lia.
Qed.

Lemma shr_1_r mrs : 0 ≤ shr_m mrs → shr_r (shr_1 mrs) = Z.odd (shr_m mrs).
Proof.
  destruct mrs as [m r s]; simpl. intros Hm.
  destruct m as [|[p|p|]|p]; simpl; try done; lia.
Qed.

Lemma iter_shr_1_m n mrs :
  0 ≤ shr_m mrs → shr_m (Nat.iter n shr_1 mrs) = shr_m mrs / 2 ^ Z.of_nat n.
Proof.
  intros Hm. induction n as [|n IH].
  - simpl. by rewrite Z.div_1_r.
  - rewrite Nat.iter_succ, shr_1_m.
    + rewrite IH. rewrite Nat2Z.inj_succ, Z.pow_succ_r by lia.
      rewrite Z.div_div by lia. f_equal. lia.
    + rewrite IH. apply Z.div_pos; lia.
Qed.

Lemma iter_shr_1_r n mrs :
  0 ≤ shr_m mrs →
  shr_r (Nat.iter (S n) shr_1 mrs) = Z.odd (shr_m mrs / 2 ^ Z.of_nat n).
Proof.
  intros Hm. rewrite Nat.iter_succ, shr_1_r.
  - by rewrite iter_shr_1_m.
  - rewrite iter_shr_1_m by done. apply Z.div_pos; lia.
Qed.

Lemma shr_spec mrs e k :
  0 ≤ shr_m mrs → 0 < k →
  ∃ mrs', shr mrs e k = (mrs', e + k)
    ∧ shr_m mrs' = shr_m mrs / 2 ^ k
    ∧ shr_r mrs' = Z.odd (shr_m mrs / 2 ^ (k - 1)).
Proof.
  intros Hm Hk. destruct k as [|p|p]; try lia.
  unfold shr. eexists; split; [done|].
  rewrite iter_pos_nat.
  destruct (Pos.to_nat p) as [|n] eqn:Hn; [lia|].
  rewrite iter_shr_1_r, iter_shr_1_m by done.
  replace (Z.of_nat (S n)) with (Z.pos p) by lia.
  replace (Z.of_nat n) with (Z.pos p - 1) by lia. done.
Qed.

Lemma shr_record_of_loc_m m l : shr_m (shr_record_of_loc m l) = m.
Proof. by destruct l as [|[]]. Qed.

Lemma round_nearest_even_bounds mrs :
  shr_m mrs ≤ round_nearest_even (shr_m mrs) (loc_of_shr_record mrs) ≤ shr_m mrs + 1.
Proof.
  destruct mrs as [m [] []]; simpl; try lia. destruct (Z.even m); lia.
Qed.

Lemma round_nearest_even_down mrs :
  shr_r mrs = false →
  round_nearest_even (shr_m mrs) (loc_of_shr_record mrs) = shr_m mrs.
Proof. destruct mrs as [m [] []]; simpl; done. Qed.

Lemma fexp_eq e : SpecFloat.fexp prec emax e = fexp e.
Proof. done. Qed.

(** One rounding: the mantissa is the quotient by [2 ^ k1] or its successor,
    and the quotient itself when the first dropped bit is 0. *)
Lemma binary_round_aux_spec s mx ex lx :
  0 < mx →
  let k1 := fexp (Zdigits2 mx + ex) - ex in
  ∃ m1,
    binary_round_aux prec emax s mx ex lx = renorm s m1 (if decide (0 < k1) then ex + k1 else ex)
    ∧ (if decide (0 < k1) then
         mx / 2 ^ k1 ≤ m1 ≤ mx / 2 ^ k1 + 1
         ∧ (lx = loc_Exact → Z.odd (mx / 2 ^ (k1 - 1)) = false → m1 = mx / 2 ^ k1)
       else m1 = round_nearest_even mx lx).
Proof.
  intros Hm k1. unfold binary_round_aux, shr_fexp. rewrite !fexp_eq. fold k1.
  destruct (decide (0 < k1)) as [Hk|Hk].
  - destruct (shr_spec (shr_record_of_loc mx lx) ex k1) as (mrs' & -> & Hm' & Hr');
      [rewrite shr_record_of_loc_m; lia|done|].
    rewrite shr_record_of_loc_m in Hm', Hr'. cbv beta iota.
    set (m1 := round_nearest_even (shr_m mrs') (loc_of_shr_record mrs')).
    assert (0 ≤ shr_m mrs') by (rewrite Hm'; apply Z.div_pos; lia).
    exists m1. split.
    + unfold renorm. set (k2 := fexp (Zdigits2 m1 + (ex + k1)) - (ex + k1)).
      change (SpecFloat.fexp prec emax (Zdigits2 m1 + (ex + k1)) - (ex + k1)) with k2.
      pose proof (round_nearest_even_bounds mrs') as Hb. fold m1 in Hb.
      destruct (decide (0 < k2)) as [Hk2|Hk2].
      * destruct (shr_spec (shr_record_of_loc m1 loc_Exact) (ex + k1) k2) as (mrs'' & -> & Hm'' & _);
          [simpl; lia|done|]. simpl in Hm''. rewrite Hm''. done.
      * unfold shr. destruct k2; try lia; done.
    + rewrite <- Hm'. split; [apply round_nearest_even_bounds|].
      intros -> Hodd. apply round_nearest_even_down. by rewrite Hr'.
  - replace (shr (shr_record_of_loc mx lx) ex k1) with (shr_record_of_loc mx lx, ex)
      by (unfold shr; destruct k1; try lia; done).
    cbv beta iota. rewrite shr_record_of_loc_m.
    assert (loc_of_shr_record (shr_record_of_loc mx lx) = lx) as -> by (by destruct lx as [|[]]).
    set (m1 := round_nearest_even mx lx).
    exists m1. split; [|done].
    unfold renorm. set (k2 := fexp (Zdigits2 m1 + ex) - ex).
    change (SpecFloat.fexp prec emax (Zdigits2 m1 + ex) - ex) with k2.
    assert (0 ≤ m1) by (unfold m1; destruct lx as [|[]]; simpl; try lia; destruct (Z.even mx); lia).
    destruct (decide (0 < k2)) as [Hk2|Hk2].
    + destruct (shr_spec (shr_record_of_loc m1 loc_Exact) ex k2) as (mrs'' & -> & Hm'' & _);
        [simpl; lia|done|]. simpl in Hm''. rewrite Hm''. done.
    + unfold shr. destruct k2; try lia; done.
Qed.


Lemma iter_xO_pos m d : Z.pos (Pos.iter xO m d) = Z.pos m * 2 ^ Z.pos d.
Proof.
  induction d as [|d IH] using Pos.peano_ind.
  - simpl. lia.
  - rewrite Pos.iter_succ, Pos2Z.inj_xO, IH, Pos2Z.inj_succ, Z.pow_succ_r by lia. lia.
Qed.

Lemma shl_align_spec m e e' :
  e' ≤ e →
  ∃ m', shl_align m e e' = (m', e') ∧ Z.pos m' = Z.pos m * 2 ^ (e - e').
Proof.
  intros He. unfold shl_align.
  destruct (e' - e) as [|d|d] eqn:Hd; try lia.
  - assert (e' = e) as -> by lia. exists m. rewrite Z.sub_diag. split; [done|simpl; lia].
  - eexists. split; [done|]. rewrite iter_xO_pos. do 2 f_equal. lia.
Qed.

Lemma renorm_canonical s m e :
  0 < m → fexp (Zdigits2 m + e) = e → e ≤ 971 →
  renorm s m e = S754_finite s (Z.to_pos m) e.
Proof.
  intros Hm Hc He. unfold renorm. rewrite Hc, Z.sub_diag.
  destruct (decide (0 < 0)) as [|_]; [lia|].
  destruct m as [|p|p]; try lia.
  apply Z.leb_le in He. by rewrite He.
Qed.

Lemma round_canonical s m e :
  0 < m → fexp (Zdigits2 m + e) = e → e ≤ 971 →
  binary_round_aux prec emax s m e loc_Exact = S754_finite s (Z.to_pos m) e.
Proof.
  intros Hm Hc He.
  destruct (binary_round_aux_spec s m e loc_Exact Hm) as (m1 & -> & H1).
  revert H1. rewrite Hc, Z.sub_diag.
  destruct (decide (0 < 0)) as [|_]; [lia|]. simpl. intros ->.
  by apply renorm_canonical.
Qed.

(** Integers below 2^53 convert exactly, to a 53-bit mantissa. *)
Lemma of_Z_pos n :
  1 ≤ n < 2 ^ 53 →
  let d := Zdigits2 n in
  ∃ mn, of_Z n = S754_finite false mn (d - 53)
    ∧ Z.pos mn = n * 2 ^ (53 - d) ∧ 2 ^ 52 ≤ Z.pos mn < 2 ^ 53 ∧ 1 ≤ d ≤ 53.
Proof.
  intros Hn d. pose proof (Zdigits2_bounds n ltac:(lia)) as Hd. fold d in Hd.
  assert (1 ≤ d ≤ 53) as Hd53.
  { split.
    - destruct (decide (1 ≤ d)); [done|]. rewrite (Z.pow_neg_r 2 (d - 1)) in Hd by lia.
      assert (d = 0) as Hd0.
      { destruct (decide (d = 0)); [done|]. rewrite (Z.pow_neg_r 2 d) in Hd; lia. }
      rewrite Hd0 in Hd. simpl in Hd. lia.
    - destruct (decide (d ≤ 53)); [done|].
      assert (2 ^ 53 ≤ 2 ^ (d - 1)) by (apply Z.pow_le_mono_r; lia). lia. }
  destruct n as [|p|p]; try lia.
  unfold of_Z, binary_normalize, binary_round.
  change (Z.pos (digits2_pos p)) with d. rewrite fexp_eq, Z.add_0_r.
  assert (fexp d = d - 53) as Hf by (unfold fexp; lia). rewrite Hf.
  destruct (shl_align_spec p 0 (d - 53)) as (m' & -> & Hm'); [lia|].
  replace (0 - (d - 53)) with (53 - d) in Hm' by lia.
  assert (2 ^ 52 ≤ Z.pos m' < 2 ^ 53) as Hb.
  { rewrite Hm'.
    assert (2 ^ 52 = 2 ^ (d - 1) * 2 ^ (53 - d)) as ->
      by (rewrite <- Z.pow_add_r by lia; f_equal; lia).
    assert (2 ^ 53 = 2 ^ d * 2 ^ (53 - d)) as ->
      by (rewrite <- Z.pow_add_r by lia; f_equal; lia).
    assert (0 < 2 ^ (53 - d)) by (apply Z.pow_pos_nonneg; lia). nia. }
  exists m'. split; [|done].
  rewrite round_canonical; [done|lia| |lia].
  rewrite (Zdigits2_unique (Z.pos m') 53) by (simpl; lia). unfold fexp. lia.
Qed.


Lemma Zdigits2_le m d : 0 ≤ m < 2 ^ d → 0 ≤ d → Zdigits2 m ≤ d.
Proof.
  intros [Hm Hd] H0. destruct (decide (m = 0)) as [->|]; [done|].
  pose proof (Zdigits2_bounds m ltac:(lia)) as [Hlo _].
  destruct (decide (Zdigits2 m ≤ d)); [done|].
  assert (2 ^ d ≤ 2 ^ (Zdigits2 m - 1)) by (apply Z.pow_le_mono_r; lia). lia.
Qed.

Lemma Zdigits2_ge m d : 2 ^ (d - 1) ≤ m → 0 < m → d ≤ Zdigits2 m.
Proof.
  intros Hd Hm. pose proof (Zdigits2_bounds m Hm) as [_ Hhi].
  destruct (decide (d ≤ Zdigits2 m)); [done|].
  assert (0 ≤ Zdigits2 m) by (destruct m; simpl; lia).
  assert (2 ^ Zdigits2 m ≤ 2 ^ (d - 1)) by (apply Z.pow_le_mono_r; lia). lia.
Qed.

Lemma unit_interval_cases r :
  in_unit_interval r →
  (∃ s, r = S754_zero s)
  ∨ (∃ m e, r = S754_finite false m e ∧ e ≤ -53 ∧ fexp (Zdigits2 (Z.pos m) + e) = e).
Proof.
  intros (Hv & Hle & Hlt). destruct r as [s|s| |s m e].
  - left. by exists s.
  - destruct s; simpl in *; done.
  - done.
  - right. exists m, e. destruct s; [done|]. split; [done|].
    unfold valid_binary, bounded, canonical_mantissa in Hv.
    apply andb_prop in Hv as [Hc _]. apply Z.eqb_eq in Hc. rewrite fexp_eq in Hc.
    split; [|done].
    change one with (S754_finite false 4503599627370496 (-52)) in Hlt.
    unfold SFltb, SFcompare in Hlt.
    destruct (e ?= -52) eqn:He; try done.
    + apply Z.compare_eq in He. subst e.
      destruct (Pos.compare_cont Eq m 4503599627370496) eqn:Hm; try done.
      apply (proj1 (Pos.compare_lt_iff m _)) in Hm.
      pose proof (Zdigits2_bounds (Z.pos m) (Pos2Z.is_pos m)) as Hd.
      change (Z.pos (digits2_pos m)) with (Zdigits2 (Z.pos m)) in Hc.
      revert Hc Hd. generalize (Zdigits2 (Z.pos m)). intros d Hc Hd.
      assert (d = 53) as -> by (clear -Hc; unfold fexp in Hc; lia).
      change (2 ^ (53 - 1)) with 4503599627370496 in Hd.
      apply Pos2Z.pos_lt_pos in Hm. destruct Hd as [Hd _].
      destruct (Z.lt_irrefl _ (Z.le_lt_trans _ _ _ Hd Hm)).
    + apply (proj1 (Z.compare_lt_iff _ _)) in He. clear -He. lia.
Qed.

Lemma floor_renorm m1 e1 :
  0 ≤ m1 → e1 ≤ 0 → Zdigits2 m1 + e1 ≤ 1024 →
  ∃ j, floor (renorm false m1 e1) = Some j ∧ 0 ≤ j ≤ m1 / 2 ^ (- e1).
Proof.
  intros Hm He Hd. unfold renorm.
  set (k2 := fexp (Zdigits2 m1 + e1) - e1).
  assert (0 < 2 ^ (- e1)) by (apply Z.pow_pos_nonneg; lia).
  assert (0 ≤ m1 / 2 ^ (- e1)) by (apply Z.div_pos; lia).
  destruct (decide (0 < k2)) as [Hk|Hk].
  - assert (0 < 2 ^ k2) by (apply Z.pow_pos_nonneg; lia).
    assert (0 ≤ m1 / 2 ^ k2) as Hm2 by (apply Z.div_pos; lia).
    assert (e1 + k2 ≤ 971) as He2 by (unfold k2, fexp; lia).
    destruct (m1 / 2 ^ k2) as [|m2|m2] eqn:Hq; try lia.
    + exists 0. simpl. split; [done|lia].
    + apply Z.leb_le in He2. rewrite He2. eexists. split; [done|]. cbn [cond_Zopp].
      rewrite <- Hq. destruct (decide (e1 + k2 ≤ 0)) as [Hle|Hgt].
      * rewrite Z.shiftl_div_pow2 by lia.
        rewrite Z.div_div by (try apply Z.pow_pos_nonneg; lia).
        rewrite <- Z.pow_add_r by lia.
        replace (k2 + - (e1 + k2)) with (- e1) by lia. lia.
      * rewrite Z.shiftl_mul_pow2 by lia.
        assert (0 < 2 ^ (e1 + k2)) by (apply Z.pow_pos_nonneg; lia).
        assert (m1 / 2 ^ k2 = m1 / 2 ^ (- e1) / 2 ^ (e1 + k2)) as ->.
        { rewrite Z.div_div by lia. rewrite <- Z.pow_add_r by lia. do 2 f_equal. lia. }
        pose proof (Z.mul_div_le (m1 / 2 ^ (- e1)) (2 ^ (e1 + k2)) ltac:(lia)).
        split; [|lia]. apply Z.mul_nonneg_nonneg; [|lia]. apply Z.div_pos; lia.
  - assert (e1 ≤ 971) as He2 by lia.
    destruct m1 as [|m|m]; try lia.
    + exists 0. simpl. split; [done|lia].
    + apply Z.leb_le in He2. rewrite He2. eexists. split; [done|]. cbn [cond_Zopp].
      rewrite Z.shiftl_div_pow2 by lia. lia.
Qed.


Lemma pow2_pos k : 0 ≤ k → 0 < 2 ^ k.
Proof. intros. apply Z.pow_pos_nonneg; lia. Qed.

Lemma pow2_split a b : 0 ≤ a → 0 ≤ b → 2 ^ (a + b) = 2 ^ a * 2 ^ b.
Proof. intros. by apply Z.pow_add_r. Qed.

(** The rounded product of a double below 1 and an integer [n] stays below [n]. *)
Lemma mul_round_lt R M n dn er :
  0 < R → fexp (Zdigits2 R + er) = er → er ≤ -53 →
  1 ≤ dn ≤ 53 → M = n * 2 ^ (53 - dn) → 2 ^ 52 ≤ M < 2 ^ 53 → 1 ≤ n →
  ∃ j, floor (binary_round_aux prec emax false (R * M) (er + (dn - 53)) loc_Exact) = Some j
       ∧ 0 ≤ j < n.
Proof.
  intros HR Hcan Her Hdn HM HMb Hn.
  set (c := 2 ^ (53 - dn)) in *.
  assert (0 < c) as Hc by (apply pow2_pos; lia).
  set (dr := Zdigits2 R) in *.
  pose proof (Zdigits2_bounds R HR) as HdR. fold dr in HdR.
  assert (1 ≤ dr) as Hdr1 by (apply Zdigits2_ge; simpl; lia).
  assert (dr ≤ 53) as Hdr53 by (unfold fexp in Hcan; lia).
  assert (2 ^ dr ≤ 2 ^ 53) as HR53 by (apply Z.pow_le_mono_r; lia).
  set (P := R * M). set (E := er + (dn - 53)).
  assert (0 < P) as HP by (unfold P; nia).
  set (dP := Zdigits2 P).
  pose proof (Zdigits2_bounds P HP) as HdP. fold dP in HdP.
  assert (dP ≤ dr + 53) as HdPle.
  { apply Zdigits2_le; [|lia]. rewrite pow2_split by lia. unfold P. split; [lia|]. nia. }
  assert (1 ≤ dP) as HdP1 by (apply Zdigits2_ge; simpl; lia).
  assert (2 ^ (- E) = 2 ^ (- er) * c) as HpowE.
  { unfold E, c. rewrite <- pow2_split by lia. f_equal. lia. }
  assert (2 ^ 53 ≤ 2 ^ (- er)) as Hper by (apply Z.pow_le_mono_r; lia).
  destruct (binary_round_aux_spec false P E loc_Exact HP) as (m1 & -> & H1).
  fold dP in H1 |- *. set (k1 := fexp (dP + E) - E) in *.
  set (e1 := if decide (0 < k1) then E + k1 else E).
  cut (0 ≤ m1 ∧ e1 ≤ 0 ∧ m1 ≤ P + 1 ∧ m1 < n * 2 ^ (- e1)).
  { intros (Hm1 & He1 & Hm1P & Hlt).
    destruct (floor_renorm m1 e1) as (j & -> & Hj); [done|done| |].
    - assert (Zdigits2 m1 ≤ dP + 1); [|lia].
      apply Zdigits2_le; [|lia]. rewrite pow2_split by lia. change (2 ^ 1) with 2. lia.
    - exists j. split; [done|]. split; [lia|].
      assert (m1 / 2 ^ (- e1) < n); [|lia].
      apply Z.div_lt_upper_bound; [apply pow2_pos; lia|lia]. }
  unfold e1. clear e1. destruct (decide (0 < k1)) as [Hk|Hk].
  - destruct H1 as ((Hq1 & Hq2) & Hdown). specialize (Hdown eq_refl).
    assert (0 < 2 ^ k1) as HK by (apply pow2_pos; lia).
    assert (0 ≤ P / 2 ^ k1) as Hq0 by (apply Z.div_pos; lia).
    pose proof (Z.mul_div_le P (2 ^ k1) HK) as HqK.
    assert (P / 2 ^ k1 ≤ P) as HqP by nia.
    destruct (decide (er = -53)) as [->|Hne].
    + (* the double is at least one half *)
      assert (dr = 53) as Hdr by (unfold fexp in Hcan; lia).
      rewrite Hdr in HdR. change (2 ^ (53 - 1)) with (2 ^ 52) in HdR.
      assert (2 ^ 104 ≤ P < 2 ^ 106) as HPb.
      { change (2 ^ 104) with (2 ^ 52 * 2 ^ 52). change (2 ^ 106) with (2 ^ 53 * 2 ^ 53).
        unfold P. nia. }
      assert (105 ≤ dP) by (apply Zdigits2_ge; [simpl; lia|lia]).
      assert (dP ≤ 106) by (apply Zdigits2_le; lia).
      assert (k1 = dP - 53) as Hk1 by (unfold k1, fexp, E; lia).
      destruct (decide (dP = 106)) as [HdP6|HdP5].
      * rewrite HdP6 in *. change (2 ^ (106 - 1)) with (2 ^ 105) in HdP.
        assert (k1 = 53) as Hk53 by lia. rewrite Hk53 in *.
        replace (- (E + 53)) with (53 - dn) by (unfold E; lia). fold c. rewrite <- HM.
        assert (P < 2 ^ 53 * M) as HPM by (unfold P; nia).
        assert (P / 2 ^ 53 < M) as HqM by (apply Z.div_lt_upper_bound; lia).
        assert (2 ^ 52 < M) as HM52.
        { destruct (decide (2 ^ 52 < M)); [done|]. assert (M = 2 ^ 52) as HMeq by lia.
          change (2 ^ 105) with (2 ^ 53 * 2 ^ 52) in HdP. unfold P in HdP. nia. }
        assert (m1 ≤ M - 1); [|lia].
        destruct (decide (P / 2 ^ 53 = M - 1)) as [Hqeq|Hqne]; [|lia].
        rewrite Hdown; [lia|].
        change (53 - 1) with 52.
        assert (P / 2 ^ 52 = 2 * (M - 1)) as ->.
        { symmetry. apply Z.div_unique with (P - (M - 1) * 2 ^ 53).
          - left. split; [lia|].
            assert (P ≤ (2 ^ 53 - 1) * M) by (unfold P; nia).
            change (2 ^ 53) with (2 * 2 ^ 52) in *. lia.
          - change (2 ^ 53) with (2 * 2 ^ 52). lia. }
        by rewrite Z.odd_mul.
      * assert (dP = 105) as HdP105 by lia. rewrite HdP105 in *.
        assert (k1 = 52) as Hk52 by lia. rewrite Hk52 in *.
        replace (- (E + 52)) with (1 + (53 - dn)) by (unfold E; lia).
        rewrite pow2_split by lia. fold c. change (2 ^ 1) with 2.
        assert (P / 2 ^ 52 < 2 ^ 53) as Hq53.
        { apply Z.div_lt_upper_bound; [lia|]. change (2 ^ 52 * 2 ^ 53) with (2 ^ 105). lia. }
        assert (m1 < 2 * M); [|lia].
        destruct (decide (2 ^ 52 < M)) as [HM52|HM52]; [lia|].
        assert (M = 2 ^ 52) as HMeq by lia.
        rewrite Hdown; [rewrite HMeq in *; change (2 * 2 ^ 52) with (2 ^ 53); lia|].
        change (52 - 1) with 51.
        assert (P / 2 ^ 51 = 2 * R) as ->.
        { symmetry. apply Z.div_unique with 0; [lia|].
          unfold P. rewrite HMeq. change (2 ^ 52) with (2 ^ 51 * 2). lia. }
        by rewrite Z.odd_mul.
    + (* the double is below one half *)
      assert (E + k1 ≤ -1) as He1 by (unfold k1, fexp, E; lia).
      assert (2 ^ 54 ≤ 2 ^ (- er)) as Hper' by (apply Z.pow_le_mono_r; lia).
      assert (2 ^ (- (E + k1)) * 2 ^ k1 = 2 ^ (- er) * c) as HAK.
      { rewrite <- pow2_split by lia. rewrite <- HpowE. f_equal. lia. }
      assert (2 ≤ 2 ^ (- (E + k1))) as HA2.
      { change 2 with (2 ^ 1) at 1. apply Z.pow_le_mono_r; lia. }
      set (A := 2 ^ (- (E + k1))) in *. set (K := 2 ^ k1) in *.
      set (q := P / K) in *.
      assert (2 * P < n * A * K) as H2P.
      { replace (n * A * K) with (n * (A * K)) by lia. rewrite HAK.
        unfold P. rewrite HM. change (2 ^ 54) with (2 * 2 ^ 53) in Hper'. nia. }
      assert (2 * q < n * A) by nia.
      split; [lia|]. split; [lia|]. split; [lia|]. nia.
  - subst m1. simpl. split; [lia|]. split; [unfold E; lia|]. split; [lia|].
    rewrite HpowE. unfold P. rewrite HM. nia.
Qed.

(** [Math.floor(r * n)] is an index below [n] for a double [r] in [0, 1). *)
Lemma floor_mul_unit r n :
  in_unit_interval r → 1 ≤ n < 2 ^ 53 →
  ∃ j, floor (mul r (of_Z n)) = Some j ∧ 0 ≤ j < n.
Proof.
  intros Hr Hn.
  destruct (of_Z_pos n Hn) as (mn & -> & HM & HMb & Hdn).
  destruct (unit_interval_cases r Hr) as [[s ->]|(mr & er & -> & Her & Hcan)].
  - exists 0. split; [done|lia].
  - unfold mul, SFmul. cbn [xorb].
    change (Z.pos (mr * mn)) with (Z.pos mr * Z.pos mn).
    apply mul_round_lt; try done. lia.
Qed.


Lemma renorm_53 m1 e1 :
  2 ^ 52 ≤ m1 ≤ 2 ^ 53 → -1000 ≤ e1 ≤ 900 →
  ∃ m e, renorm false m1 e1 = S754_finite false m e
    ∧ valid_binary prec emax (S754_finite false m e) = true
    ∧ e1 ≤ e ≤ e1 + 1 ∧ (m1 < 2 ^ 53 → e = e1).
Proof.
  intros Hm He. destruct (decide (m1 < 2 ^ 53)) as [Hlt|Hge].
  - assert (Zdigits2 m1 = 53) as Hd by (apply Zdigits2_unique; simpl; lia).
    assert (fexp (Zdigits2 m1 + e1) = e1) as Hc by (rewrite Hd; unfold fexp; lia).
    exists (Z.to_pos m1), e1. rewrite renorm_canonical by lia.
    split; [done|]. split; [|lia].
    unfold valid_binary, bounded, canonical_mantissa.
    change (Z.pos (digits2_pos (Z.to_pos m1))) with (Zdigits2 (Z.pos (Z.to_pos m1))).
    rewrite Z2Pos.id by lia. rewrite fexp_eq, Hc, Z.eqb_refl. simpl.
    apply Z.leb_le. unfold emax, prec. lia.
  - assert (m1 = 2 ^ 53) as -> by lia.
    exists (Z.to_pos (2 ^ 52)), (e1 + 1). split; [|split; [|lia]].
    + unfold renorm. change (Zdigits2 (2 ^ 53)) with 54.
      assert (fexp (54 + e1) - e1 = 1) as -> by (unfold fexp; lia).
      destruct (decide (0 < 1)); [|lia].
      change (2 ^ 53 / 2 ^ 1) with (Z.pos (Z.to_pos (2 ^ 52))). cbv iota.
      assert (e1 + 1 ≤ 971) as Hle by lia. apply Z.leb_le in Hle. by rewrite Hle.
    + unfold valid_binary, bounded, canonical_mantissa.
      change (Z.pos (digits2_pos (Z.to_pos (2 ^ 52)))) with 53.
      rewrite fexp_eq. 
      assert (fexp (53 + (e1 + 1)) = e1 + 1) as -> by (unfold fexp; lia).
      rewrite Z.eqb_refl. simpl. apply Z.leb_le. unfold emax, prec. lia.
Qed.

Lemma div_core_spec ma ea mb eb :
  Zdigits2 ma = 53 → Zdigits2 mb = 53 → -1000 ≤ ea - eb →
  SFdiv_core_binary prec emax ma ea mb eb
  = (ma * 2 ^ 53 / mb, ea - eb - 53, new_location mb ((ma * 2 ^ 53) mod mb)).
Proof.
  intros Ha Hb He. unfold SFdiv_core_binary. rewrite Ha, Hb, fexp_eq.
  assert (Z.min (fexp (53 + ea - (53 + eb))) (ea - eb) = ea - eb - 53) as ->
    by (unfold fexp; lia).
  replace (ea - eb - (ea - eb - 53)) with 53 by lia. cbv iota.
  rewrite Z.shiftl_mul_pow2 by lia.
  unfold Z.div, Z.modulo. by destruct (Z.div_eucl (ma * 2 ^ 53) mb).
Qed.

Lemma round_nearest_even_range m l : m ≤ round_nearest_even m l ≤ m + 1.
Proof. destruct l as [|[]]; simpl; try lia. destruct (Z.even m); lia. Qed.

Lemma finite_unit m e :
  valid_binary prec emax (S754_finite false m e) = true → e ≤ -53 →
  in_unit_interval (S754_finite false m e).
Proof.
  intros Hv He. split; [done|]. split; [done|].
  change one with (S754_finite false 4503599627370496 (-52)).
  unfold SFltb, SFcompare.
  assert (e < -52) as Hlt by lia. apply (proj2 (Z.compare_lt_iff _ _)) in Hlt.
  by rewrite Hlt.
Qed.

(** The quotient the generator returns is a double in [0, 1). *)
Lemma div_unit a :
  0 ≤ a < 2147483646 → in_unit_interval (div (of_Z a) (of_Z 2147483646)).
Proof.
  intros Ha. destruct (decide (a = 0)) as [->|Hne]; [by vm_compute|].
  destruct (of_Z_pos a) as (ma & -> & HA & HAb & Hda).
  { change (2 ^ 53) with 9007199254740992. lia. }
  set (da := Zdigits2 a) in *.
  pose proof (Zdigits2_bounds a ltac:(lia)) as Hdab. fold da in Hdab.
  assert (da ≤ 31) as Hda31.
  { apply Zdigits2_le; [|lia]. change (2 ^ 31) with 2147483648. lia. }
  change (of_Z 2147483646) with (S754_finite false 9007199246352384 (-22)).
  unfold div, SFdiv. cbn [xorb].
  rewrite div_core_spec; [|apply Zdigits2_unique; lia|done|lia].
  set (mb := 9007199246352384).
  replace (da - 53 - -22 - 53) with (da - 84) by lia.
  set (q := Z.pos ma * 2 ^ 53 / mb).
  assert (2 ^ 52 ≤ q) as Hq52.
  { apply Z.div_le_lower_bound; [done|]. unfold mb. 
    change (2 ^ 53) with 9007199254740992. change (2 ^ 52) with 4503599627370496 in *. lia. }
  assert (q < 2 ^ 54) as Hq54.
  { apply Z.div_lt_upper_bound; [done|]. unfold mb.
    change (2 ^ 53) with 9007199254740992 in *. change (2 ^ 54) with 18014398509481984. lia. }
  assert (q * mb ≤ Z.pos ma * 2 ^ 53) as Hqmb.
  { rewrite Z.mul_comm. apply Z.mul_div_le. done. }
  destruct (binary_round_aux_spec false q (da - 84)
              (new_location mb ((Z.pos ma * 2 ^ 53) mod mb)) ltac:(lia)) as (m1 & -> & H1).
  set (dq := Zdigits2 q) in *.
  assert (53 ≤ dq ≤ 54) as Hdq.
  { split; [apply Zdigits2_ge; [simpl|]; lia|apply Zdigits2_le; lia]. }
  assert (fexp (dq + (da - 84)) - (da - 84) = dq - 53) as Hk1 by (unfold fexp; lia).
  rewrite Hk1 in *.
  set (e1 := if decide (0 < dq - 53) then da - 84 + (dq - 53) else da - 84) in *.
  assert (2 ^ 52 ≤ m1 ≤ 2 ^ 53 ∧ da - 84 ≤ e1 ≤ da - 83
          ∧ (da = 31 → e1 = -53 ∧ m1 < 2 ^ 53) ∧ (da = 30 → e1 = -53 → m1 < 2 ^ 53))
    as (Hm1 & He1 & H31 & H30).
  { unfold e1. clear e1. destruct (decide (0 < dq - 53)) as [Hk|Hk].
    - assert (dq = 54) as Hdq54 by lia. rewrite Hdq54 in *.
      change (2 ^ (54 - 53)) with 2 in H1. destruct H1 as [[Hlo Hhi] _].
      pose proof (Zdigits2_bounds q ltac:(lia)) as Hqb. fold dq in Hqb. rewrite Hdq54 in Hqb.
      change (2 ^ (54 - 1)) with (2 ^ 53) in Hqb.
      change (2 ^ 52) with 4503599627370496 in *.
      change (2 ^ 53) with 9007199254740992 in *. 
      change (2 ^ 54) with 18014398509481984 in *. 
      assert (a * 2 ^ (53 - da) ≤ 9007199254740992 - 2 ^ (53 - da)) as Hmax.
      { assert (a + 1 ≤ 2 ^ da) by lia.
        assert (9007199254740992 = 2 ^ da * 2 ^ (53 - da)) as Heq.
        { rewrite <- pow2_split by lia. by replace (da + (53 - da)) with 53 by lia. }
        assert (0 < 2 ^ (53 - da)) by (apply pow2_pos; lia). nia. }
      clear Hk1. clearbody q dq.
      assert (2 * (q / 2) ≤ q < 2 * (q / 2) + 2) as Hq2
        by (clear; Z.div_mod_to_equations; lia).
      split; [lia|]. split; [lia|]. split.
      + intros ->. exfalso. change (2 ^ (53 - 31)) with 4194304 in *. unfold mb in *. lia.
      + intros -> _. change (2 ^ (53 - 30)) with 8388608 in *. unfold mb in *. lia.
    - assert (dq = 53) as Hdq53 by lia. rewrite Hdq53 in *.
      pose proof (Zdigits2_bounds q ltac:(lia)) as Hqb. fold dq in Hqb. rewrite Hdq53 in Hqb.
      change (2 ^ (53 - 1)) with (2 ^ 52) in Hqb.
      pose proof (round_nearest_even_range q (new_location mb ((Z.pos ma * 2 ^ 53) mod mb))) as Hr.
      rewrite <- H1 in Hr.
      change (2 ^ 52) with 4503599627370496 in *.
      change (2 ^ 53) with 9007199254740992 in *. 
      split; [lia|]. split; [lia|]. split.
      + intros ->. split; [lia|]. change (2 ^ (53 - 31)) with 4194304 in *. unfold mb in *. lia.
      + intros ->. lia. }
  destruct (renorm_53 m1 e1 Hm1 ltac:(lia)) as (m & e & -> & Hv & He & Hlt).
  apply finite_unit; [done|].
  destruct (decide (da = 31)) as [H|H]; [destruct (H31 H) as [? ?]; specialize (Hlt ltac:(done)); lia|].
  destruct (decide (da = 30)) as [H'|H']; [|lia].
  destruct (decide (e1 = -53)) as [He53|]; [|lia].
  specialize (Hlt (H30 H' He53)). lia.
Qed.

End Float64Facts.

(** ** Swaps and shuffles *)

Lemma insert_head_perm {T} (l : list T) j x y :
  l !! j = Some y → y :: <[j:=x]> l ≡ₚ x :: l.
Proof.
  revert j. induction l as [|z l IH]; intros [|j] Hj; simplify_eq/=.
  - apply perm_swap.
  - rewrite perm_swap, (IH j Hj). apply perm_swap.
Qed.

Lemma swap_perm {T} (next : list T) i j x y :
  next !! i = Some x → next !! j = Some y → <[j:=x]> (<[i:=y]> next) ≡ₚ next.
Proof.
  revert i j. induction next as [|z l IH]; intros [|i] [|j] Hi Hj; simplify_eq/=.
  - done.
  - by apply insert_head_perm.
  - by apply insert_head_perm.
  - by rewrite (IH i j).
Qed.

Lemma swap_Ok {T} (next : list T) (i j : nat) :
  (i < length next)%nat → (j < length next)%nat →
  ∃ next', swap next i j = Ok next' ∧ next' ≡ₚ next.
Proof.
  intros Hi Hj. unfold swap.
  destruct (lookup_lt_is_Some_2 next i Hi) as [x Hx].
  destruct (lookup_lt_is_Some_2 next j Hj) as [y Hy].
  rewrite Hx, Hy. eexists. split; [done|]. by apply swap_perm.
Qed.

Lemma floor_scaled_unit r (n : nat) :
  Float64.in_unit_interval r → (1 ≤ n)%nat → Z.of_nat n ≤ MAX_ARRAY_LENGTH →
  ∃ j, floor_scaled r n = Some j ∧ (j < n)%nat.
Proof.
  intros Hr Hn Hmax. unfold floor_scaled.
  destruct (Float64Facts.floor_mul_unit r (Z.of_nat n) Hr) as (j & -> & Hj).
  { unfold MAX_ARRAY_LENGTH in Hmax. change (2 ^ 53) with 9007199254740992. lia. }
  destruct (decide (0 ≤ j)); [|lia]. exists (Z.to_nat j). split; [done|lia].
Qed.

Section RandFacts.
Context {G : Type} (rand : G → spec_float * G).

Lemma advance_S n g : advance rand (S n) g = advance rand n (rand g).2.
Proof. unfold advance. by rewrite Nat.iter_succ_r. Qed.

Lemma advance_add n k g : advance rand (n + k) g = advance rand k (advance rand n g).
Proof. unfold advance. by rewrite Nat.add_comm, Nat.iter_add. Qed.

Lemma stream_unit_head g : stream_unit rand g → Float64.in_unit_interval (rand g).1.
Proof. intros H. apply (H 0%nat). Qed.

Lemma stream_unit_advance n g : stream_unit rand g → stream_unit rand (advance rand n g).
Proof. intros H k. rewrite <- advance_add. apply H. Qed.

Lemma stream_unit_tail g : stream_unit rand g → stream_unit rand (rand g).2.
Proof. apply (stream_unit_advance 1). Qed.

Lemma shuffle_loop_spec {T} i (next : list T) g :
  stream_unit rand g → (i < length next)%nat →
  Z.of_nat (length next) ≤ MAX_ARRAY_LENGTH →
  ∃ next', shuffle_loop rand i next g = Ok (next', advance rand i g) ∧ next' ≡ₚ next.
Proof.
  revert next g. induction i as [|i IH]; intros next g Hg Hi Hmax.
  - by exists next.
  - cbn [shuffle_loop]. rewrite advance_S.
    pose proof (stream_unit_head g Hg) as Hr. pose proof (stream_unit_tail g Hg) as Hg'.
    destruct (rand g) as [r g']. cbn [fst snd] in Hr, Hg' |- *.
    destruct (floor_scaled_unit r (S i + 1)) as (j & -> & Hj); [done|lia|lia|].
    destruct (swap_Ok next (S i) j) as (next1 & -> & Hp1); [lia|lia|]. cbn [mbind result_bind].
    destruct (IH next1 g') as (next' & -> & Hp); [done| | |].
    + rewrite Hp1. lia.
    + by rewrite Hp1.
    + exists next'. split; [done|]. by rewrite Hp.
Qed.

(** [shuffle] succeeds with a permutation after [length - 1] draws. *)
Lemma shuffle_spec {T} (array : list T) g :
  stream_unit rand g → Z.of_nat (length array) ≤ MAX_ARRAY_LENGTH →
  ∃ next, shuffle rand array g = Ok (next, advance rand (length array - 1) g)
          ∧ next ≡ₚ array.
Proof.
  intros Hg Hmax. unfold shuffle. destruct array as [|x array].
  - by exists [].
  - apply shuffle_loop_spec; [done|simpl; lia|done].
Qed.

Lemma shuffle_loop_ref_refines {T} i next (h : gmap positive (list T)) elems g :
  h !! next = Some elems →
  shuffle_loop_ref rand i next h g
  = '(elems', g') ← shuffle_loop rand i elems g; Ok (<[next:=elems']> h, g').
Proof.
  revert h elems g. induction i as [|i IH]; intros h elems g Hnext.
  - simpl. by rewrite insert_id.
  - cbn [shuffle_loop_ref shuffle_loop]. destruct (rand g) as [r g']. rewrite Hnext.
    destruct (floor_scaled r (S i + 1)) as [j|]; [|done].
    destruct (swap elems (S i) j) as [elems1|e]; [|done].
    simpl. rewrite (IH _ elems1) by apply lookup_insert_eq.
    destruct (shuffle_loop rand i elems1 g') as [[elems' g'']|e]; [|done].
    simpl. by rewrite insert_insert_eq.
Qed.

(** On the store, [shuffle] allocates one array and fills it with what the
    value-level function computes from the elements of its argument. *)
Lemma shuffle_ref_refines {T} array (h : gmap positive (list T)) elems g :
  h !! array = Some elems →
  shuffle_ref rand array h g
  = '(next, g') ← shuffle rand elems g;
    Ok (fresh (dom h), <[fresh (dom h):=next]> h, g').
Proof.
  intros Harr. unfold shuffle_ref, shuffle. rewrite Harr.
  rewrite (shuffle_loop_ref_refines _ _ _ elems) by apply lookup_insert_eq.
  destruct (shuffle_loop rand (length elems - 1) elems g) as [[elems' g']|e]; [|done].
  simpl. by rewrite insert_insert_eq.
Qed.

End RandFacts.

(** ** Counting occurrences *)

Section Occ.
Context `{EqDecision A}.
Implicit Types (x : A) (l : list A).

Lemma occ_nil x : occ x [] = 0%nat.
Proof. done. Qed.

Lemma occ_cons x y l : occ x (y :: l) = ((if decide (x = y) then 1 else 0) + occ x l)%nat.
Proof. unfold occ. rewrite filter_cons. by destruct (decide (x = y)). Qed.

Lemma occ_app x l1 l2 : occ x (l1 ++ l2) = (occ x l1 + occ x l2)%nat.
Proof. unfold occ. by rewrite filter_app, length_app. Qed.

Lemma occ_perm x l1 l2 : l1 ≡ₚ l2 → occ x l1 = occ x l2.
Proof. intros H. unfold occ. by rewrite H. Qed.

Lemma occ_not_elem x l : x ∉ l → occ x l = 0%nat.
Proof.
  induction l as [|y l IH]; [done|]. rewrite not_elem_of_cons, occ_cons.
  intros [? ?]. rewrite decide_False by done. by rewrite IH.
Qed.

Lemma occ_NoDup x l : NoDup l → x ∈ l → occ x l = 1%nat.
Proof.
  induction 1 as [|y l Hy Hl IH]; [by intros ?%elem_of_nil|].
  rewrite occ_cons, elem_of_cons. intros [->|Hx].
  - rewrite decide_True by done. by rewrite occ_not_elem.
  - rewrite decide_False by (by intros ->). by rewrite IH.
Qed.

Lemma occ_replicate x y n : occ x (replicate n y) = if decide (x = y) then n else 0%nat.
Proof.
  induction n as [|n IH]; simpl.
  - by destruct (decide (x = y)).
  - rewrite occ_cons, IH. by destruct (decide (x = y)).
Qed.

End Occ.

Lemma occ_fmap_inj `{EqDecision A} `{EqDecision B} (f : A → B) (x : A) (l : list A) :
  (∀ y, y ∈ l → f y = f x → y = x) → occ (f x) (f <$> l) = occ x l.
Proof.
  induction l as [|y l IH]; intros Hinj; [done|].
  rewrite fmap_cons, !occ_cons, IH by (intros; apply Hinj; [by right|done]).
  f_equal. destruct (decide (x = y)) as [->|Hne].
  - by rewrite decide_True.
  - rewrite decide_False; [done|]. intros Heq. apply Hne. symmetry.
    apply Hinj; [by left|done].
Qed.

Lemma occ_blocks k base start len :
  occ k (flat_map (λ i, replicate base i) (seq start len))
  = if decide (start ≤ k < start + len)%nat then base else 0%nat.
Proof.
  revert start. induction len as [|len IH]; intros start; simpl.
  - rewrite occ_nil. by rewrite decide_False by lia.
  - rewrite occ_app, occ_replicate, IH.
    repeat case_decide; lia.
Qed.

Lemma length_blocks base start len :
  length (flat_map (λ i, replicate base i) (seq start len)) = (len * base)%nat.
Proof.
  revert start. induction len as [|len IH]; intros start; simpl; [done|].
  by rewrite length_app, length_replicate, IH.
Qed.

Lemma elem_of_blocks k base start len :
  k ∈ flat_map (λ i, replicate base i) (seq start len) → (start ≤ k < start + len)%nat.
Proof.
  rewrite list_elem_of_In, in_flat_map. intros (i & Hi & Hk).
  apply list_elem_of_In, elem_of_replicate in Hk as [-> _].
  apply list_elem_of_In, elem_of_seq in Hi. lia.
Qed.

(** ** Balanced indices *)

Section BalanceFacts.
Context {G : Type} (rand : G → spec_float * G).

(** For positive counts the result is [balanced]. *)
Lemma buildBalancedIndices_spec cats count g :
  stream_unit rand g →
  0 < cats ≤ MAX_ARRAY_LENGTH → 0 < count ≤ MAX_ARRAY_LENGTH →
  ∃ indices n,
    buildBalancedIndices rand cats count g = Ok (indices, advance rand n g)
    ∧ balanced (Z.to_nat cats) (Z.to_nat (count `div` cats))
               (Z.to_nat (count `mod` cats)) indices.
Proof.
  intros Hg Hlen Hcount. unfold buildBalancedIndices.
  rewrite decide_False by lia.
  rewrite Z.rem_mod_nonneg by lia.
  pose proof (Z.div_mod count cats ltac:(lia)) as Hdm.
  pose proof (Z.mod_pos_bound count cats ltac:(lia)) as Hmod.
  assert (0 ≤ count `div` cats) as Hdiv by (apply Z.div_pos; lia).
  set (len := Z.to_nat cats). set (base := Z.to_nat (count `div` cats)).
  set (remainder := Z.to_nat (count `mod` cats)).
  set (blocks := flat_map (λ i, replicate base i) (seq 0 len)).
  assert (Z.of_nat (len * base + remainder) = count) as Htotal by (unfold len, base, remainder; nia).
  destruct (decide (0 < remainder)%nat) as [Hrem|Hrem].
  - destruct (shuffle_spec rand (seq 0 len) g Hg) as (shuffled & -> & Hperm).
    { rewrite length_seq. unfold len. lia. }
    cbn [mbind result_bind]. rewrite length_seq.
    set (g1 := advance rand (len - 1) g).
    set (extras := take remainder shuffled).
    assert (length extras = remainder) as Hlenx.
    { unfold extras. rewrite length_take_le; [done|].
      rewrite Hperm, length_seq. unfold remainder, len. lia. }
    destruct (shuffle_spec rand (blocks ++ extras) g1) as (indices & -> & Hperm2).
    { by apply stream_unit_advance. }
    { rewrite length_app, Hlenx. unfold blocks. rewrite length_blocks. lia. }
    exists indices, (len - 1 + (length (blocks ++ extras) - 1))%nat.
    split; [by rewrite advance_add|].
    exists extras. split; [done|]. split; [|split; [|done]].
    + eapply sublist_NoDup; [|apply sublist_take]. rewrite Hperm. apply NoDup_seq.
    + intros x Hx. apply elem_of_take in Hx as (i & Hx & _).
      apply list_elem_of_lookup_2 in Hx. rewrite Hperm in Hx.
      apply elem_of_seq in Hx. lia.
  - cbn [mbind result_bind].
    destruct (shuffle_spec rand blocks g Hg) as (indices & -> & Hperm).
    { unfold blocks. rewrite length_blocks. lia. }
    exists indices, (length blocks - 1)%nat. split; [done|].
    exists []. rewrite app_nil_r. split; [done|]. split; [constructor|].
    split; [by intros ? ?%elem_of_nil|simpl; lia].
Qed.

Lemma balanced_length len base remainder indices :
  balanced len base remainder indices → length indices = (len * base + remainder)%nat.
Proof.
  intros (extras & Hp & _ & _ & Hl). by rewrite Hp, length_app, length_blocks, Hl.
Qed.

Lemma balanced_bound len base remainder indices x :
  balanced len base remainder indices → x ∈ indices → (x < len)%nat.
Proof.
  intros (extras & Hp & _ & Hlt & _). rewrite Hp, elem_of_app.
  intros [Hx%elem_of_blocks|Hx]; [lia|by apply Hlt].
Qed.

Lemma balanced_occ len base remainder indices k :
  balanced len base remainder indices → (k < len)%nat →
  occ k indices = base ∨ occ k indices = S base.
Proof.
  intros (extras & Hp & Hnd & _ & _) Hk.
  rewrite (occ_perm _ _ _ Hp), occ_app, occ_blocks, decide_True by lia.
  destruct (decide (k ∈ extras)) as [Hin|Hnin].
  - right. rewrite occ_NoDup by done. lia.
  - left. rewrite occ_not_elem by done. lia.
Qed.

Lemma balanced_exact len base indices k :
  balanced len base 0 indices → (k < len)%nat → occ k indices = base.
Proof.
  intros (extras & Hp & _ & _ & Hl) Hk. apply nil_length_inv in Hl as ->.
  rewrite app_nil_r in Hp.
  by rewrite (occ_perm _ _ _ Hp), occ_blocks, decide_True by lia.
Qed.

End BalanceFacts.

(** ** The generator *)

Lemma seededRandom_state seed : ¬ degenerate_seed seed → lcg_state (seededRandom seed).
Proof.
  unfold degenerate_seed, lcg_state, seededRandom. intros Hseed.
  destruct (decide (Z.rem seed 2147483647 ≤ 0)); Z.quot_rem_to_equations; lia.
Qed.

Lemma nonneg_seed seed : 0 ≤ seed → ¬ degenerate_seed seed.
Proof. unfold degenerate_seed. intros Hseed. Z.quot_rem_to_equations. lia. Qed.

(** The state never becomes 0: 16807 is coprime to the modulus. *)
Lemma lcg_state_step state : lcg_state state → lcg_state (lcg state).2.
Proof.
  unfold lcg_state, lcg. cbn [snd]. intros Hs.
  rewrite Z.rem_mod_nonneg by lia.
  pose proof (Z.mod_pos_bound (state * 16807) 2147483647 ltac:(lia)) as Hb.
  assert ((state * 16807) `mod` 2147483647 ≠ 0) as Hne; [|lia].
  intros Hdiv%Z.mod_divide; [|lia].
  rewrite Z.mul_comm in Hdiv. apply Z.gauss in Hdiv; [|done].
  apply Z.divide_pos_le in Hdiv; lia.
Qed.

Lemma lcg_unit state : lcg_state state → Float64.in_unit_interval (lcg state).1.
Proof.
  intros Hs. pose proof (lcg_state_step state Hs) as Hs'.
  unfold lcg, lcg_state in *. cbn [fst snd] in *.
  apply Float64Facts.div_unit. lia.
Qed.

Lemma lcg_state_advance n state : lcg_state state → lcg_state (advance lcg n state).
Proof.
  revert state. induction n as [|n IH]; intros state Hs; [done|].
  rewrite advance_S. by apply IH, lcg_state_step.
Qed.

Lemma lcg_stream_unit state : lcg_state state → stream_unit lcg state.
Proof. intros Hs n. by apply lcg_unit, lcg_state_advance. Qed.

Lemma seeded_stream_unit seed : ¬ degenerate_seed seed → stream_unit lcg (seededRandom seed).
Proof. intros. by apply lcg_stream_unit, seededRandom_state. Qed.

(** ** Maps with a callback that can throw *)

Lemma mapi_from_pure {A B} (f : nat → A → result B) (g : nat → A → B) i xs :
  (∀ k x, xs !! k = Some x → f (i + k)%nat x = Ok (g (i + k)%nat x)) →
  mapi_from f i xs = Ok (imap (λ k, g (i + k)%nat) xs).
Proof.
  revert i. induction xs as [|x xs IH]; intros i Hf; [done|].
  cbn [mapi_from imap]. pose proof (Hf 0%nat x eq_refl) as H0.
  rewrite Nat.add_0_r in H0 |- *. rewrite H0. cbn [mbind result_bind].
  rewrite (IH (S i)).
  - cbn [mbind result_bind]. do 2 f_equal. apply imap_ext. intros k y _. simpl.
    f_equal. lia.
  - intros k y Hk. replace (S i + k)%nat with (i + S k)%nat by lia. by apply Hf.
Qed.

Lemma mapi_from_Ok {A B} (f : nat → A → result B) i xs :
  (∀ k x, xs !! k = Some x → ∃ y, f (i + k)%nat x = Ok y) →
  ∃ ys, mapi_from f i xs = Ok ys ∧ length ys = length xs
        ∧ ∀ k y, ys !! k = Some y → ∃ x, xs !! k = Some x ∧ f (i + k)%nat x = Ok y.
Proof.
  revert i. induction xs as [|x xs IH]; intros i Hf.
  - exists []. split; [done|]. split; [done|]. intros k y Hk. by rewrite lookup_nil in Hk.
  - cbn [mapi_from]. destruct (Hf 0%nat x eq_refl) as (y & Hy).
    rewrite Nat.add_0_r in Hy. rewrite Hy. cbn [mbind result_bind].
    destruct (IH (S i)) as (ys & -> & Hlen & Hys).
    { intros k z Hk. replace (S i + k)%nat with (i + S k)%nat by lia. by apply Hf. }
    cbn [mbind result_bind]. exists (y :: ys). split; [done|]. split; [simpl; lia|].
    intros [|k] z Hz; simplify_eq/=.
    + exists x. by rewrite Nat.add_0_r.
    + destruct (Hys k z Hz) as (x' & ? & ?). exists x'.
      by replace (i + S k)%nat with (S i + k)%nat by lia.
Qed.

Lemma fmap_imap_forget {A B C} (f : B → C) (g : nat → A → B) (h : A → C) (l : list A) :
  (∀ i x, f (g i x) = h x) → f <$> imap g l = h <$> l.
Proof.
  intros Hfg. rewrite fmap_imap, <- imap_const. apply imap_ext. intros i x _. apply Hfg.
Qed.

Lemma occ_filter `{EqDecision B} {A} (f : A → B) (y : B) (l : list A) :
  occ y (f <$> l) = length (filter (λ x, y = f x) l).
Proof.
  induction l as [|x l IH]; [done|].
  rewrite fmap_cons, occ_cons, filter_cons, IH.
  by destruct (decide (y = f x)).
Qed.

Lemma find_unique {A} (f : A → bool) (l : list A) :
  length (filter (λ x, f x = true) l) = 1%nat →
  ∃ x, List.find f l = Some x ∧ filter (λ x, f x = true) l = [x].
Proof.
  induction l as [|z l IH]; [done|]. rewrite filter_cons. cbn [List.find].
  destruct (f z) eqn:Hz.
  - rewrite decide_True by done. simpl. intros [= Hlen%nil_length_inv].
    exists z. by rewrite Hlen.
  - rewrite decide_False by done. apply IH.
Qed.

(** ** The item synthesizers *)

Lemma get_color i : (i < 8)%nat → get COLORS i = Ok (color_at i).
Proof. intros Hi. unfold get, color_at. do 8 (destruct i as [|i]; [done|]). lia. Qed.

Lemma get_shape i : (i < 8)%nat → get SHAPES i = Ok (shape_at i).
Proof. intros Hi. unfold get, shape_at. do 8 (destruct i as [|i]; [done|]). lia. Qed.

Lemma perm_range_bound order n i x :
  order ≡ₚ range n → order !! i = Some x → (x < n)%nat.
Proof.
  intros Hp Hx. apply list_elem_of_lookup_2 in Hx. rewrite Hp in Hx.
  apply elem_of_seq in Hx. lia.
Qed.

Lemma buildItemsForColorOnlyTrial_spec trialSeed :
  ¬ degenerate_seed trialSeed →
  ∃ order, order ≡ₚ range 8
    ∧ buildItemsForColorOnlyTrial trialSeed = Ok (imap color_item order).
Proof.
  intros Hseed. unfold buildItemsForColorOnlyTrial.
  destruct (shuffle_spec lcg (range (length COLORS)) (seededRandom trialSeed))
    as (order & -> & Hp); [by apply seeded_stream_unit|by vm_compute|].
  exists order. split; [done|]. cbn [mbind result_bind].
  unfold mapi. rewrite (mapi_from_pure _ color_item); [done|].
  intros k x Hx. rewrite get_color by (by eapply perm_range_bound). done.
Qed.

Lemma buildItemsForShapeOnlyTrial_spec trialSeed :
  ¬ degenerate_seed trialSeed →
  ∃ order, order ≡ₚ range 8
    ∧ buildItemsForShapeOnlyTrial trialSeed = Ok (imap shape_item order).
Proof.
  intros Hseed. unfold buildItemsForShapeOnlyTrial.
  destruct (shuffle_spec lcg (range (length SHAPES)) (seededRandom trialSeed))
    as (order & -> & Hp); [by apply seeded_stream_unit|by vm_compute|].
  exists order. split; [done|]. cbn [mbind result_bind].
  unfold mapi. rewrite (mapi_from_pure _ shape_item); [done|].
  intros k x Hx. rewrite get_shape by (by eapply perm_range_bound). done.
Qed.

Lemma remaining_colors ci :
  (ci < 8)%nat →
  length (filter (λ c, color_name c ≠ color_name (color_at ci)) COLORS) = 7%nat.
Proof. intros Hi. do 8 (destruct ci as [|ci]; [done|]). lia. Qed.

Lemma remaining_shapes si :
  (si < 8)%nat →
  length (filter (λ s, shape_name s ≠ shape_name (shape_at si)) SHAPES) = 7%nat.
Proof. intros Hi. do 8 (destruct si as [|si]; [done|]). lia. Qed.

Lemma buildCombinedItemsForTarget_spec trialSeed ci si :
  ¬ degenerate_seed trialSeed → (ci < 8)%nat → (si < 8)%nat →
  let targetColor := color_name (color_at ci) in
  let targetShape := shape_name (shape_at si) in
  ∃ target others orderedPairs,
    buildCombinedItemsForTarget trialSeed targetColor targetShape
    = Ok (imap pair_item orderedPairs)
    ∧ orderedPairs ≡ₚ target :: others
    ∧ pair_colorName target = targetColor ∧ pair_shapeName target = targetShape
    ∧ length others = 7%nat
    ∧ ∀ pair, pair ∈ others → pair_colorName pair ≠ targetColor.
Proof.
  intros Hseed Hci Hsi targetColor targetShape. unfold buildCombinedItemsForTarget.
  pose proof (seeded_stream_unit trialSeed Hseed) as Hg.
  set (colors := filter (λ c, color_name c ≠ targetColor) COLORS).
  set (shapes := filter (λ s, shape_name s ≠ targetShape) SHAPES).
  assert (length colors = 7%nat) as Hlc by (by apply remaining_colors).
  assert (length shapes = 7%nat) as Hls by (by apply remaining_shapes).
  destruct (shuffle_spec lcg colors (seededRandom trialSeed))
    as (remainingColors & -> & Hpc); [done|rewrite Hlc; by vm_compute|].
  cbn [mbind result_bind]. set (g1 := advance lcg _ _).
  assert (stream_unit lcg g1) as Hg1 by (by apply stream_unit_advance).
  destruct (shuffle_spec lcg shapes g1)
    as (remainingShapes & -> & Hps); [done|rewrite Hls; by vm_compute|].
  cbn [mbind result_bind]. set (g2 := advance lcg _ _).
  assert (stream_unit lcg g2) as Hg2 by (by apply stream_unit_advance).
  set (dummyC := {| color_name := ""; color_hex := "" |}).
  set (dummyS := {| shape_name := ""; shape_symbol := "" |}).
  set (mk := λ (_ : nat) (i : nat),
         let c := default dummyC (remainingColors !! i) in
         let s := default dummyS (remainingShapes !! i) in
         {| pair_colorName := color_name c; pair_colorHex := color_hex c;
            pair_shapeName := shape_name s; pair_shapeSymbol := shape_symbol s |}).
  unfold mapi. rewrite (mapi_from_pure _ mk).
  2:{ intros k i Hi. apply lookup_seq in Hi as [-> Hk].
      assert (is_Some (remainingColors !! k)) as [c Hc]
        by (apply lookup_lt_is_Some; rewrite Hpc, Hlc; lia).
      assert (is_Some (remainingShapes !! k)) as [s Hs]
        by (apply lookup_lt_is_Some; rewrite Hps, Hls; lia).
      unfold get, mk. simpl. rewrite Hc, Hs. done. }
  cbn [mbind result_bind].
  set (others := imap (λ k, mk (0 + k)%nat) (range 7)).
  set (target := Build_Pair targetColor _ targetShape _).
  destruct (shuffle_spec lcg (target :: others) g2)
    as (orderedPairs & -> & Hpo); [done|by vm_compute|].
  cbn [mbind result_bind].
  exists target, others, orderedPairs.
  rewrite (mapi_from_pure _ pair_item) by done.
  split; [done|]. split; [done|]. split; [done|]. split; [done|].
  split; [unfold others; by rewrite length_imap|].
  intros pair (k & i & -> & Hi)%elem_of_lookup_imap.
  apply lookup_seq in Hi as [-> Hk]. unfold mk. cbn [pair_colorName].
  assert (is_Some (remainingColors !! k)) as [c Hc]
    by (apply lookup_lt_is_Some; rewrite Hpc, Hlc; lia).
  simpl. rewrite Hc. simpl.
  apply list_elem_of_lookup_2 in Hc. rewrite Hpc in Hc.
  by apply list_elem_of_filter in Hc as [? _].
Qed.

(** ** One trial *)

Lemma occ_color_names ci :
  (ci < 8)%nat →
  occ (color_name (color_at ci)) ((λ i, color_name (color_at i)) <$> range 8) = 1%nat.
Proof. intros Hi. do 8 (destruct ci as [|ci]; [done|]). lia. Qed.

Lemma occ_shape_names si :
  (si < 8)%nat →
  occ (shape_name (shape_at si)) ((λ i, shape_name (shape_at i)) <$> range 8) = 1%nat.
Proof. intros Hi. do 8 (destruct si as [|si]; [done|]). lia. Qed.

(** The loop body succeeds when the targets' indices are in the tables and
    the trial's seed is not degenerate. *)
Lemma buildTrial_spec args p colors shapes t ci si :
  ¬ degenerate_seed
      (arg_participantNumber args * 100000 + arg_blockIndex args * 1000 + Z.of_nat t + 1) →
  colors !! t = Some ci → (ci < 8)%nat →
  shapes !! t = Some si → (si < 8)%nat →
  ∃ trial,
    buildTrial args p colors shapes t = Ok trial
    ∧ trial_condition trial = arg_condition args
    ∧ trialIndexInBlock trial = Z.of_nat t + 1
    ∧ isPractice trial = bool_decide (Z.of_nat t < p)
    ∧ targetColor trial
      = (if decide (arg_condition args = shape) then "black"
         else color_name (color_at ci))
    ∧ targetShape trial
      = (if decide (arg_condition args = color) then "circle"
         else shape_name (shape_at si))
    ∧ length (items trial) = 8%nat
    ∧ unique_target trial.
Proof.
  intros Hseed Hc Hci Hs Hsi. unfold buildTrial.
  assert (get colors t = Ok ci) as Hgc by (unfold get; by rewrite Hc).
  assert (get shapes t = Ok si) as Hgs by (unfold get; by rewrite Hs).
  destruct (arg_condition args) eqn:Hcond.
  - (* colour only *)
    destruct (decide (color = shape)) as [?|_]; [done|].
    destruct (decide (color = color)) as [_|?]; [|done].
    rewrite Hgc. cbn [mbind result_bind]. rewrite get_color by done.
    cbn [mbind result_bind].
    destruct (buildItemsForColorOnlyTrial_spec _ Hseed) as (order & Hp & ->).
    cbn [mbind result_bind].
    set (tc := color_name (color_at ci)). set (its := imap color_item order).
    assert (length (filter (λ item, bool_decide (colorName item = tc) = true) its) = 1%nat)
      as Hone.
    { rewrite (list_filter_iff _ (λ item, tc = colorName item))
        by (intros item; rewrite bool_decide_eq_true; naive_solver).
      rewrite <- occ_filter. unfold its.
      rewrite (fmap_imap_forget _ _ (λ i, color_name (color_at i))) by done.
      rewrite (occ_perm _ _ _ (fmap_Permutation _ _ _ Hp)). by apply occ_color_names. }
    destruct (find_unique _ _ Hone) as (item & Hfind & Hfilter).
    unfold findItemForTarget. rewrite Hfind. cbn [mbind result_bind].
    eexists. split; [done|]. cbn.
    do 5 (split; [done|]).
    split; [unfold its; by rewrite length_imap, Hp|].
    exists item. by split.
  - (* shape only *)
    destruct (decide (shape = shape)) as [_|?]; [|done].
    destruct (decide (shape = color)) as [?|_]; [done|].
    rewrite Hgs. cbn [mbind result_bind]. rewrite get_shape by done.
    cbn [mbind result_bind].
    destruct (buildItemsForShapeOnlyTrial_spec _ Hseed) as (order & Hp & ->).
    cbn [mbind result_bind].
    set (ts := shape_name (shape_at si)). set (its := imap shape_item order).
    assert (length (filter (λ item, bool_decide (shapeName item = ts) = true) its) = 1%nat)
      as Hone.
    { rewrite (list_filter_iff _ (λ item, ts = shapeName item))
        by (intros item; rewrite bool_decide_eq_true; naive_solver).
      rewrite <- occ_filter. unfold its.
      rewrite (fmap_imap_forget _ _ (λ i, shape_name (shape_at i))) by done.
      rewrite (occ_perm _ _ _ (fmap_Permutation _ _ _ Hp)). by apply occ_shape_names. }
    destruct (find_unique _ _ Hone) as (item & Hfind & Hfilter).
    unfold findItemForTarget. rewrite Hfind. cbn [mbind result_bind].
    eexists. split; [done|]. cbn.
    do 5 (split; [done|]).
    split; [unfold its; by rewrite length_imap, Hp|].
    exists item. by split.
  - (* combined *)
    destruct (decide (combined = shape)) as [?|_]; [done|].
    destruct (decide (combined = color)) as [?|_]; [done|].
    rewrite Hgc. cbn [mbind result_bind]. rewrite get_color by done.
    cbn [mbind result_bind]. rewrite Hgs. cbn [mbind result_bind].
    rewrite get_shape by done. cbn [mbind result_bind].
    destruct (buildCombinedItemsForTarget_spec _ ci si Hseed Hci Hsi)
      as (target & others & orderedPairs & -> & Hp & Htc & Hts & Hlen & Hothers).
    cbn [mbind result_bind].
    set (tc := color_name (color_at ci)) in *. set (ts := shape_name (shape_at si)) in *.
    set (its := imap pair_item orderedPairs).
    assert (length (filter (λ item, bool_decide (colorName item = tc)
                                    && bool_decide (shapeName item = ts) = true) its) = 1%nat)
      as Hone.
    { rewrite (list_filter_iff _ (λ item, (tc, ts) = (colorName item, shapeName item))).
      2:{ intros item. rewrite andb_true_iff, !bool_decide_eq_true. split.
          - intros [H1 H2]. by rewrite H1, H2.
          - intros [= H1 H2]. by rewrite H1, H2. }
      rewrite <- (occ_filter (λ item, (colorName item, shapeName item))). unfold its.
      rewrite (fmap_imap_forget _ _ (λ pair, (pair_colorName pair, pair_shapeName pair)))
        by done.
      rewrite (occ_perm _ _ _ (fmap_Permutation _ _ _ Hp)).
      rewrite fmap_cons, occ_cons, Htc, Hts, decide_True by done.
      rewrite occ_not_elem; [done|].
      intros (pair & [= Hpc _] & Hin)%list_elem_of_fmap. by apply (Hothers pair). }
    destruct (find_unique _ _ Hone) as (item & Hfind & Hfilter).
    unfold findItemForTarget. rewrite Hfind. cbn [mbind result_bind].
    eexists. split; [done|]. cbn.
    do 5 (split; [done|]).
    split; [unfold its; by rewrite length_imap, Hp, <- Hlen|].
    exists item. by split.
Qed.

(** ** One block *)

Lemma balanced_length_Z count indices :
  0 ≤ count →
  balanced 8 (Z.to_nat (count `div` 8)) (Z.to_nat (count `mod` 8)) indices →
  length indices = Z.to_nat count.
Proof.
  intros Hc Hb. rewrite (balanced_length _ _ _ _ Hb).
  pose proof (Z.div_mod count 8 ltac:(lia)). pose proof (Z.mod_pos_bound count 8 ltac:(lia)).
  assert (0 ≤ count `div` 8) by (apply Z.div_pos; lia). lia.
Qed.

Lemma buildBalancedIndices_total g count :
  stream_unit lcg g → 0 ≤ count ≤ MAX_ARRAY_LENGTH →
  ∃ indices n,
    buildBalancedIndices lcg 8 count g = Ok (indices, advance lcg n g)
    ∧ balanced 8 (Z.to_nat (count `div` 8)) (Z.to_nat (count `mod` 8)) indices.
Proof.
  intros Hg Hc. destruct (decide (count = 0)) as [->|Hne].
  - exists [], 0%nat. split; [done|]. exists []. split; [done|]. split; [constructor|].
    split; [by intros ? ?%elem_of_nil|done].
  - apply (buildBalancedIndices_spec lcg 8 count g Hg); [by vm_compute|lia].
Qed.

Lemma nonneg_well_formed args :
  0 ≤ arg_participantNumber args → 0 ≤ arg_blockIndex args → 0 ≤ arg_blockOrder args →
  0 ≤ practice_count args → 0 ≤ measured_count args →
  practice_count args + measured_count args ≤ MAX_ARRAY_LENGTH →
  block_seed args ≤ 2 ^ 53 →
  arg_participantNumber args * 100000 + arg_blockIndex args * 1000
    + (practice_count args + measured_count args) ≤ 2 ^ 53 →
  well_formed args.
Proof.
  intros Hpn Hbi Hbo Hp Hm Hsum Hblock Htrial. do 3 (split; [done|]).
  split; [unfold exact_seeds, block_seed in *; lia|].
  split; [|intros t _]; apply nonneg_seed; unfold block_seed, trial_seed; lia.
Qed.

Lemma well_formed_bounds args :
  well_formed args →
  0 ≤ practice_count args ≤ MAX_ARRAY_LENGTH ∧ 0 ≤ measured_count args ≤ MAX_ARRAY_LENGTH.
Proof. intros (Hp & Hm & Hsum & _). lia. Qed.

(** A well-formed call returns a plan, which satisfies [plan_spec]. *)
Lemma generateBlockPlan_spec args :
  well_formed args →
  ∃ plan, generateBlockPlan args = Ok plan
    ∧ blockIndex plan = arg_blockIndex args
    ∧ blockOrder plan = arg_blockOrder args
    ∧ condition plan = arg_condition args
    ∧ practiceTrials plan = length (filter (λ trial, isPractice trial = true) (trials plan))
    ∧ measuredTrials plan = length (filter (λ trial, isPractice trial = false) (trials plan))
    ∧ plan_spec args plan.
Proof.
  intros Hwf. destruct (well_formed_bounds args Hwf) as [Hp Hm].
  destruct Hwf as (_ & _ & _ & _ & Hblock & Htrial). unfold generateBlockPlan.
  fold (practice_count args). fold (measured_count args).
  set (p := practice_count args) in *. set (m := measured_count args) in *.
  set (g0 := seededRandom _).
  assert (stream_unit lcg g0) as Hg0 by (by apply seeded_stream_unit).
  change (Z.of_nat (length COLORS)) with 8. change (Z.of_nat (length SHAPES)) with 8.
  destruct (buildBalancedIndices_total g0 p Hg0 Hp) as (pc & n1 & -> & Hpc).
  cbn [mbind result_bind]. set (g1 := advance lcg n1 g0).
  assert (stream_unit lcg g1) as Hg1 by (by apply stream_unit_advance).
  destruct (buildBalancedIndices_total g1 p Hg1 Hp) as (ps & n2 & -> & Hps).
  cbn [mbind result_bind]. set (g2 := advance lcg n2 g1).
  assert (stream_unit lcg g2) as Hg2 by (by apply stream_unit_advance).
  destruct (buildBalancedIndices_total g2 m Hg2 Hm) as (mc & n3 & -> & Hmc).
  cbn [mbind result_bind]. set (g3 := advance lcg n3 g2).
  assert (stream_unit lcg g3) as Hg3 by (by apply stream_unit_advance).
  destruct (buildBalancedIndices_total g3 m Hg3 Hm) as (ms & n4 & -> & Hms).
  cbn [mbind result_bind].
  assert (length (pc ++ mc) = Z.to_nat (p + m)) as Hlc.
  { rewrite length_app, (balanced_length_Z p), (balanced_length_Z m) by (done || lia). lia. }
  assert (length (ps ++ ms) = Z.to_nat (p + m)) as Hls.
  { rewrite length_app, (balanced_length_Z p), (balanced_length_Z m) by (done || lia). lia. }
  assert (∀ t, (t < Z.to_nat (p + m))%nat →
            ∃ ci si, (pc ++ mc) !! t = Some ci ∧ (ps ++ ms) !! t = Some si
                     ∧ (ci < 8)%nat ∧ (si < 8)%nat) as Hidx.
  { intros t Ht.
    destruct (lookup_lt_is_Some_2 (pc ++ mc) t) as [ci Hci]; [lia|].
    destruct (lookup_lt_is_Some_2 (ps ++ ms) t) as [si Hsi]; [lia|].
    exists ci, si. split; [done|]. split; [done|]. split.
    - apply list_elem_of_lookup_2, elem_of_app in Hci as [Hin|Hin];
        [exact (balanced_bound _ _ _ _ _ Hpc Hin)|exact (balanced_bound _ _ _ _ _ Hmc Hin)].
    - apply list_elem_of_lookup_2, elem_of_app in Hsi as [Hin|Hin];
        [exact (balanced_bound _ _ _ _ _ Hps Hin)|exact (balanced_bound _ _ _ _ _ Hms Hin)]. }
  unfold mapi.
  destruct (mapi_from_Ok
              (λ _ t, buildTrial args p (pc ++ mc) (ps ++ ms) t) 0
              (range (Z.to_nat (p + m)))) as (built & -> & Hlen & Htrials).
  { intros k t Hk. apply lookup_seq in Hk as [-> Hk].
    cbn beta. change (0 + k)%nat with k.
    destruct (Hidx k Hk) as (ci & si & Hci & Hsi & ? & ?).
    destruct (buildTrial_spec args p (pc ++ mc) (ps ++ ms) k ci si)
      as (trial & -> & _); try done; [apply (Htrial k); lia|by exists trial]. }
  cbn [mbind result_bind]. eexists. split; [done|]. cbn.
  do 5 (split; [done|]).
  exists pc, ps, mc, ms. do 4 (split; [done|]).
  cbn [trials]. split; [rewrite Hlen; unfold range; by rewrite length_seq|].
  intros t trial Ht. destruct (Htrials t trial Ht) as (t' & Hk & Hbuild).
  apply lookup_seq in Hk as [-> Hk]. cbn beta in Hbuild. change (0 + t)%nat with t in Hbuild.
  destruct (Hidx t Hk) as (ci & si & Hci & Hsi & ? & ?).
  exists ci, si. split; [done|]. split; [done|].
  destruct (buildTrial_spec args p (pc ++ mc) (ps ++ ms) t ci si)
    as (trial' & Heq & Hspec); try done; [apply (Htrial t); lia|].
  rewrite Hbuild in Heq. by injection Heq as ->.
Qed.

(** For every other seed the state is normalised into [1, 2147483646] and
    every draw is a double in [0, 1). *)
Lemma seededRandom_sound seed :
  ¬ degenerate_seed seed →
  lcg_state (seededRandom seed)
  ∧ ∀ n : nat,
      lcg_state (advance lcg n (seededRandom seed))
      ∧ Float64.in_unit_interval (lcg (advance lcg n (seededRandom seed))).1.
Proof.
  intros Hseed. pose proof (seededRandom_state seed Hseed) as Hs. split; [done|].
  intros n. split; [by apply lcg_state_advance|]. by apply lcg_stream_unit.
Qed.

(** ** Practice and measured trials *)

Lemma filter_index_take {A} (P : A → Prop) `{∀ x, Decision (P x)} (l : list A) (n : nat) :
  (∀ t x, l !! t = Some x → P x ↔ (t < n)%nat) → filter P l = take n l.
Proof.
  revert n. induction l as [|x l IH]; intros n Hl; [by rewrite take_nil|].
  rewrite filter_cons. destruct n as [|n].
  - rewrite decide_False by (rewrite (Hl 0%nat x eq_refl); lia).
    rewrite (IH 0%nat); [by destruct l|].
    intros t y Hy. rewrite (Hl (S t) y Hy). lia.
  - rewrite decide_True by (rewrite (Hl 0%nat x eq_refl); lia).
    simpl. f_equal. apply IH. intros t y Hy. rewrite (Hl (S t) y Hy). lia.
Qed.

Lemma filter_index_drop {A} (P : A → Prop) `{∀ x, Decision (P x)} (l : list A) (n : nat) :
  (∀ t x, l !! t = Some x → P x ↔ (n ≤ t)%nat) → filter P l = drop n l.
Proof.
  revert n. induction l as [|x l IH]; intros n Hl; [by rewrite drop_nil|].
  rewrite filter_cons. destruct n as [|n].
  - rewrite decide_True by (rewrite (Hl 0%nat x eq_refl); lia).
    simpl. f_equal. rewrite (IH 0%nat); [done|].
    intros t y Hy. rewrite (Hl (S t) y Hy). lia.
  - rewrite decide_False by (rewrite (Hl 0%nat x eq_refl); lia).
    simpl. apply IH. intros t y Hy. rewrite (Hl (S t) y Hy). lia.
Qed.

Lemma plan_isPractice args plan t trial :
  plan_spec args plan → trials plan !! t = Some trial →
  isPractice trial = bool_decide (Z.of_nat t < practice_count args).
Proof.
  intros (pc & ps & mc & ms & _ & _ & _ & _ & _ & Ht) Htrial.
  destruct (Ht t trial Htrial) as (ci & si & _ & _ & Hspec).
  by destruct Hspec as (_ & _ & ? & _).
Qed.

Lemma plan_practice args plan :
  0 ≤ practice_count args → plan_spec args plan →
  filter (λ trial, isPractice trial = true) (trials plan)
  = take (Z.to_nat (practice_count args)) (trials plan).
Proof.
  intros Hp Hplan. apply filter_index_take. intros t trial Ht.
  rewrite (plan_isPractice args plan t trial Hplan Ht), bool_decide_eq_true. lia.
Qed.

Lemma plan_measured args plan :
  0 ≤ practice_count args → plan_spec args plan →
  filter (λ trial, isPractice trial = false) (trials plan)
  = drop (Z.to_nat (practice_count args)) (trials plan).
Proof.
  intros Hp Hplan. apply filter_index_drop. intros t trial Ht.
  rewrite (plan_isPractice args plan t trial Hplan Ht), bool_decide_eq_false. lia.
Qed.

Lemma filter_ext_in {A} (P Q : A → Prop) `{∀ x, Decision (P x)} `{∀ x, Decision (Q x)}
    (l : list A) :
  (∀ x, x ∈ l → P x ↔ Q x) → filter P l = filter Q l.
Proof.
  induction l as [|x l IH]; intros Hl; [done|].
  rewrite !filter_cons, IH by (intros; apply Hl; by right).
  destruct (decide (P x)) as [HP|HP], (decide (Q x)) as [HQ|HQ]; try done;
    exfalso; apply (Hl x) in HP || apply (Hl x) in HQ; try done; by left.
Qed.

Lemma length_filter_complement {A} (P : A → Prop) `{∀ x, Decision (P x)} (l : list A) :
  (length (filter P l) + length (filter (λ x, ¬ P x) l) = length l)%nat.
Proof. by rewrite <- length_app, filter_app_complement. Qed.

Lemma balanced_occ_extras len base remainder indices :
  balanced len base remainder indices →
  length (filter (λ k, occ k indices = S base) (seq 0 len)) = remainder
  ∧ length (filter (λ k, occ k indices = base) (seq 0 len)) = (len - remainder)%nat.
Proof.
  intros (extras & Hp & Hnd & Hlt & Hlen).
  assert (∀ k, k ∈ seq 0 len → occ k indices = (base + occ k extras)%nat) as Hocc.
  { intros k Hk%elem_of_seq.
    by rewrite (occ_perm _ _ _ Hp), occ_app, occ_blocks, decide_True by lia. }
  assert (filter (λ k, k ∈ extras) (seq 0 len) ≡ₚ extras) as Hex.
  { apply NoDup_Permutation; [apply NoDup_filter, NoDup_seq|done|].
    intros k. rewrite list_elem_of_filter, elem_of_seq. split; [by intros [? _]|].
    intros Hk. split; [done|]. apply Hlt in Hk. lia. }
  assert (filter (λ k, occ k indices = S base) (seq 0 len)
          = filter (λ k, k ∈ extras) (seq 0 len)) as Heq1.
  { apply filter_ext_in. intros k Hk. rewrite (Hocc k Hk).
    destruct (decide (k ∈ extras)) as [Hin|Hnin].
    - rewrite occ_NoDup by done. split; [done|lia].
    - rewrite occ_not_elem by done. split; [lia|done]. }
  assert (filter (λ k, occ k indices = base) (seq 0 len)
          = filter (λ k, ¬ k ∈ extras) (seq 0 len)) as Heq2.
  { apply filter_ext_in. intros k Hk. rewrite (Hocc k Hk).
    destruct (decide (k ∈ extras)) as [Hin|Hnin].
    - rewrite occ_NoDup by done. split; [lia|done].
    - rewrite occ_not_elem by done. split; [done|lia]. }
  rewrite Heq1, Heq2.
  pose proof (length_filter_complement (λ k, k ∈ extras) (seq 0 len)) as Hc.
  rewrite length_seq in Hc. rewrite Hex in Hc |- *. lia.
Qed.

Lemma color_name_inj i j :
  (i < 8)%nat → (j < 8)%nat →
  color_name (color_at i) = color_name (color_at j) → i = j.
Proof.
  intros Hi Hj.
  do 8 (destruct i as [|i]; [do 8 (destruct j as [|j]; [done|]); lia|]). lia.
Qed.

Lemma shape_name_inj i j :
  (i < 8)%nat → (j < 8)%nat →
  shape_name (shape_at i) = shape_name (shape_at j) → i = j.
Proof.
  intros Hi Hj.
  do 8 (destruct i as [|i]; [do 8 (destruct j as [|j]; [done|]); lia|]). lia.
Qed.

Lemma plan_counts args plan :
  well_formed args → plan_spec args plan →
  length (trials plan) = Z.to_nat (practice_count args + measured_count args)
  ∧ length (filter (λ trial, isPractice trial = true) (trials plan))
    = Z.to_nat (practice_count args)
  ∧ length (filter (λ trial, isPractice trial = false) (trials plan))
    = Z.to_nat (measured_count args).
Proof.
  intros [Hp Hm]%well_formed_bounds Hplan.
  rewrite (plan_practice args plan), (plan_measured args plan) by (done || lia).
  destruct Hplan as (pc & ps & mc & ms & _ & _ & _ & _ & Hlen & _).
  rewrite length_take, length_drop, Hlen. lia.
Qed.

(** A negative participant number that is not a multiple of 3 has no order:
    [%] gives a negative index. *)
Lemma getLatinSquareOrder_negative n :
  n < 0 → n `mod` 3 ≠ 0 → getLatinSquareOrder n = None.
Proof.
  intros Hn Hmod. unfold getLatinSquareOrder.
  rewrite decide_False; [done|]. Z.quot_rem_to_equations. Z.div_mod_to_equations. lia.
Qed.

Lemma getLatinSquareOrder_nonneg n :
  0 ≤ n →
  getLatinSquareOrder n = LATIN_SQUARE_3 !! Z.to_nat (n `mod` 3)
  ∧ (n `mod` 3 = 0 ∨ n `mod` 3 = 1 ∨ n `mod` 3 = 2).
Proof.
  intros Hn. unfold getLatinSquareOrder. rewrite Z.rem_mod_nonneg by lia.
  pose proof (Z.mod_pos_bound n 3 ltac:(lia)) as Hb.
  rewrite decide_True by lia. split; [done|lia].
Qed.

(** ** Target counts *)

Lemma length_filter_fmap {A B} (f : A → B) (P : B → Prop) `{∀ y, Decision (P y)}
    (l : list A) :
  length (filter P (f <$> l)) = length (filter (λ x, P (f x)) l).
Proof.
  induction l as [|x l IH]; [done|].
  rewrite fmap_cons, !filter_cons. destruct (decide (P (f x))); simpl; by rewrite IH.
Qed.

Section Marginal.
(** The targets [name <$> indices] of a balanced index sequence, for a table
    of 8 distinct names. *)
Context (name : nat → string).
Hypothesis name_inj : ∀ i j, (i < 8)%nat → (j < 8)%nat → name i = name j → i = j.
Context (base remainder : nat) (indices : list nat).
Hypothesis Hbal : balanced 8 base remainder indices.

Lemma marginal_occ k : (k < 8)%nat → occ (name k) (name <$> indices) = occ k indices.
Proof.
  intros Hk. apply occ_fmap_inj. intros j Hj Heq.
  apply name_inj; [|done|done]. by eapply balanced_bound.
Qed.

Lemma marginal_near_even k :
  (k < 8)%nat →
  occ (name k) (name <$> indices) = base ∨ occ (name k) (name <$> indices) = S base.
Proof. intros Hk. rewrite marginal_occ by done. by eapply balanced_occ. Qed.

Lemma marginal_pairwise c1 c2 :
  c1 ∈ name <$> indices → c2 ∈ name <$> indices →
  (occ c1 (name <$> indices) ≤ occ c2 (name <$> indices) + 1)%nat.
Proof.
  intros (k1 & -> & Hk1)%list_elem_of_fmap (k2 & -> & Hk2)%list_elem_of_fmap.
  pose proof (balanced_bound _ _ _ _ _ Hbal Hk1) as Hb1.
  pose proof (balanced_bound _ _ _ _ _ Hbal Hk2) as Hb2.
  destruct (marginal_near_even k1 Hb1) as [-> | ->];
    destruct (marginal_near_even k2 Hb2) as [-> | ->]; lia.
Qed.

Lemma marginal_extras :
  length (filter (λ c, occ c (name <$> indices) = S base) (name <$> seq 0 8)) = remainder
  ∧ length (filter (λ c, occ c (name <$> indices) = base) (name <$> seq 0 8))
    = (8 - remainder)%nat.
Proof.
  destruct (balanced_occ_extras _ _ _ _ Hbal) as [H1 H2].
  rewrite !length_filter_fmap.
  rewrite (filter_ext_in _ (λ k, occ k indices = S base))
    by (intros k Hk%elem_of_seq; rewrite marginal_occ by lia; done).
  rewrite (filter_ext_in (λ k, occ (name k) (name <$> indices) = base)
                         (λ k, occ k indices = base))
    by (intros k Hk%elem_of_seq; rewrite marginal_occ by lia; done).
  done.
Qed.
End Marginal.

Lemma constant_pairwise (c : string) (indices : list nat) c1 c2 :
  c1 ∈ (λ _, c) <$> indices → c2 ∈ (λ _, c) <$> indices →
  (occ c1 ((λ _, c) <$> indices) ≤ occ c2 ((λ _, c) <$> indices) + 1)%nat.
Proof.
  intros (k1 & -> & _)%list_elem_of_fmap (k2 & -> & _)%list_elem_of_fmap. lia.
Qed.

(** ** The counts [assertBalancedTargets] computes *)

Lemma count_targets_snoc targets target :
  count_targets (targets ++ [target])
  = <[target := (default 0 (count_targets targets !! target) + 1)%nat]>
      (count_targets targets).
Proof. unfold count_targets. by rewrite foldl_snoc. Qed.

Lemma count_targets_lookup targets c :
  count_targets targets !! c
  = if decide (c ∈ targets) then Some (occ c targets) else None.
Proof.
  induction targets as [|target targets IH] using rev_ind.
  - by rewrite decide_False by apply not_elem_of_nil.
  - rewrite count_targets_snoc, occ_app, occ_cons, occ_nil.
    destruct (decide (c = target)) as [->|Hne].
    + rewrite lookup_insert_eq, IH. rewrite (decide_True (P := target ∈ targets ++ [target]))
        by (apply elem_of_app; right; by left).
      destruct (decide (target ∈ targets)) as [Hin|Hnin]; simpl.
      * f_equal; lia.
      * rewrite occ_not_elem by done. done.
    + rewrite lookup_insert_ne by done. rewrite IH.
      destruct (decide (c ∈ targets)) as [Hin|Hnin].
      * rewrite decide_True by (apply elem_of_app; by left). f_equal; lia.
      * rewrite decide_False; [done|].
        rewrite elem_of_app, list_elem_of_singleton. by intros [?|?].
Qed.

Lemma min_list_elem_of ns : ns ≠ [] → min_list ns ∈ ns.
Proof.
  destruct ns as [|n ns]; [done|]. intros _. unfold min_list.
  induction ns as [|k ns IH]; simpl; [by left|].
  destruct (Nat.min_spec k (foldr Nat.min n ns)) as [[_ ->]|[_ ->]].
  - right. by left.
  - apply elem_of_cons in IH as [->|?]; [by left|]. right. by right.
Qed.

Lemma spread_of_pairwise (targets : list string) :
  (∀ c1 c2, c1 ∈ targets → c2 ∈ targets → (occ c1 targets ≤ occ c2 targets + 1)%nat) →
  spread_at_most_1 (spread_of (map_to_list (count_targets targets)).*2).
Proof.
  intros Hpair. set (values := (map_to_list (count_targets targets)).*2).
  assert (∀ v, v ∈ values → ∃ c, c ∈ targets ∧ v = occ c targets) as Hvalues.
  { intros v ([c v'] & -> & Hin)%list_elem_of_fmap.
    apply elem_of_map_to_list in Hin. rewrite count_targets_lookup in Hin.
    destruct (decide (c ∈ targets)); [|done]. exists c. split; [done|]. by injection Hin. }
  destruct values as [|v values'] eqn:Hv; [done|].
  unfold spread_of, spread_at_most_1. rewrite <- Hv in *.
  assert (values ≠ []) as Hne by (by rewrite Hv).
  destruct (Hvalues _ (max_list_elem_of values Hne)) as (c1 & Hc1 & ->).
  destruct (Hvalues _ (min_list_elem_of values Hne)) as (c2 & Hc2 & ->).
  pose proof (Hpair c1 c2 Hc1 Hc2). lia.
Qed.

(** The targets of the measured trials are the names of the measured index
    sequences. *)
Lemma measured_targets args plan :
  well_formed args → plan_spec args plan →
  ∃ measuredColors measuredShapes,
    let m := measured_count args in
    balanced 8 (Z.to_nat (m `div` 8)) (Z.to_nat (m `mod` 8)) measuredColors
    ∧ balanced 8 (Z.to_nat (m `div` 8)) (Z.to_nat (m `mod` 8)) measuredShapes
    ∧ targetColor <$> filter (λ trial, isPractice trial = false) (trials plan)
      = (λ ci, if decide (arg_condition args = shape) then "black"
               else color_name (color_at ci)) <$> measuredColors
    ∧ targetShape <$> filter (λ trial, isPractice trial = false) (trials plan)
      = (λ si, if decide (arg_condition args = color) then "circle"
               else shape_name (shape_at si)) <$> measuredShapes.
Proof.
  intros [Hp Hm]%well_formed_bounds Hplan.
  rewrite (plan_measured args plan) by (done || lia).
  destruct Hplan as (pc & ps & mc & ms & Hpc & Hps & Hmc & Hms & Hlen & Htrials).
  cbv zeta in *.
  pose proof (balanced_length_Z _ _ (proj1 Hp) Hpc) as Hlpc.
  pose proof (balanced_length_Z _ _ (proj1 Hp) Hps) as Hlps.
  pose proof (balanced_length_Z _ _ (proj1 Hm) Hmc) as Hlmc.
  pose proof (balanced_length_Z _ _ (proj1 Hm) Hms) as Hlms.
  set (p' := Z.to_nat (practice_count args)) in *.
  exists mc, ms. split; [done|]. split; [done|]. split.
  - apply list_eq. intros k. rewrite !list_lookup_fmap, lookup_drop.
    destruct (trials plan !! (p' + k)%nat) as [trial|] eqn:Ht.
    + destruct (Htrials _ trial Ht) as (ci & si & Hci & _ & Hspec).
      destruct Hspec as (_ & _ & _ & Htc & _).
      rewrite lookup_app_r in Hci by lia.
      replace (p' + k - length pc)%nat with k in Hci by lia.
      rewrite Hci. simpl. by rewrite Htc.
    + apply lookup_ge_None_1 in Ht. rewrite lookup_ge_None_2; [done|]. lia.
  - apply list_eq. intros k. rewrite !list_lookup_fmap, lookup_drop.
    destruct (trials plan !! (p' + k)%nat) as [trial|] eqn:Ht.
    + destruct (Htrials _ trial Ht) as (ci & si & _ & Hsi & Hspec).
      destruct Hspec as (_ & _ & _ & _ & Hts & _).
      rewrite lookup_app_r in Hsi by lia.
      replace (p' + k - length ps)%nat with k in Hsi by lia.
      rewrite Hsi. simpl. by rewrite Hts.
    + apply lookup_ge_None_1 in Ht. rewrite lookup_ge_None_2; [done|]. lia.
Qed.

(** ** Reading a result back *)

Lemma mapi_from_inv {A B} (f : nat → A → result B) i xs ys :
  mapi_from f i xs = Ok ys →
  length ys = length xs
  ∧ ∀ k y, ys !! k = Some y → ∃ x, xs !! k = Some x ∧ f (i + k)%nat x = Ok y.
Proof.
  revert i ys. induction xs as [|x xs IH]; intros i ys; cbn [mapi_from].
  - intros [= <-]. split; [done|]. intros k y Hk. by rewrite lookup_nil in Hk.
  - destruct (f i x) as [y|e] eqn:Hy; [|done]. cbn [mbind result_bind].
    destruct (mapi_from f (S i) xs) as [ys'|e] eqn:Hys; [|done]. cbn [mbind result_bind].
    intros [= <-]. destruct (IH _ _ Hys) as [Hlen Hall]. split; [simpl; lia|].
    intros [|k] z Hz; simplify_eq/=.
    + exists x. by rewrite Nat.add_0_r.
    + destruct (Hall k z Hz) as (x' & ? & ?). exists x'.
      by replace (i + S k)%nat with (S i + k)%nat by lia.
Qed.

Lemma buildTrial_inv args p colors shapes t trial :
  buildTrial args p colors shapes t = Ok trial →
  trial_id trial
  = "b" +:+ pretty (arg_blockIndex args) +:+ "_t" +:+ pretty (Z.of_nat t + 1)
  ∧ trial_blockIndex trial = arg_blockIndex args
  ∧ trial_blockOrder trial = arg_blockOrder args
  ∧ trial_condition trial = arg_condition args
  ∧ targetType trial = arg_condition args
  ∧ promptText trial = prompt_of (arg_condition args) (targetColor trial) (targetShape trial)
  ∧ items_of (arg_condition args) (trial_seed args t) (targetColor trial) (targetShape trial)
    = Ok (items trial).
Proof.
  unfold buildTrial. fold (trial_seed args t).
  destruct (if decide (arg_condition args = shape) then _ else _) as [tc|e]; [|done].
  cbn [mbind result_bind].
  destruct (if decide (arg_condition args = color) then _ else _) as [ts|e]; [|done].
  cbn [mbind result_bind].
  fold (items_of (arg_condition args) (trial_seed args t) tc ts).
  destruct (items_of _ _ _ _) as [its|e] eqn:Hits; [|done]. cbn [mbind result_bind].
  destruct (findItemForTarget _ _ _ _) as [correct|e]; [|done]. cbn [mbind result_bind].
  intros [= <-]. cbn. done.
Qed.

Lemma generateBlockPlan_inv args plan :
  generateBlockPlan args = Ok plan →
  ∃ colors shapes,
    length (trials plan) = Z.to_nat (practice_count args + measured_count args)
    ∧ ∀ t trial, trials plan !! t = Some trial →
        buildTrial args (practice_count args) colors shapes t = Ok trial.
Proof.
  unfold generateBlockPlan. fold (practice_count args) (measured_count args).
  destruct (buildBalancedIndices _ _ _ _) as [[pc g1]|e]; [|done]. cbn [mbind result_bind].
  destruct (buildBalancedIndices _ _ _ _) as [[ps g2]|e]; [|done]. cbn [mbind result_bind].
  destruct (buildBalancedIndices _ _ _ _) as [[mc g3]|e]; [|done]. cbn [mbind result_bind].
  destruct (buildBalancedIndices _ _ _ _) as [[ms g4]|e]; [|done]. cbn [mbind result_bind].
  destruct (mapi _ _) as [built|e] eqn:Hbuilt; [|done]. cbn [mbind result_bind].
  intros [= <-]. cbn [trials]. exists (pc ++ mc), (ps ++ ms).
  apply mapi_from_inv in Hbuilt as [Hlen Hall]. split.
  - rewrite Hlen. unfold range. by rewrite length_seq.
  - intros t trial Ht. destruct (Hall t trial Ht) as (t' & Hk & Hbuild).
    apply lookup_seq in Hk as [-> _]. done.
Qed.

(** ** What the items are *)

Lemma NoDup_ITEM_IDS : NoDup ITEM_IDS.
Proof. apply (bool_decide_unpack _). by vm_compute. Qed.

Lemma fmap_imap_index {A B C} (f : B → C) (g : nat → A → B) (h : nat → C) (l : list A) :
  (∀ i x, f (g i x) = h i) → f <$> imap g l = h <$> seq 0 (length l).
Proof.
  intros Hfg. rewrite fmap_imap. revert h g Hfg.
  induction l as [|x l IH]; intros h g Hfg; [done|].
  cbn [imap length seq fmap list_fmap]. unfold compose at 1. rewrite Hfg. f_equal.
  rewrite <- fmap_S_seq, <- list_fmap_compose. apply (IH (h ∘ S) (g ∘ S)).
  intros i y. apply Hfg.
Qed.

Lemma color_at_lookup i c : COLORS !! i = Some c → (i < 8)%nat ∧ color_at i = c.
Proof.
  intros Hc. split; [by apply lookup_lt_Some in Hc|]. unfold color_at. by rewrite Hc.
Qed.

Lemma shape_at_lookup i s : SHAPES !! i = Some s → (i < 8)%nat ∧ shape_at i = s.
Proof.
  intros Hs. split; [by apply lookup_lt_Some in Hs|]. unfold shape_at. by rewrite Hs.
Qed.

Lemma color_items_spec trialSeed :
  ¬ degenerate_seed trialSeed →
  ∃ its, buildItemsForColorOnlyTrial trialSeed = Ok its
    ∧ item_id <$> its = ITEM_IDS
    ∧ item_color <$> its ≡ₚ COLORS
    ∧ Forall (λ item, shapeName item = "circle" ∧ shapeSymbol item = "●") its.
Proof.
  intros Hseed. destruct (buildItemsForColorOnlyTrial_spec _ Hseed) as (order & Hp & ->).
  eexists. split; [done|]. split; [|split].
  - rewrite (fmap_imap_index _ _ item_label) by done. by rewrite Hp.
  - rewrite (fmap_imap_forget _ _ color_at); [by rewrite Hp|].
    intros i x. unfold item_color, color_item. simpl. by destruct (color_at x).
  - apply Forall_lookup. intros i item. rewrite list_lookup_imap.
    destruct (order !! i); [|done]. by intros [= <-].
Qed.

Lemma shape_items_spec trialSeed :
  ¬ degenerate_seed trialSeed →
  ∃ its, buildItemsForShapeOnlyTrial trialSeed = Ok its
    ∧ item_id <$> its = ITEM_IDS
    ∧ item_shape <$> its ≡ₚ SHAPES
    ∧ Forall (λ item, colorName item = "black" ∧ colorHex item = "#111111") its.
Proof.
  intros Hseed. destruct (buildItemsForShapeOnlyTrial_spec _ Hseed) as (order & Hp & ->).
  eexists. split; [done|]. split; [|split].
  - rewrite (fmap_imap_index _ _ item_label) by done. by rewrite Hp.
  - rewrite (fmap_imap_forget _ _ shape_at); [by rewrite Hp|].
    intros i x. unfold item_shape, shape_item. simpl. by destruct (shape_at x).
  - apply Forall_lookup. intros i item. rewrite list_lookup_imap.
    destruct (order !! i); [|done]. by intros [= <-].
Qed.

Lemma find_color ci :
  (ci < 8)%nat →
  List.find (λ c, bool_decide (color_name c = color_name (color_at ci))) COLORS
  = Some (color_at ci).
Proof. intros Hi. do 8 (destruct ci as [|ci]; [done|]). lia. Qed.

Lemma find_shape si :
  (si < 8)%nat →
  List.find (λ s, bool_decide (shape_name s = shape_name (shape_at si))) SHAPES
  = Some (shape_at si).
Proof. intros Hi. do 8 (destruct si as [|si]; [done|]). lia. Qed.

Lemma target_color_perm ci :
  (ci < 8)%nat →
  color_at ci :: filter (λ c, color_name c ≠ color_name (color_at ci)) COLORS ≡ₚ COLORS.
Proof.
  intros Hi.
  rewrite <- (filter_app_complement (λ c, color_name c ≠ color_name (color_at ci)) COLORS)
    at 2.
  rewrite Permutation_app_comm.
  assert (filter (λ c, ¬ color_name c ≠ color_name (color_at ci)) COLORS = [color_at ci])
    as ->; [|done].
  do 8 (destruct ci as [|ci]; [done|]). lia.
Qed.

Lemma target_shape_perm si :
  (si < 8)%nat →
  shape_at si :: filter (λ s, shape_name s ≠ shape_name (shape_at si)) SHAPES ≡ₚ SHAPES.
Proof.
  intros Hi.
  rewrite <- (filter_app_complement (λ s, shape_name s ≠ shape_name (shape_at si)) SHAPES)
    at 2.
  rewrite Permutation_app_comm.
  assert (filter (λ s, ¬ shape_name s ≠ shape_name (shape_at si)) SHAPES = [shape_at si])
    as ->; [|done].
  do 8 (destruct si as [|si]; [done|]). lia.
Qed.

Lemma combined_pairs_spec trialSeed ci si :
  ¬ degenerate_seed trialSeed → (ci < 8)%nat → (si < 8)%nat →
  ∃ remainingColors remainingShapes orderedPairs,
    buildCombinedItemsForTarget trialSeed (color_name (color_at ci)) (shape_name (shape_at si))
    = Ok (imap pair_item orderedPairs)
    ∧ remainingColors ≡ₚ filter (λ c, color_name c ≠ color_name (color_at ci)) COLORS
    ∧ remainingShapes ≡ₚ filter (λ s, shape_name s ≠ shape_name (shape_at si)) SHAPES
    ∧ orderedPairs
      ≡ₚ make_pair (color_at ci) (shape_at si) :: zip_with make_pair remainingColors remainingShapes.
Proof.
  intros Hseed Hci Hsi. unfold buildCombinedItemsForTarget.
  pose proof (seeded_stream_unit trialSeed Hseed) as Hg.
  rewrite (find_color ci Hci), (find_shape si Hsi). cbn [fmap option_fmap option_map default].
  set (colors := filter (λ c, color_name c ≠ color_name (color_at ci)) COLORS).
  set (shapes := filter (λ s, shape_name s ≠ shape_name (shape_at si)) SHAPES).
  assert (length colors = 7%nat) as Hlc by (by apply remaining_colors).
  assert (length shapes = 7%nat) as Hls by (by apply remaining_shapes).
  destruct (shuffle_spec lcg colors (seededRandom trialSeed))
    as (remainingColors & -> & Hpc); [done|rewrite Hlc; by vm_compute|].
  cbn [mbind result_bind]. set (g1 := advance lcg _ _).
  assert (stream_unit lcg g1) as Hg1 by (by apply stream_unit_advance).
  destruct (shuffle_spec lcg shapes g1)
    as (remainingShapes & -> & Hps); [done|rewrite Hls; by vm_compute|].
  cbn [mbind result_bind]. set (g2 := advance lcg _ _).
  assert (stream_unit lcg g2) as Hg2 by (by apply stream_unit_advance).
  assert (length remainingColors = 7%nat) as Hlrc by (by rewrite Hpc).
  assert (length remainingShapes = 7%nat) as Hlrs by (by rewrite Hps).
  set (dummyC := {| color_name := ""; color_hex := "" |}).
  set (dummyS := {| shape_name := ""; shape_symbol := "" |}).
  set (mk := λ (_ : nat) (i : nat),
         make_pair (default dummyC (remainingColors !! i))
                   (default dummyS (remainingShapes !! i))).
  unfold mapi. rewrite (mapi_from_pure _ mk).
  2:{ intros k i Hi. apply lookup_seq in Hi as [-> Hk].
      assert (is_Some (remainingColors !! k)) as [c Hc]
        by (apply lookup_lt_is_Some; lia).
      assert (is_Some (remainingShapes !! k)) as [s Hs]
        by (apply lookup_lt_is_Some; lia).
      unfold get, mk. simpl. rewrite Hc, Hs. done. }
  cbn [mbind result_bind].
  assert (imap (λ k, mk (0 + k)%nat) (range 7) = zip_with make_pair remainingColors remainingShapes)
    as ->.
  { apply list_eq. intros k. rewrite list_lookup_imap, lookup_zip_with. unfold range.
    destruct (decide (k < 7)%nat) as [Hk|Hk].
    - rewrite lookup_seq_lt by done. simpl.
      assert (is_Some (remainingColors !! k)) as [c Hc]
        by (apply lookup_lt_is_Some; lia).
      assert (is_Some (remainingShapes !! k)) as [s Hs]
        by (apply lookup_lt_is_Some; lia).
      unfold mk. by rewrite Hc, Hs.
    - rewrite lookup_seq_ge by lia. simpl.
      by rewrite (lookup_ge_None_2 remainingColors) by lia. }
  set (target := Build_Pair _ _ _ _).
  destruct (shuffle_spec lcg (target :: zip_with make_pair remainingColors remainingShapes) g2)
    as (orderedPairs & -> & Hpo).
  { done. }
  { cbn [length]. rewrite length_zip_with, Hlrc, Hlrs. by vm_compute. }
  cbn [mbind result_bind].
  exists remainingColors, remainingShapes, orderedPairs.
  rewrite (mapi_from_pure _ pair_item) by done.
  done.
Qed.

Lemma combined_items_spec trialSeed ci si :
  ¬ degenerate_seed trialSeed → (ci < 8)%nat → (si < 8)%nat →
  ∃ its,
    buildCombinedItemsForTarget trialSeed (color_name (color_at ci)) (shape_name (shape_at si))
    = Ok its
    ∧ item_id <$> its = ITEM_IDS
    ∧ item_color <$> its ≡ₚ COLORS
    ∧ item_shape <$> its ≡ₚ SHAPES
    ∧ ∃ item, item ∈ its ∧ item_color item = color_at ci ∧ item_shape item = shape_at si.
Proof.
  intros Hseed Hci Hsi.
  destruct (combined_pairs_spec trialSeed ci si Hseed Hci Hsi)
    as (rc & rs & pairs & -> & Hrc & Hrs & Hp).
  assert (length rc = 7%nat) as Hlrc by (rewrite Hrc; by apply remaining_colors).
  assert (length rs = 7%nat) as Hlrs by (rewrite Hrs; by apply remaining_shapes).
  assert (length pairs = 8%nat) as Hlen.
  { rewrite Hp. cbn [length]. by rewrite length_zip_with, Hlrc, Hlrs. }
  eexists. split; [done|]. split; [|split; [|split]].
  - rewrite (fmap_imap_index _ _ item_label) by done. by rewrite Hlen.
  - rewrite (fmap_imap_forget _ _ pair_color) by done. rewrite Hp, fmap_cons.
    rewrite fmap_zip_with_l; [|by intros [] []|lia].
    replace (pair_color (make_pair (color_at ci) (shape_at si))) with (color_at ci)
      by (by destruct (color_at ci)).
    rewrite Hrc. by apply target_color_perm.
  - rewrite (fmap_imap_forget _ _ pair_shape) by done. rewrite Hp, fmap_cons.
    rewrite fmap_zip_with_r; [|by intros [] []|lia].
    replace (pair_shape (make_pair (color_at ci) (shape_at si))) with (shape_at si)
      by (by destruct (shape_at si)).
    rewrite Hrs. by apply target_shape_perm.
  - assert (make_pair (color_at ci) (shape_at si) ∈ pairs) as Hin
      by (rewrite Hp; by left).
    apply list_elem_of_lookup_1 in Hin as [k Hk].
    exists (pair_item k (make_pair (color_at ci) (shape_at si))). split.
    + apply list_elem_of_lookup_2 with k. by rewrite list_lookup_imap, Hk.
    + unfold item_color, item_shape. simpl.
      by destruct (color_at ci), (shape_at si).
Qed.

(** ** The trials of a plan, item by item *)

Lemma filter_none {A} (P : A → Prop) `{∀ x, Decision (P x)} (l : list A) :
  (∀ x, x ∈ l → ¬ P x) → filter P l = [].
Proof.
  induction l as [|x l IH]; intros Hl; [done|].
  rewrite filter_cons, decide_False by (apply Hl; by left).
  apply IH. intros y Hy. apply Hl. by right.
Qed.

Lemma filter_unique_key {A} `{EqDecision K} (key : A → K) (l : list A) (x : A) :
  NoDup (key <$> l) → x ∈ l → filter (λ y, key y = key x) l = [x].
Proof.
  induction l as [|z l IH]; intros Hnd Hin; [by apply elem_of_nil in Hin|].
  rewrite fmap_cons in Hnd. apply NoDup_cons in Hnd as [Hz Hnd].
  rewrite filter_cons. apply elem_of_cons in Hin as [->|Hin].
  - rewrite decide_True by done. f_equal. apply filter_none.
    intros y Hy Heq. apply Hz. rewrite <- Heq. by apply list_elem_of_fmap_2.
  - rewrite decide_False; [by apply IH|].
    intros Heq. apply Hz. rewrite Heq. by apply list_elem_of_fmap_2.
Qed.

Lemma plan_spec_indices args plan t trial :
  well_formed args → plan_spec args plan → trials plan !! t = Some trial →
  Z.of_nat t < practice_count args + measured_count args
  ∧ ∃ ci si, (ci < 8)%nat ∧ (si < 8)%nat ∧ trial_spec args t ci si trial.
Proof.
  intros Hwf (pc & ps & mc & ms & Hpc & Hps & Hmc & Hms & Hlen & Htrials) Ht.
  destruct (well_formed_bounds args Hwf) as [Hp Hm].
  split; [apply lookup_lt_Some in Ht; lia|].
  destruct (Htrials t trial Ht) as (ci & si & Hci & Hsi & Hspec).
  exists ci, si. split; [|split; [|done]].
  - apply list_elem_of_lookup_2, elem_of_app in Hci as [Hin|Hin];
      [exact (balanced_bound _ _ _ _ _ Hpc Hin)|exact (balanced_bound _ _ _ _ _ Hmc Hin)].
  - apply list_elem_of_lookup_2, elem_of_app in Hsi as [Hin|Hin];
      [exact (balanced_bound _ _ _ _ _ Hps Hin)|exact (balanced_bound _ _ _ _ _ Hms Hin)].
Qed.

Lemma plan_trial_items args plan t trial :
  well_formed args → generateBlockPlan args = Ok plan → trials plan !! t = Some trial →
  trial_id trial
  = "b" +:+ pretty (arg_blockIndex args) +:+ "_t" +:+ pretty (Z.of_nat t + 1)
  ∧ trial_blockIndex trial = arg_blockIndex args
  ∧ trial_blockOrder trial = arg_blockOrder args
  ∧ trial_condition trial = arg_condition args
  ∧ targetType trial = arg_condition args
  ∧ promptText trial = prompt_of (arg_condition args) (targetColor trial) (targetShape trial)
  ∧ trial_items_spec trial
  ∧ ∃ item,
      filter (λ item, item_id item = correctItemId trial) (items trial) = [item]
      ∧ colorName item = targetColor trial ∧ shapeName item = targetShape trial.
Proof.
  intros Hwf Hplan Ht.
  destruct (generateBlockPlan_spec args Hwf) as (plan' & Heq & _ & _ & _ & _ & _ & Hspec).
  rewrite Hplan in Heq. injection Heq as <-.
  destruct (plan_spec_indices args plan t trial Hwf Hspec Ht)
    as (Hlt & ci & si & Hci & Hsi & Htrial).
  destruct Htrial as (Hcond & _ & _ & Htc & Hts & _ & Huniq).
  destruct (generateBlockPlan_inv args plan Hplan) as (colors & shapes & _ & Hbuild).
  destruct (buildTrial_inv _ _ _ _ _ _ (Hbuild t trial Ht))
    as (Hid & Hbi & Hbo & _ & Htt & Hprompt & Hitems).
  assert (¬ degenerate_seed (trial_seed args t)) as Hseed.
  { destruct Hwf as (_ & _ & _ & _ & Hseeds). by apply Hseeds. }
  do 6 (split; [done|]).
  destruct Huniq as (item & Hfilter & Hcorrect).
  assert (matches_target (trial_condition trial) (targetColor trial)
            (targetShape trial) item = true ∧ item ∈ items trial) as [Hmatch Hin].
  { apply (list_elem_of_filter (λ item, matches_target (trial_condition trial)
             (targetColor trial) (targetShape trial) item = true)).
    rewrite Hfilter. by left. }
  assert (item_id <$> items trial = ITEM_IDS →
          filter (λ item0, item_id item0 = correctItemId trial) (items trial) = [item])
    as Hone.
  { intros Hids. rewrite <- Hcorrect. apply filter_unique_key; [|done].
    rewrite Hids. apply NoDup_ITEM_IDS. }
  unfold trial_items_spec. rewrite Hcond in *. unfold items_of in Hitems.
  destruct (arg_condition args) eqn:Hc.
  - destruct (color_items_spec _ Hseed) as (its & Heq & Hids & Hcolors & Hcircles).
    rewrite Hitems in Heq. injection Heq as <-.
    split; [done|]. exists item. split; [by apply Hone|].
    cbn [matches_target] in Hmatch. apply bool_decide_eq_true in Hmatch.
    split; [done|]. rewrite Hts. destruct (decide (color = color)) as [_|?]; [|done].
    by apply (proj1 (Forall_forall _ _) Hcircles item Hin).
  - destruct (shape_items_spec _ Hseed) as (its & Heq & Hids & Hshapes & Hblack).
    rewrite Hitems in Heq. injection Heq as <-.
    split; [done|]. exists item. split; [by apply Hone|].
    cbn [matches_target] in Hmatch. apply bool_decide_eq_true in Hmatch.
    split; [|done]. rewrite Htc. destruct (decide (shape = shape)) as [_|?]; [|done].
    by apply (proj1 (Forall_forall _ _) Hblack item Hin).
  - destruct (decide (combined = shape)) as [?|_]; [done|].
    destruct (decide (combined = color)) as [?|_]; [done|].
    rewrite Htc, Hts in Hitems.
    destruct (combined_items_spec _ ci si Hseed Hci Hsi)
      as (its & Heq & Hids & Hcolors & Hshapes & _).
    rewrite Hitems in Heq. injection Heq as <-.
    split; [done|]. exists item. split; [by apply Hone|].
    cbn [matches_target] in Hmatch.
    apply andb_true_iff in Hmatch as [H1%bool_decide_eq_true H2%bool_decide_eq_true].
    done.
Qed.

(** ** More on the generator *)

Lemma degenerate_seed_iff seed :
  degenerate_seed seed ↔ seed < 0 ∧ seed `mod` 2147483647 = 1.
Proof.
  unfold degenerate_seed. Z.quot_rem_to_equations. Z.div_mod_to_equations. lia.
Qed.

Lemma lcg_step_inj s1 s2 :
  lcg_state s1 → lcg_state s2 → (lcg s1).2 = (lcg s2).2 → s1 = s2.
Proof.
  unfold lcg_state, lcg. cbn [snd]. intros H1 H2.
  rewrite !Z.rem_mod_nonneg by lia. intros Heq.
  assert ((2147483647 | (s1 - s2) * 16807)) as Hdiv.
  { apply Z.mod_divide; [lia|]. rewrite Z.mul_sub_distr_r.
    rewrite Zminus_mod, Heq, Z.sub_diag. done. }
  rewrite Z.mul_comm in Hdiv. apply Z.gauss in Hdiv; [|done].
  destruct Hdiv as [k Hk]. nia.
Qed.

Lemma lcg_step_moves s : lcg_state s → (lcg s).2 ≠ s.
Proof.
  unfold lcg_state, lcg. cbn [snd]. intros Hs.
  rewrite Z.rem_mod_nonneg by lia. intros Heq.
  assert ((2147483647 | s * 16806)) as Hdiv.
  { apply Z.mod_divide; [lia|].
    replace (s * 16806) with (s * 16807 - s) by lia.
    rewrite Zminus_mod, Heq, (Z.mod_small s) by lia. by rewrite Z.sub_diag. }
  rewrite Z.mul_comm in Hdiv. apply Z.gauss in Hdiv; [|done].
  apply Z.divide_pos_le in Hdiv; lia.
Qed.

Lemma lcg_advance_inj n s1 s2 :
  lcg_state s1 → lcg_state s2 → advance lcg n s1 = advance lcg n s2 → s1 = s2.
Proof.
  revert s1 s2. induction n as [|n IH]; intros s1 s2 H1 H2; [done|].
  rewrite !advance_S. intros Heq. apply lcg_step_inj; [done|done|].
  apply IH; [by apply lcg_state_step|by apply lcg_state_step|done].
Qed.

(** ** The draws of [buildBalancedIndices] *)

Section Draws.
Context {G : Type} (rand : G → spec_float * G).

Lemma buildBalancedIndices_draws cats count g :
  stream_unit rand g →
  0 < cats ≤ MAX_ARRAY_LENGTH → 0 < count ≤ MAX_ARRAY_LENGTH →
  ∃ indices,
    buildBalancedIndices rand cats count g
    = Ok (indices, advance rand (balanced_draws cats count) g).
Proof.
  intros Hg Hlen Hcount. unfold buildBalancedIndices, balanced_draws.
  rewrite decide_False by lia.
  rewrite Z.rem_mod_nonneg by lia.
  pose proof (Z.div_mod count cats ltac:(lia)) as Hdm.
  pose proof (Z.mod_pos_bound count cats ltac:(lia)) as Hmod.
  assert (0 ≤ count `div` cats) as Hdiv by (apply Z.div_pos; lia).
  set (len := Z.to_nat cats). set (base := Z.to_nat (count `div` cats)).
  set (remainder := Z.to_nat (count `mod` cats)).
  set (blocks := flat_map (λ i, replicate base i) (seq 0 len)).
  assert (len * base + remainder = Z.to_nat count)%nat as Htotal
    by (unfold len, base, remainder; nia).
  assert (length blocks = (len * base)%nat) as Hlb by (unfold blocks; by rewrite length_blocks).
  destruct (decide (0 < remainder)%nat) as [Hrem|Hrem].
  - rewrite decide_False by (unfold remainder in Hrem; lia).
    destruct (shuffle_spec rand (seq 0 len) g Hg) as (shuffled & -> & Hperm).
    { rewrite length_seq. unfold len. lia. }
    cbn [mbind result_bind]. rewrite length_seq.
    set (g1 := advance rand (len - 1) g).
    set (extras := take remainder shuffled).
    assert (length extras = remainder) as Hlenx.
    { unfold extras. rewrite length_take_le; [done|].
      rewrite Hperm, length_seq. unfold remainder, len. lia. }
    destruct (shuffle_spec rand (blocks ++ extras) g1) as (indices & -> & Hperm2).
    { by apply stream_unit_advance. }
    { rewrite length_app, Hlenx, Hlb. lia. }
    exists indices. rewrite advance_add. do 3 f_equal.
    rewrite length_app, Hlenx, Hlb. lia.
  - rewrite decide_True by (unfold remainder in Hrem; lia).
    cbn [mbind result_bind].
    destruct (shuffle_spec rand blocks g Hg) as (indices & -> & Hperm).
    { rewrite Hlb. lia. }
    exists indices. do 3 f_equal. rewrite Hlb. lia.
Qed.

End Draws.

(** ** Practice targets *)

Lemma practice_targets args plan :
  well_formed args → plan_spec args plan →
  ∃ practiceColors practiceShapes,
    let p := practice_count args in
    balanced 8 (Z.to_nat (p `div` 8)) (Z.to_nat (p `mod` 8)) practiceColors
    ∧ balanced 8 (Z.to_nat (p `div` 8)) (Z.to_nat (p `mod` 8)) practiceShapes
    ∧ targetColor <$> filter (λ trial, isPractice trial = true) (trials plan)
      = (λ ci, if decide (arg_condition args = shape) then "black"
               else color_name (color_at ci)) <$> practiceColors
    ∧ targetShape <$> filter (λ trial, isPractice trial = true) (trials plan)
      = (λ si, if decide (arg_condition args = color) then "circle"
               else shape_name (shape_at si)) <$> practiceShapes.
Proof.
  intros [Hp Hm]%well_formed_bounds Hplan.
  rewrite (plan_practice args plan) by (done || lia).
  destruct Hplan as (pc & ps & mc & ms & Hpc & Hps & Hmc & Hms & Hlen & Htrials).
  cbv zeta in *.
  pose proof (balanced_length_Z _ _ (proj1 Hp) Hpc) as Hlpc.
  pose proof (balanced_length_Z _ _ (proj1 Hp) Hps) as Hlps.
  set (p' := Z.to_nat (practice_count args)) in *.
  exists pc, ps. split; [done|]. split; [done|]. split.
  - apply list_eq. intros k. rewrite !list_lookup_fmap.
    destruct (decide (k < p')%nat) as [Hk|Hk].
    + rewrite lookup_take_lt by done.
      destruct (trials plan !! k) as [trial|] eqn:Ht.
      * destruct (Htrials _ trial Ht) as (ci & si & Hci & _ & Hspec).
        destruct Hspec as (_ & _ & _ & Htc & _).
        rewrite lookup_app_l in Hci by lia. rewrite Hci. simpl. by rewrite Htc.
      * apply lookup_ge_None_1 in Ht. lia.
    + rewrite lookup_take_ge by lia. rewrite lookup_ge_None_2; [done|]. lia.
  - apply list_eq. intros k. rewrite !list_lookup_fmap.
    destruct (decide (k < p')%nat) as [Hk|Hk].
    + rewrite lookup_take_lt by done.
      destruct (trials plan !! k) as [trial|] eqn:Ht.
      * destruct (Htrials _ trial Ht) as (ci & si & _ & Hsi & Hspec).
        destruct Hspec as (_ & _ & _ & _ & Hts & _).
        rewrite lookup_app_l in Hsi by lia. rewrite Hsi. simpl. by rewrite Hts.
      * apply lookup_ge_None_1 in Ht. lia.
    + rewrite lookup_take_ge by lia. rewrite lookup_ge_None_2; [done|]. lia.
Qed.

Lemma balanced_few_NoDup len remainder indices :
  balanced len 0 remainder indices → NoDup indices.
Proof.
  intros (extras & Hp & Hnd & _ & _).
  assert (flat_map (λ i : nat, replicate 0 i) (seq 0 len) = []) as Hnil.
  { apply nil_length_inv. rewrite length_blocks. lia. }
  rewrite Hnil in Hp. by rewrite Hp.
Qed.

(** ** Trial ids *)

Lemma trial_id_inj (bi : Z) (t1 t2 : nat) :
  "b" +:+ pretty bi +:+ "_t" +:+ pretty (Z.of_nat t1 + 1)
  = "b" +:+ pretty bi +:+ "_t" +:+ pretty (Z.of_nat t2 + 1) →
  t1 = t2.
Proof.
  intros H. do 3 apply String.app_inj in H. apply (inj pretty) in H. lia.
Qed.

Lemma plan_trial_ids_NoDup args plan :
  well_formed args → generateBlockPlan args = Ok plan → NoDup (trial_id <$> trials plan).
Proof.
  intros Hwf Hplan. apply NoDup_alt. intros i j id.
  rewrite !list_lookup_fmap.
  destruct (trials plan !! i) as [ti|] eqn:Hi; [|done].
  destruct (trials plan !! j) as [tj|] eqn:Hj; [|done].
  simpl. intros [= <-] [= Heq].
  destruct (plan_trial_items args plan i ti Hwf Hplan Hi) as (Hidi & _).
  destruct (plan_trial_items args plan j tj Hwf Hplan Hj) as (Hidj & _).
  rewrite Hidi, Hidj in Heq. symmetry. by apply trial_id_inj in Heq.
Qed.

(** ** The spread [assertBalancedTargets] returns *)

Lemma min_list_le ns n : n ∈ ns → (min_list ns ≤ n)%nat.
Proof.
  destruct ns as [|a l]; [by intros ?%elem_of_nil|]. unfold min_list.
  assert ((foldr Nat.min a l ≤ a)%nat ∧ ∀ x, x ∈ l → (foldr Nat.min a l ≤ x)%nat) as [Ha Hl].
  { induction l as [|k l [IH1 IH2]]; simpl.
    - split; [done|]. by intros x ?%elem_of_nil.
    - split; [lia|]. intros x [->|Hx]%elem_of_cons; [lia|]. specialize (IH2 x Hx). lia. }
  intros [->|Hn]%elem_of_cons; [done|by apply Hl].
Qed.

Lemma count_targets_values targets v :
  v ∈ (map_to_list (count_targets targets)).*2 ↔ ∃ c, c ∈ targets ∧ v = occ c targets.
Proof.
  split.
  - intros ([c v'] & -> & Hin)%list_elem_of_fmap.
    apply elem_of_map_to_list in Hin. rewrite count_targets_lookup in Hin.
    destruct (decide (c ∈ targets)); [|done]. exists c. split; [done|]. by injection Hin.
  - intros (c & Hc & ->). apply list_elem_of_fmap. exists (c, occ c targets).
    split; [done|]. apply elem_of_map_to_list. rewrite count_targets_lookup.
    by rewrite decide_True.
Qed.

Lemma spread_of_counts targets :
  targets ≠ [] →
  ∃ cmax cmin,
    cmax ∈ targets ∧ cmin ∈ targets
    ∧ (∀ c, c ∈ targets → (occ cmin targets ≤ occ c targets ≤ occ cmax targets)%nat)
    ∧ spread_of (map_to_list (count_targets targets)).*2
      = Spread (Z.of_nat (occ cmax targets) - Z.of_nat (occ cmin targets)).
Proof.
  intros Hne. set (values := (map_to_list (count_targets targets)).*2).
  assert (values ≠ []) as Hvne.
  { destruct targets as [|c targets]; [done|].
    assert (occ c (c :: targets) ∈ values) as Hin
      by (apply count_targets_values; exists c; split; [by left|done]).
    intros Hnil. rewrite Hnil in Hin. by apply elem_of_nil in Hin. }
  destruct (proj1 (count_targets_values targets _) (max_list_elem_of values Hvne))
    as (cmax & Hcmax & Hmax).
  destruct (proj1 (count_targets_values targets _) (min_list_elem_of values Hvne))
    as (cmin & Hcmin & Hmin).
  exists cmax, cmin. split; [done|]. split; [done|]. split.
  - intros c Hc.
    assert (occ c targets ∈ values) as Hin by (apply count_targets_values; by exists c).
    rewrite <- Hmax, <- Hmin. split; [by apply min_list_le|by apply max_list_elem_of_le].
  - unfold spread_of. destruct values as [|v values'] eqn:Hv; [done|].
    by rewrite Hmax, Hmin.
Qed.

Lemma spread_of_constant (c : string) (indices : list nat) :
  indices ≠ [] →
  spread_of (map_to_list (count_targets ((λ _, c) <$> indices))).*2 = Spread 0.
Proof.
  intros Hne.
  destruct (spread_of_counts ((λ _, c) <$> indices)) as (c1 & c2 & H1 & H2 & _ & ->).
  { by destruct indices. }
  apply list_elem_of_fmap in H1 as (? & -> & _). apply list_elem_of_fmap in H2 as (? & -> & _).
  f_equal. lia.
Qed.

Section Spread.
Context (name : nat → string).
Hypothesis name_inj : ∀ i j, (i < 8)%nat → (j < 8)%nat → name i = name j → i = j.
Context (base remainder : nat) (indices : list nat).
Hypothesis Hbal : balanced 8 base remainder indices.

Lemma spread_of_balanced :
  (remainder < 8)%nat → indices ≠ [] →
  spread_of (map_to_list (count_targets (name <$> indices))).*2
  = Spread (if decide (0 < base ∧ 0 < remainder)%nat then 1 else 0).
Proof.
  intros Hrem Hne.
  destruct (spread_of_counts (name <$> indices)) as (c1 & c2 & H1 & H2 & Hall & ->).
  { by destruct indices. }
  f_equal.
  apply list_elem_of_fmap in H1 as (k1 & -> & Hk1). apply list_elem_of_fmap in H2 as (k2 & -> & Hk2).
  pose proof (balanced_bound _ _ _ _ _ Hbal Hk1) as Hb1.
  pose proof (balanced_bound _ _ _ _ _ Hbal Hk2) as Hb2.
  assert (∀ k, k ∈ indices → (1 ≤ occ k indices)%nat) as Hpos.
  { intros k Hk. destruct (occ k indices) eqn:Hocc; [|lia].
    unfold occ in Hocc. apply nil_length_inv in Hocc.
    assert (k ∈ filter (eq k) indices) as Hin by (by apply list_elem_of_filter).
    rewrite Hocc in Hin. by apply elem_of_nil in Hin. }
  assert (∀ k, (1 ≤ occ k indices)%nat → k ∈ indices) as Hin.
  { intros k Hk. destruct (decide (k ∈ indices)) as [?|Hn]; [done|].
    rewrite occ_not_elem in Hk by done. lia. }
  assert (∀ k, (k < 8)%nat →
            (occ (name k2) (name <$> indices) ≤ occ k indices
             ≤ occ (name k1) (name <$> indices))%nat ∨ occ k indices = 0%nat) as Hrange.
  { intros k Hk. destruct (decide (k ∈ indices)) as [Hkin|Hn].
    - left. rewrite <- (marginal_occ name name_inj _ _ _ Hbal k Hk). apply Hall.
      by apply list_elem_of_fmap_2.
    - right. by apply occ_not_elem. }
  rewrite !(marginal_occ name name_inj _ _ _ Hbal) in * by done.
  destruct (balanced_occ _ _ _ _ k1 Hbal Hb1) as [Ho1|Ho1];
    destruct (balanced_occ _ _ _ _ k2 Hbal Hb2) as [Ho2|Ho2].
  - (* both at the base: no category used has an extra *)
    destruct (decide (0 < base ∧ 0 < remainder)%nat) as [[Hbase Hr]|Hn]; [|lia].
    exfalso. destruct (balanced_occ_extras _ _ _ _ Hbal) as [Hex _].
    destruct (filter (λ k, occ k indices = S base) (seq 0 8)) as [|k l] eqn:Hf;
      [simpl in Hex; lia|].
    assert (k ∈ filter (λ k, occ k indices = S base) (seq 0 8)) as Hk
      by (rewrite Hf; by left).
    apply list_elem_of_filter in Hk as [Hk Hk8%elem_of_seq].
    destruct (Hrange k ltac:(lia)); lia.
  - pose proof (Hpos k1 Hk1). pose proof (Hpos k2 Hk2).
    destruct (Hrange k1 Hb1); lia.
  - destruct (decide (0 < base ∧ 0 < remainder)%nat) as [[Hbase Hr]|Hn]; [lia|].
    exfalso. pose proof (Hpos k2 Hk2).
    assert (remainder = 0)%nat as -> by lia.
    rewrite (balanced_exact _ _ _ _ Hbal Hb1) in Ho1. lia.
  - (* both have an extra: no category used is at the base *)
    destruct (decide (0 < base ∧ 0 < remainder)%nat) as [[Hbase Hr]|Hn]; [|lia].
    exfalso. destruct (balanced_occ_extras _ _ _ _ Hbal) as [_ Hex].
    destruct (filter (λ k, occ k indices = base) (seq 0 8)) as [|k l] eqn:Hf;
      [simpl in Hex; lia|].
    assert (k ∈ filter (λ k, occ k indices = base) (seq 0 8)) as Hk
      by (rewrite Hf; by left).
    apply list_elem_of_filter in Hk as [Hk Hk8%elem_of_seq].
    destruct (Hrange k ltac:(lia)); lia.
Qed.

End Spread.

(** ** Labels and orders *)

Lemma string_length_app s1 s2 :
  String.length (s1 +:+ s2) = (String.length s1 + String.length s2)%nat.
Proof.
  induction s1 as [|a s1 IH]; [done|].
  change (String a s1 +:+ s2) with (String a (s1 +:+ s2)). simpl. by rewrite IH.
Qed.

Lemma orderToLabel_cons c order :
  orderToLabel (c :: order) = condition_letter c +:+ orderToLabel order.
Proof. destruct order; by destruct c. Qed.

Lemma orderToLabel_inj o1 o2 : orderToLabel o1 = orderToLabel o2 → o1 = o2.
Proof.
  revert o2. induction o1 as [|c1 o1 IH]; intros [|c2 o2].
  - done.
  - rewrite orderToLabel_cons. by destruct c2.
  - rewrite orderToLabel_cons. by destruct c1.
  - rewrite !orderToLabel_cons. intros Heq.
    assert (c1 = c2 ∧ orderToLabel o1 = orderToLabel o2) as [-> Htl]
      by (destruct c1, c2; by simplify_eq/=).
    f_equal. by apply IH.
Qed.

Lemma orderToLabel_length order : String.length (orderToLabel order) = length order.
Proof.
  induction order as [|c order IH]; [done|].
  rewrite orderToLabel_cons.
  rewrite string_length_app, IH. by destruct c.
Qed.

Lemma latin_three_consecutive a order :
  0 ≤ a → order ∈ LATIN_SQUARE_3 →
  occ (Some order) (getLatinSquareOrder <$> seqZ a 3) = 1%nat.
Proof.
  intros Ha Hin.
  change (seqZ a 3) with [0 + a; 1 + a; 2 + a].
  destruct (getLatinSquareOrder_nonneg (0 + a) ltac:(lia)) as [H0 _].
  destruct (getLatinSquareOrder_nonneg (1 + a) ltac:(lia)) as [H1 _].
  destruct (getLatinSquareOrder_nonneg (2 + a) ltac:(lia)) as [H2 _].
  cbn [fmap list_fmap]. rewrite H0, H1, H2.
  assert (a `mod` 3 = 0 ∨ a `mod` 3 = 1 ∨ a `mod` 3 = 2) as Hmod
    by (pose proof (Z.mod_pos_bound a 3); lia).
  assert ((0 + a) `mod` 3 = a `mod` 3) as -> by (f_equal; lia).
  assert ((1 + a) `mod` 3 = (a `mod` 3 + 1) `mod` 3) as ->
    by (rewrite Z.add_comm; symmetry; apply Zplus_mod_idemp_l).
  assert ((2 + a) `mod` 3 = (a `mod` 3 + 2) `mod` 3) as ->
    by (rewrite Z.add_comm; symmetry; apply Zplus_mod_idemp_l).
  unfold LATIN_SQUARE_3 in Hin.
  repeat (apply elem_of_cons in Hin as [->|Hin]); [| | |by apply elem_of_nil in Hin];
    destruct Hmod as [-> | [-> | ->]]; by vm_compute.
Qed.

Lemma latin_consecutive a (k : nat) order :
  0 ≤ a → order ∈ LATIN_SQUARE_3 →
  occ (Some order) (getLatinSquareOrder <$> seqZ a (3 * Z.of_nat k)) = k.
Proof.
  intros Ha Hin. revert a Ha. induction k as [|k IH]; intros a Ha; [done|].
  replace (3 * Z.of_nat (S k)) with (3 + 3 * Z.of_nat k) by lia.
  rewrite seqZ_app by lia. rewrite fmap_app, occ_app.
  rewrite latin_three_consecutive by done. rewrite IH by lia. done.
Qed.

(** ** A whole session *)

Lemma generateAllBlocks_spec n :
  0 ≤ n ≤ MAX_PARTICIPANT_NUMBER →
  ∃ order blocks,
    getLatinSquareOrder n = Some order
    ∧ order ∈ LATIN_SQUARE_3
    ∧ generateAllBlocks n = Ok blocks
    ∧ length blocks = 3%nat
    ∧ ∀ (i : nat) block, blocks !! i = Some block →
        ∃ c, order !! i = Some c
          ∧ well_formed
              {| arg_participantNumber := n; arg_blockIndex := Z.of_nat i;
                 arg_blockOrder := Z.of_nat i + 1; arg_condition := c;
                 arg_practiceTrials := Some 3; arg_measuredTrials := Some 10 |}
          ∧ generateBlockPlan
              {| arg_participantNumber := n; arg_blockIndex := Z.of_nat i;
                 arg_blockOrder := Z.of_nat i + 1; arg_condition := c;
                 arg_practiceTrials := Some 3; arg_measuredTrials := Some 10 |}
            = Ok block.
Proof.
  intros [Hn Hmax]. destruct (getLatinSquareOrder_nonneg n Hn) as [Horder Hmod].
  assert (∃ order, getLatinSquareOrder n = Some order ∧ length order = 3%nat
                   ∧ order ∈ LATIN_SQUARE_3)
    as (order & Ho & Hlo & Hin).
  { rewrite Horder. destruct Hmod as [-> | [-> | ->]]; eexists; (split; [done|]);
      (split; [done|]); unfold LATIN_SQUARE_3; repeat first [by left|right]. }
  exists order. unfold generateAllBlocks. rewrite Ho. unfold mapi.
  set (mk := λ (index : nat) (c : Condition),
         {| arg_participantNumber := n; arg_blockIndex := Z.of_nat index;
            arg_blockOrder := Z.of_nat index + 1; arg_condition := c;
            arg_practiceTrials := Some DEFAULT_PRACTICE_TRIALS;
            arg_measuredTrials := Some DEFAULT_MEASURED_TRIALS |}).
  assert (∀ i c, (i < 3)%nat → well_formed (mk i c)) as Hwf.
  { intros i c Hi. unfold MAX_PARTICIPANT_NUMBER in Hmax.
    apply nonneg_well_formed;
      unfold mk, block_seed, practice_count, measured_count; simpl;
      unfold DEFAULT_PRACTICE_TRIALS, DEFAULT_MEASURED_TRIALS, MAX_ARRAY_LENGTH;
      change (2 ^ 53) with 9007199254740992; lia. }
  destruct (mapi_from_Ok (λ index c, generateBlockPlan (mk index c)) 0 order)
    as (blocks & Heq & Hlen & Hblocks).
  { intros k c Hk. apply lookup_lt_Some in Hk.
    assert (0 + k < 3)%nat as Hk3 by (simpl; lia).
    destruct (generateBlockPlan_spec (mk (0 + k)%nat c) (Hwf _ c Hk3))
      as (plan & ? & _). by exists plan. }
  exists blocks. split; [done|]. split; [done|]. split; [exact Heq|]. split; [lia|].
  intros i block Hi. destruct (Hblocks i block Hi) as (c & Hc & Hgen).
  change (0 + i)%nat with i in Hgen. exists c. split; [done|].
  split; [apply (Hwf i c); apply lookup_lt_Some in Hc; lia|exact Hgen].
Qed.

Lemma createParticipantNumber_range random :
  Float64.in_unit_interval random →
  ∃ n, createParticipantNumber random = Some n ∧ 100000 ≤ n ≤ 999999.
Proof.
  intros Hr. unfold createParticipantNumber.
  destruct (Float64Facts.floor_mul_unit random 900000 Hr) as (j & -> & Hj).
  { change (2 ^ 53) with 9007199254740992. lia. }
  exists (j + 100000). split; [done|lia].
Qed.

Lemma session_block_ids n i c block trial :
  (i < 3)%nat →
  well_formed
    {| arg_participantNumber := n; arg_blockIndex := Z.of_nat i;
       arg_blockOrder := Z.of_nat i + 1; arg_condition := c;
       arg_practiceTrials := Some 3; arg_measuredTrials := Some 10 |} →
  generateBlockPlan
    {| arg_participantNumber := n; arg_blockIndex := Z.of_nat i;
       arg_blockOrder := Z.of_nat i + 1; arg_condition := c;
       arg_practiceTrials := Some 3; arg_measuredTrials := Some 10 |} = Ok block →
  trial ∈ trials block →
  String.get 1 (trial_id trial) = String.get 0 (pretty (Z.of_nat i)).
Proof.
  intros Hi Hwf Hgen (t & Ht)%list_elem_of_lookup_1.
  destruct (plan_trial_items _ block t trial Hwf Hgen Ht) as (-> & _).
  cbn [arg_blockIndex]. by destruct i as [|[|[|?]]]; [| | |lia].
Qed.

(** ** Facts on strings *)

Lemma string_app_nil_r s : s +:+ "" = s.
Proof. induction s as [|a s IH]; [done|]. change (String a s +:+ "") with (String a (s +:+ "")). by rewrite IH. Qed.

Lemma string_app_assoc s1 s2 s3 : (s1 +:+ s2) +:+ s3 = s1 +:+ (s2 +:+ s3).
Proof.
  induction s1 as [|a s1 IH]; [done|].
  change ((String a s1 +:+ s2) +:+ s3) with (String a ((s1 +:+ s2) +:+ s3)).
  by rewrite IH.
Qed.

Lemma string_app_cons a s1 s2 : String a s1 +:+ s2 = String a (s1 +:+ s2).
Proof. done. Qed.

Lemma string_snoc_app field a text :
  (field +:+ String a "") +:+ text = field +:+ String a text.
Proof. by rewrite string_app_assoc. Qed.

Lemma includes_cons text a c :
  includes (String a text) c = bool_decide (a = c) || includes text c.
Proof. done. Qed.

Lemma plain_cons a text :
  plain (String a text) ↔ (a ≠ COMMA ∧ a ≠ QUOTE ∧ a ≠ NEWLINE) ∧ plain text.
Proof.
  unfold plain. rewrite !includes_cons, !orb_false_iff, !bool_decide_eq_false. tauto.
Qed.

(** ** Reading what [toCsv] writes *)

Lemma readCsv_from_delimiter mode field record records rest :
  mode ≠ Quoted → at_delimiter rest →
  readCsv_from mode field record records rest
  = readCsv_from Unquoted field record records rest.
Proof.
  intros Hmode Hrest. destruct rest as [|a rest]; [done|].
  cbn [readCsv_from]. destruct Hrest as [-> | ->]; by destruct mode.
Qed.

Lemma readCsv_from_plain mode field record records text rest :
  mode = FieldStart ∨ mode = Unquoted → plain text → at_delimiter rest →
  readCsv_from mode field record records (text +:+ rest)
  = readCsv_from Unquoted (field +:+ text) record records rest.
Proof.
  intros Hmode Hplain Hrest. revert mode field Hmode.
  induction text as [|a text IH]; intros mode field Hmode.
  - rewrite string_app_nil_r. apply readCsv_from_delimiter; [|done].
    by destruct Hmode as [-> | ->].
  - apply plain_cons in Hplain as [(Hc & Hq & Hn) Hplain].
    rewrite string_app_cons. cbn [readCsv_from].
    rewrite !decide_False by done.
    rewrite <- (string_snoc_app field a text).
    destruct Hmode as [-> | ->]; apply IH; auto.
Qed.

Lemma readCsv_from_quoted field record records text rest :
  at_delimiter rest →
  readCsv_from Quoted field record records
    (replaceAll text QUOTE (String QUOTE (String QUOTE "")) +:+ String QUOTE rest)
  = readCsv_from Unquoted (field +:+ text) record records rest.
Proof.
  intros Hrest. revert field. induction text as [|a text IH]; intros field.
  - rewrite string_app_nil_r. cbn [replaceAll]. change ("" +:+ ?s) with s.
    cbn [readCsv_from]. rewrite decide_True by done.
    by apply readCsv_from_delimiter.
  - cbn [replaceAll]. rewrite <- (string_snoc_app field a text). destruct (decide (a = QUOTE)) as [->|Hq].
    + rewrite !string_app_cons. change ("" +:+ ?s) with s.
      cbn [readCsv_from]. rewrite decide_True by done.
      rewrite decide_False by done. rewrite decide_False by done.
      rewrite decide_True by done. apply IH.
    + rewrite string_app_cons. cbn [readCsv_from]. rewrite decide_False by done. apply IH.
Qed.

Section CsvFacts.
Context {V : Type} (String_of : V → string).

Lemma readCsv_from_field value record records rest :
  at_delimiter rest →
  readCsv_from FieldStart "" record records (escapeCsvValue String_of value +:+ rest)
  = readCsv_from Unquoted (text_of String_of value) record records rest.
Proof.
  intros Hrest. unfold escapeCsvValue. set (text := text_of String_of value).
  destruct (includes text COMMA || includes text QUOTE || includes text NEWLINE) eqn:Hinc.
  - rewrite string_app_cons. cbn [readCsv_from].
    rewrite decide_False by done. rewrite decide_False by done.
    rewrite decide_True by done.
    rewrite string_app_assoc, string_app_cons. change ("" +:+ rest) with rest.
    by rewrite readCsv_from_quoted.
  - apply orb_false_iff in Hinc as [[H1 H2]%orb_false_iff H3].
    by rewrite readCsv_from_plain by (done || by left).
Qed.

End CsvFacts.

Lemma join_cons_cons x y parts sep :
  join (x :: y :: parts) sep = x +:+ sep +:+ join (y :: parts) sep.
Proof. done. Qed.

Lemma reads_as_plain text : plain text → reads_as text text.
Proof.
  intros Hplain record records rest Hrest.
  by rewrite readCsv_from_plain by (done || by left).
Qed.

Lemma readCsv_from_record written texts record records rest :
  Forall2 reads_as written texts → written ≠ [] → at_delimiter rest →
  readCsv_from FieldStart "" record records (join written (String COMMA "") +:+ rest)
  = readCsv_end (reverse texts ++ record) records rest.
Proof.
  intros Hall. revert record. induction Hall as [|w t ws ts Hw Hws IH]; intros record Hne Hrest.
  - done.
  - destruct Hws as [|w' t' ws' ts' Hw' Hws'].
    + change (join [w] (String COMMA "")) with w. rewrite Hw by done.
      by rewrite reverse_singleton.
    + rewrite join_cons_cons, !string_app_assoc, string_app_cons.
      change ("" +:+ ?s) with s. rewrite Hw by (by left).
      cbn [readCsv_from]. rewrite decide_True by done.
      rewrite IH by done. rewrite (reverse_cons (t' :: ts') t), <- app_assoc. done.
Qed.

Lemma readCsv_from_lines written texts records :
  Forall2 (λ ws ts, Forall2 reads_as ws ts ∧ ws ≠ []) written texts → written ≠ [] →
  readCsv_from FieldStart "" [] records
    (join ((λ ws, join ws (String COMMA "")) <$> written) (String NEWLINE ""))
  = reverse (reverse texts ++ records).
Proof.
  intros Hall. revert records.
  induction Hall as [|ws ts wss tss [Hws Hne] Hwss IH]; intros records Hwne; [done|].
  assert (∃ field record, reverse ts ++ [] = field :: record) as (field & record & Hts).
  { rewrite app_nil_r. destruct Hws as [|w t ws ts Hw Hws]; [done|].
    rewrite reverse_cons. destruct (reverse ts); by eexists _, _. }
  assert (reverse (field :: record) = ts) as Hrev.
  { rewrite <- Hts, app_nil_r. apply reverse_involutive. }
  destruct Hwss as [|ws' ts' wss' tss' Hws' Hwss'].
  - cbn [fmap list_fmap]. change (join [?x] (String NEWLINE "")) with x.
    rewrite <- (string_app_nil_r (join ws _)).
    rewrite (readCsv_from_record ws ts) by done. rewrite Hts. cbn [readCsv_end readCsv_from].
    rewrite Hrev. by rewrite reverse_singleton.
  - rewrite !fmap_cons, join_cons_cons, string_app_cons. change ("" +:+ ?s) with s.
    rewrite (readCsv_from_record ws ts) by (done || by right). rewrite Hts.
    cbn [readCsv_end readCsv_from].
    rewrite decide_False by done. rewrite decide_True by done. rewrite Hrev.
    pose proof (IH (ts :: records) ltac:(done)) as IH'. rewrite fmap_cons in IH'.
    rewrite IH'. rewrite (reverse_cons (ts' :: tss') ts), <- app_assoc. done.
Qed.

Section CsvTable.
Context {V : Type} (String_of : V → string).

Lemma reads_as_escaped (value : option V) :
  reads_as (escapeCsvValue String_of value) (text_of String_of value).
Proof. intros record records rest Hrest. by apply readCsv_from_field. Qed.

Lemma toCsv_read (first : Row) (rest : list Row) :
  Object_keys first ≠ [] → Forall plain (Object_keys first) →
  readCsv (toCsv String_of (first :: rest))
  = Object_keys first :: cells String_of (Object_keys first) (first :: rest).
Proof.
  intros Hne Hplain. unfold toCsv, readCsv. cbv zeta.
  set (headers := Object_keys first) in *. set (rows := first :: rest).
  set (written := headers :: ((λ record : Row,
            (λ key, escapeCsvValue String_of (property record key)) <$> headers) <$> rows)).
  assert (join headers (String COMMA "")
          :: ((λ record : Row,
                 join ((λ key, escapeCsvValue String_of (property record key)) <$> headers)
                   (String COMMA "")) <$> rows)
          = (λ ws, join ws (String COMMA "")) <$> written) as ->.
  { unfold written. rewrite fmap_cons. f_equal. by rewrite <- list_fmap_compose. }
  rewrite (readCsv_from_lines written (headers :: cells String_of headers rows)).
  - by rewrite app_nil_r, reverse_involutive.
  - unfold written. constructor.
    + split; [|done]. apply Forall2_same_length_lookup. split; [done|].
      intros i w t Hw Ht. rewrite Hw in Ht. injection Ht as <-.
      apply reads_as_plain. by eapply Forall_lookup_1.
    + unfold cells. apply Forall2_fmap, Forall_Forall2_diag, Forall_forall.
      intros record _. split.
      * apply Forall2_fmap, Forall_Forall2_diag, Forall_forall.
        intros key _. apply reads_as_escaped.
      * by destruct headers.
  - done.
Qed.

End CsvTable.

(** ** The mean of the summary *)

Module MeanFacts.
Import Float64 Float64Facts.

Lemma renorm_53_value m1 e1 :
  2 ^ 52 ≤ m1 ≤ 2 ^ 53 → -1000 ≤ e1 ≤ 900 →
  ∃ m e, renorm false m1 e1 = S754_finite false m e
    ∧ Z.pos m * 2 ^ (e - e1) = m1 ∧ e1 ≤ e ≤ e1 + 1.
Proof.
  intros Hm He. destruct (decide (m1 < 2 ^ 53)) as [Hlt|Hge].
  - assert (Zdigits2 m1 = 53) as Hd by (apply Zdigits2_unique; simpl; lia).
    assert (fexp (Zdigits2 m1 + e1) = e1) as Hc by (rewrite Hd; unfold fexp; lia).
    exists (Z.to_pos m1), e1. rewrite renorm_canonical by lia.
    split; [done|]. rewrite Z.sub_diag, Z2Pos.id by lia. lia.
  - assert (m1 = 2 ^ 53) as -> by lia.
    exists (Z.to_pos (2 ^ 52)), (e1 + 1). split; [|split; [|lia]].
    + unfold renorm. change (Zdigits2 (2 ^ 53)) with 54.
      assert (fexp (54 + e1) - e1 = 1) as -> by (unfold fexp; lia).
      destruct (decide (0 < 1)); [|lia].
      change (2 ^ 53 / 2 ^ 1) with (Z.pos (Z.to_pos (2 ^ 52))). cbv iota.
      assert (e1 + 1 ≤ 971) as Hle by lia. apply Z.leb_le in Hle. by rewrite Hle.
    + replace (e1 + 1 - e1) with 1 by lia. done.
Qed.

(** Rounding to the nearest integer sees through the rounding of the
    division: an integer [m1] next to the scaled quotient rounds like the
    quotient itself, the scale being finer than the denominator. *)
Lemma round_quotient a b H m1 :
  0 ≤ a → 0 < b → b < H →
  a * (2 * H) / b ≤ m1 ≤ a * (2 * H) / b + 1 →
  (m1 + H) / (2 * H) = (2 * a + b) / (2 * b).
Proof.
  intros Ha Hb HH Hm1.
  set (Q := a * (2 * H) / b) in *.
  assert (Q * b ≤ a * (2 * H) < (Q + 1) * b) as HQ.
  { unfold Q. pose proof (Z.mul_div_le (a * (2 * H)) b Hb).
    pose proof (Z.mul_succ_div_gt (a * (2 * H)) b Hb). lia. }
  set (K := (2 * a + b) / (2 * b)).
  assert (K * (2 * b) ≤ 2 * a + b < (K + 1) * (2 * b)) as HK.
  { unfold K. pose proof (Z.mul_div_le (2 * a + b) (2 * b) ltac:(lia)).
    pose proof (Z.mul_succ_div_gt (2 * a + b) (2 * b) ltac:(lia)). lia. }
  assert (0 ≤ K) as HK0 by (apply Z.div_pos; lia).
  clearbody Q K.
  assert ((2 * K - 1) * H ≤ Q) as Hlow.
  { destruct (decide ((2 * K - 1) * H ≤ Q)) as [?|Hn]; [done|]. exfalso.
    assert ((Q + 1) * b ≤ (2 * K - 1) * H * b) by nia.
    assert (a * (2 * H) < (2 * K - 1) * b * H) by lia.
    assert ((2 * K - 1) * b * H ≤ 2 * a * H) by nia. lia. }
  assert (Q + 1 < (2 * K + 1) * H) as Hhigh.
  { destruct (decide (Q + 1 < (2 * K + 1) * H)) as [?|Hn]; [done|]. exfalso.
    assert (((2 * K + 1) * H - 1) * b ≤ Q * b) by nia.
    assert (2 * a * H ≤ ((2 * K + 1) * b - 1) * H) by nia.
    nia. }
  symmetry. apply (Z.div_unique _ _ _ (m1 + H - K * (2 * H))); [lia|lia].
Qed.

Lemma Zdigits2_53 m : 2 ^ 52 ≤ Z.pos m < 2 ^ 53 → Zdigits2 (Z.pos m) = 53.
Proof. intros Hm. apply Zdigits2_unique; [done|]. simpl. lia. Qed.

Lemma div_round_exact a b :
  0 ≤ a < 2 ^ 50 → 1 ≤ b < 2 ^ 53 →
  Math_round (div (of_Z a) (of_Z b)) = Some ((2 * a + b) / (2 * b)).
Proof.
  intros Ha Hb.
  destruct (of_Z_pos b Hb) as (mb & Hofb & HB & HBb & Hdb). rewrite Hofb.
  destruct (decide (a = 0)) as [->|Hne].
  { simpl. f_equal. symmetry. apply Z.div_small. lia. }
  destruct (of_Z_pos a) as (ma & -> & HA & HAb & Hda).
  { change (2 ^ 53) with 9007199254740992. change (2 ^ 50) with 1125899906842624 in Ha. lia. }
  set (da := Zdigits2 a) in *. set (db := Zdigits2 b) in *.
  assert (da ≤ 50) as Hda50 by (apply Zdigits2_le; lia).
  unfold div, SFdiv. cbn [xorb].
  rewrite div_core_spec; [|by apply Zdigits2_53|by apply Zdigits2_53|lia].
  set (q := Z.pos ma * 2 ^ 53 / Z.pos mb).
  set (eq := da - 53 - (db - 53) - 53).
  assert (2 ^ 52 ≤ q < 2 ^ 54) as Hq.
  { split.
    - apply Z.div_le_lower_bound; [done|].
      change (2 ^ 53) with 9007199254740992 in *. change (2 ^ 52) with 4503599627370496 in *.
      clear -HAb HBb. nia.
    - apply Z.div_lt_upper_bound; [done|].
      change (2 ^ 53) with 9007199254740992 in *. change (2 ^ 52) with 4503599627370496 in *.
      change (2 ^ 54) with 18014398509481984. clear -HAb HBb. nia. }
  destruct (binary_round_aux_spec false q eq
              (new_location (Z.pos mb) ((Z.pos ma * 2 ^ 53) mod Z.pos mb)) ltac:(lia))
    as (m1 & -> & H1).
  set (dq := Zdigits2 q) in *.
  assert (53 ≤ dq ≤ 54) as Hdq.
  { split; [apply Zdigits2_ge; [simpl|]; lia|apply Zdigits2_le; lia]. }
  assert (fexp (dq + eq) - eq = dq - 53) as Hk1 by (unfold fexp, eq; lia).
  rewrite Hk1 in *.
  set (k1 := dq - 53) in *.
  set (e1 := if decide (0 < k1) then eq + k1 else eq) in *.
  assert (e1 = eq + k1) as He1 by (unfold e1; destruct (decide (0 < k1)); lia).
  pose proof (Zdigits2_bounds q ltac:(lia)) as Hqb. fold dq in Hqb.
  assert (q / 2 ^ k1 ≤ m1 ≤ q / 2 ^ k1 + 1 ∧ 2 ^ 52 ≤ q / 2 ^ k1 < 2 ^ 53) as [Hm1 HQ].
  { clearbody e1. destruct (decide (0 < k1)) as [Hk|Hk].
    - assert (dq = 54) as Hdq54 by (unfold k1 in Hk; lia).
      assert (k1 = 1) as Hk1' by (unfold k1; lia). rewrite Hk1' in *.
      split; [by destruct H1|]. rewrite Hdq54 in Hqb.
      change (2 ^ 1) with 2.
      change (2 ^ (54 - 1)) with 9007199254740992 in Hqb.
      change (2 ^ 54) with 18014398509481984 in Hqb.
      change (2 ^ 53) with 9007199254740992. change (2 ^ 52) with 4503599627370496.
      clear -Hqb. Z.div_mod_to_equations. lia.
    - assert (dq = 53) as Hdq53 by (unfold k1 in Hk; lia).
      assert (k1 = 0) as Hk1' by (unfold k1; lia). rewrite Hk1' in *.
      rewrite Z.pow_0_r, Z.div_1_r. rewrite Hdq53 in Hqb.
      change (2 ^ (53 - 1)) with (2 ^ 52) in Hqb.
      split; [|lia]. rewrite H1. apply round_nearest_even_range. }
  destruct (renorm_53_value m1 e1) as (m & e & -> & Hval & He); [lia|unfold eq in *; lia|].
  assert (e1 ≤ -3) as He1neg by (unfold eq in He1; lia).
  unfold Math_round. cbn [cond_Zopp]. rewrite decide_False by lia. f_equal.
  (* the scale of the quotient *)
  set (s := - e1 - 1).
  assert (0 ≤ s) as Hs by (unfold s; lia).
  assert (2 ^ (- e1) = 2 * 2 ^ s) as HU.
  { replace (- e1) with (1 + s) by (unfold s; lia). by rewrite Z.pow_add_r by lia. }
  assert (0 < 2 ^ s) as Hpos by (apply Z.pow_pos_nonneg; lia).
  assert ((2 * Z.pos m + 2 ^ (- e)) / 2 ^ (1 - e) = (m1 + 2 ^ s) / (2 * 2 ^ s)) as ->.
  { destruct (decide (e = e1)) as [->|Hee].
    - rewrite Z.sub_diag, Z.pow_0_r, Z.mul_1_r in Hval. rewrite Hval.
      replace (1 - e1) with (1 + - e1) by lia. rewrite Z.pow_add_r by lia.
      rewrite HU. change (2 ^ 1) with 2.
      replace (2 * m1 + 2 * 2 ^ s) with (2 * (m1 + 2 ^ s)) by lia.
      rewrite Z.div_mul_cancel_l by lia. done.
    - assert (e = e1 + 1) as -> by lia.
      replace (e1 + 1 - e1) with 1 in Hval by lia. change (2 ^ 1) with 2 in Hval.
      replace (- (e1 + 1)) with s by (unfold s; lia).
      replace (1 - (e1 + 1)) with (- e1) by lia. rewrite HU. f_equal. lia. }
  assert (0 ≤ k1 ≤ 1) as Hk01 by (unfold k1; lia).
  assert (s = 52 + db - da - k1) as Hsval by (unfold s, eq in *; lia).
  pose proof (Zdigits2_bounds b ltac:(lia)) as Hbb. fold db in Hbb.
  apply round_quotient; [lia|lia| |].
  - (* the scale is finer than the denominator *)
    assert (2 ^ db ≤ 2 ^ s) by (apply Z.pow_le_mono_r; lia). lia.
  - (* the mantissa is next to the scaled quotient *)
    assert (q / 2 ^ k1 = a * (2 * 2 ^ s) / b) as <-; [|done].
    unfold q. rewrite Z.div_div by (try apply Z.pow_pos_nonneg; lia).
    set (C := 2 ^ (53 - db + k1)).
    assert (0 < C) as HC by (apply Z.pow_pos_nonneg; lia).
    assert (Z.pos mb * 2 ^ k1 = b * C) as ->.
    { rewrite HB. unfold C. rewrite (Z.pow_add_r 2 (53 - db) k1) by lia. lia. }
    assert (Z.pos ma * 2 ^ 53 = a * (2 * 2 ^ s) * C) as ->.
    { rewrite HA, <- HU. unfold C.
      rewrite <- !Z.mul_assoc, <- !Z.pow_add_r by lia. do 2 f_equal. lia. }
    apply Z.div_mul_cancel_r; lia.
Qed.

End MeanFacts.

(** ** Sums over rows *)

Lemma foldl_sum_from {A} (f : A → Z) (rows : list A) (acc : Z) :
  foldl (λ sum row, sum + f row) acc rows = acc + reduce_sum f rows.
Proof.
  unfold reduce_sum. revert acc. induction rows as [|r rows IH]; intros acc; cbn [foldl]; [lia|].
  rewrite (IH (acc + f r)), (IH (0 + f r)). lia.
Qed.

Lemma reduce_sum_cons {A} (f : A → Z) (row : A) (rows : list A) :
  reduce_sum f (row :: rows) = f row + reduce_sum f rows.
Proof. unfold reduce_sum at 1. cbn [foldl]. by rewrite foldl_sum_from. Qed.

Lemma reduce_sum_bounds {A} (f : A → Z) (rows : list A) lo hi :
  (∀ row, row ∈ rows → lo ≤ f row ≤ hi) →
  lo * Z.of_nat (length rows) ≤ reduce_sum f rows ≤ hi * Z.of_nat (length rows).
Proof.
  induction rows as [|row rows IH]; intros Hall; [unfold reduce_sum; simpl; lia|].
  rewrite reduce_sum_cons. cbn [length].
  pose proof (Hall row ltac:(by left)).
  assert (∀ r, r ∈ rows → lo ≤ f r ≤ hi) as Hrest by (intros r Hr; apply Hall; by right).
  specialize (IH Hrest). lia.
Qed.

Lemma reduce_sum_nonneg {A} (f : A → Z) (rows : list A) :
  (∀ row, row ∈ rows → 0 ≤ f row) → 0 ≤ reduce_sum f rows.
Proof.
  induction rows as [|row rows IH]; intros Hall; [done|].
  rewrite reduce_sum_cons. pose proof (Hall row ltac:(by left)).
  assert (0 ≤ reduce_sum f rows); [|lia]. apply IH. intros r Hr. apply Hall. by right.
Qed.

Lemma summary_mean_spec (session : SessionState) :
  let measured :=
    filter (λ trial, included_in_analysis trial = true) (trialSummaries session) in
  let total := reduce_sum reaction_time_ms measured in
  let n := Z.of_nat (length measured) in
  Z.of_nat (length (trialSummaries session)) ≤ MAX_ARRAY_LENGTH →
  (∀ row, row ∈ measured → 0 ≤ reaction_time_ms row) → total < 2 ^ 50 →
  mean_reaction_time_ms_measured (buildParticipantSummary session)
  = Some (if decide (measured = []) then 0 else (2 * total + n) `div` (2 * n)).
Proof.
  intros measured total n Hmax Hpos Hsum. unfold buildParticipantSummary.
  cbn [mean_reaction_time_ms_measured]. fold measured.
  destruct (decide (measured = [])) as [->|Hne]; [done|].
  assert (0 < length measured)%nat as Hlen by (destruct measured; [done|simpl; lia]).
  rewrite decide_True by done. fold total. fold n.
  apply MeanFacts.div_round_exact.
  - split; [|done]. by apply reduce_sum_nonneg.
  - unfold n. split; [lia|].
    pose proof (length_filter (λ trial, included_in_analysis trial = true)
                  (trialSummaries session)) as Hle. fold measured in Hle.
    unfold MAX_ARRAY_LENGTH in Hmax. change (2 ^ 53) with 9007199254740992. lia.
Qed.

Lemma rounded_mean_bounds total n lo hi :
  0 < n → lo * n ≤ total ≤ hi * n → lo ≤ (2 * total + n) `div` (2 * n) ≤ hi.
Proof.
  intros Hn Hb. split.
  - apply Z.div_le_lower_bound; [lia|]. nia.
  - assert ((2 * total + n) `div` (2 * n) < hi + 1); [|lia].
    apply Z.div_lt_upper_bound; [lia|]. nia.
Qed.

(** ** Sessions *)

Lemma createSession_numbered env args n :
  args ≫= session_assignedOrder = None → 0 ≤ n ≤ MAX_PARTICIPANT_NUMBER →
  (match args ≫= session_participantNumber with
   | Some n' => Some n'
   | None => createParticipantNumber (Math_random env)
   end) = Some n →
  ∃ session,
    createSession env args = Ok session
    ∧ participantNumber session = n
    ∧ participantId session = "P-" +:+ pretty n
    ∧ getLatinSquareOrder n = Some (assignedOrder session)
    ∧ generateAllBlocks n = Ok (blocks session)
    ∧ trialSummaries session = []
    ∧ stage session = default stage_consent (args ≫= session_stage).
Proof.
  intros Horder Hn Hnum. unfold createSession. rewrite Hnum, Horder. cbn [mbind option_bind].
  destruct (generateAllBlocks_spec n Hn) as (order & plans & Ho & _ & Hb & _).
  rewrite Ho. unfold generateAllBlocks in Hb. rewrite Ho in Hb.
  change (mapi _ order) with
    (mapi (λ (index : nat) (condition : Condition),
             generateBlockPlan
               {| arg_participantNumber := n; arg_blockIndex := Z.of_nat index;
                  arg_blockOrder := Z.of_nat index + 1; arg_condition := condition;
                  arg_practiceTrials := Some DEFAULT_PRACTICE_TRIALS;
                  arg_measuredTrials := Some DEFAULT_MEASURED_TRIALS |}) order).
  rewrite Hb. cbn [mbind result_bind]. eexists. split; [done|]. cbn.
  split; [done|]. split; [done|]. split; [done|]. split; [|done].
  unfold generateAllBlocks. by rewrite Ho.
Qed.

(** ** Counts of any sign *)

Lemma buildBalancedIndices_any g count :
  stream_unit lcg g → count ≤ MAX_ARRAY_LENGTH →
  ∃ indices n,
    buildBalancedIndices lcg 8 count g = Ok (indices, advance lcg n g)
    ∧ length indices = Z.to_nat count
    ∧ ∀ x, x ∈ indices → (x < 8)%nat.
Proof.
  intros Hg Hc. destruct (decide (count ≤ 0)) as [Hneg|Hpos].
  - exists [], 0%nat. unfold buildBalancedIndices. rewrite decide_True by (by left).
    split; [done|]. split; [simpl; lia|]. by intros x ?%elem_of_nil.
  - destruct (buildBalancedIndices_total g count Hg ltac:(lia)) as (indices & n & Heq & Hbal).
    exists indices, n. split; [done|]. split; [apply balanced_length_Z; [lia|done]|].
    intros x Hx. by eapply balanced_bound.
Qed.

Lemma generateBlockPlan_any args :
  any_sign_call args →
  ∃ plan, generateBlockPlan args = Ok plan
    ∧ practiceTrials plan = length (filter (λ trial, isPractice trial = true) (trials plan))
    ∧ measuredTrials plan = length (filter (λ trial, isPractice trial = false) (trials plan))
    ∧ length (trials plan) = Z.to_nat (practice_count args + measured_count args)
    ∧ ∀ t trial, trials plan !! t = Some trial →
        isPractice trial = bool_decide (Z.of_nat t < practice_count args)
        ∧ length (items trial) = 8%nat
        ∧ unique_target trial.
Proof.
  intros (_ & _ & Hsum & _ & Hblock & Htrial). unfold generateBlockPlan.
  fold (practice_count args). fold (measured_count args).
  set (p := practice_count args) in *. set (m := measured_count args) in *.
  assert (p ≤ MAX_ARRAY_LENGTH) as Hp by lia.
  assert (m ≤ MAX_ARRAY_LENGTH) as Hm by lia.
  set (g0 := seededRandom _).
  assert (stream_unit lcg g0) as Hg0 by (by apply seeded_stream_unit).
  change (Z.of_nat (length COLORS)) with 8. change (Z.of_nat (length SHAPES)) with 8.
  destruct (buildBalancedIndices_any g0 p Hg0 Hp) as (pc & n1 & -> & Hlpc & Hpc).
  cbn [mbind result_bind]. set (g1 := advance lcg n1 g0).
  assert (stream_unit lcg g1) as Hg1 by (by apply stream_unit_advance).
  destruct (buildBalancedIndices_any g1 p Hg1 Hp) as (ps & n2 & -> & Hlps & Hps).
  cbn [mbind result_bind]. set (g2 := advance lcg n2 g1).
  assert (stream_unit lcg g2) as Hg2 by (by apply stream_unit_advance).
  destruct (buildBalancedIndices_any g2 m Hg2 Hm) as (mc & n3 & -> & Hlmc & Hmc).
  cbn [mbind result_bind]. set (g3 := advance lcg n3 g2).
  assert (stream_unit lcg g3) as Hg3 by (by apply stream_unit_advance).
  destruct (buildBalancedIndices_any g3 m Hg3 Hm) as (ms & n4 & -> & Hlms & Hms).
  cbn [mbind result_bind].
  assert (∀ t, (t < Z.to_nat (p + m))%nat →
            ∃ ci si, (pc ++ mc) !! t = Some ci ∧ (ps ++ ms) !! t = Some si
                     ∧ (ci < 8)%nat ∧ (si < 8)%nat) as Hidx.
  { intros t Ht.
    destruct (lookup_lt_is_Some_2 (pc ++ mc) t) as [ci Hci]; [rewrite length_app; lia|].
    destruct (lookup_lt_is_Some_2 (ps ++ ms) t) as [si Hsi]; [rewrite length_app; lia|].
    exists ci, si. split; [done|]. split; [done|]. split.
    - apply list_elem_of_lookup_2, elem_of_app in Hci as [Hin|Hin]; [by apply Hpc|by apply Hmc].
    - apply list_elem_of_lookup_2, elem_of_app in Hsi as [Hin|Hin]; [by apply Hps|by apply Hms]. }
  unfold mapi.
  destruct (mapi_from_Ok
              (λ _ t, buildTrial args p (pc ++ mc) (ps ++ ms) t) 0
              (range (Z.to_nat (p + m)))) as (built & -> & Hlen & Htrials).
  { intros k t Hk. apply lookup_seq in Hk as [-> Hk].
    cbn beta. change (0 + k)%nat with k.
    destruct (Hidx k Hk) as (ci & si & Hci & Hsi & ? & ?).
    destruct (buildTrial_spec args p (pc ++ mc) (ps ++ ms) k ci si)
      as (trial & -> & _); try done; [apply (Htrial k); lia|by exists trial]. }
  cbn [mbind result_bind]. eexists. split; [done|]. cbn.
  do 2 (split; [done|]).
  split; [rewrite Hlen; unfold range; by rewrite length_seq|].
  intros t trial Ht. destruct (Htrials t trial Ht) as (t' & Hk & Hbuild).
  apply lookup_seq in Hk as [-> Hk]. cbn beta in Hbuild. change (0 + t)%nat with t in Hbuild.
  destruct (Hidx t Hk) as (ci & si & Hci & Hsi & ? & ?).
  destruct (buildTrial_spec args p (pc ++ mc) (ps ++ ms) t ci si)
    as (trial' & Heq & Hspec); try done; [apply (Htrial t); lia|].
  rewrite Hbuild in Heq. injection Heq as <-.
  by destruct Hspec as (_ & _ & ? & _ & _ & ? & ?).
Qed.

(** ** Reordered trials *)

Lemma count_targets_perm targets1 targets2 :
  targets1 ≡ₚ targets2 → count_targets targets1 = count_targets targets2.
Proof.
  intros Hp. apply map_eq. intros c. rewrite !count_targets_lookup.
  rewrite (occ_perm _ _ _ Hp).
  destruct (decide (c ∈ targets1)) as [H1|H1], (decide (c ∈ targets2)) as [H2|H2]; try done.
  - by rewrite Hp in H1.
  - by rewrite <- Hp in H2.
Qed.

(** ** The planner on the store *)

Lemma call_ref_insert rand state (σ : Store) :
  call_ref rand (<[rand := state]> σ) = ((lcg state).1, <[rand := (lcg state).2]> σ).
Proof. unfold call_ref, Store. by rewrite lookup_insert_eq, insert_insert_eq. Qed.

Section Embed.
Context {G1 G2 : Type} (rand1 : G1 → spec_float * G1) (rand2 : G2 → spec_float * G2).
Context (φ : G1 → G2).
Hypothesis rand_embed : ∀ g, rand2 (φ g) = ((rand1 g).1, φ (rand1 g).2).

Lemma shuffle_loop_embed {T} i (next : list T) g :
  shuffle_loop rand2 i next (φ g)
  = '(l, g') ← shuffle_loop rand1 i next g; Ok (l, φ g').
Proof.
  revert next g. induction i as [|i IH]; intros next g; [done|].
  cbn [shuffle_loop]. rewrite rand_embed. destruct (rand1 g) as [r g'] eqn:Hr. cbn [fst snd].
  destruct (floor_scaled r (S i + 1)) as [j|]; [|done].
  destruct (swap next (S i) j) as [next'|e]; [|done].
  cbn [mbind result_bind]. apply IH.
Qed.

Lemma shuffle_embed {T} (array : list T) g :
  shuffle rand2 array (φ g) = '(l, g') ← shuffle rand1 array g; Ok (l, φ g').
Proof. apply shuffle_loop_embed. Qed.

Lemma buildBalancedIndices_embed len count g :
  buildBalancedIndices rand2 len count (φ g)
  = '(l, g') ← buildBalancedIndices rand1 len count g; Ok (l, φ g').
Proof.
  unfold buildBalancedIndices. destruct (decide (count ≤ 0 ∨ len ≤ 0)); [done|].
  cbv zeta. destruct (decide (0 < Z.to_nat (Z.rem count len))%nat).
  - rewrite shuffle_embed.
    destruct (shuffle rand1 (seq 0 (Z.to_nat len)) g) as [[extras g']|e]; [|done].
    cbn [mbind result_bind]. apply shuffle_embed.
  - cbn [mbind result_bind]. apply shuffle_embed.
Qed.

End Embed.

Lemma fresh_subseteq (σ : Store) state : σ ⊆ <[fresh (dom σ) := state]> σ.
Proof. apply insert_subseteq, not_elem_of_dom, is_fresh. Qed.

Lemma buildItemsForColorOnlyTrial_refines trialSeed σ :
  refines (buildItemsForColorOnlyTrial trialSeed) σ (buildItemsForColorOnlyTrial_ref trialSeed σ).
Proof.
  unfold buildItemsForColorOnlyTrial, buildItemsForColorOnlyTrial_ref, seededRandom_ref.
  set (rand := fresh (dom σ)).
  rewrite (shuffle_embed lcg (call_ref rand) (λ state, <[rand := state]> σ))
    by (intros state; apply call_ref_insert).
  destruct (shuffle lcg _ _) as [[order state]|e]; [|done]. cbn [mbind result_bind].
  destruct (mapi _ order) as [its|e]; [|done]. cbn [mbind result_bind refines].
  eexists. split; [done|]. apply fresh_subseteq.
Qed.

Lemma buildItemsForShapeOnlyTrial_refines trialSeed σ :
  refines (buildItemsForShapeOnlyTrial trialSeed) σ (buildItemsForShapeOnlyTrial_ref trialSeed σ).
Proof.
  unfold buildItemsForShapeOnlyTrial, buildItemsForShapeOnlyTrial_ref, seededRandom_ref.
  set (rand := fresh (dom σ)).
  rewrite (shuffle_embed lcg (call_ref rand) (λ state, <[rand := state]> σ))
    by (intros state; apply call_ref_insert).
  destruct (shuffle lcg _ _) as [[order state]|e]; [|done]. cbn [mbind result_bind].
  destruct (mapi _ order) as [its|e]; [|done]. cbn [mbind result_bind refines].
  eexists. split; [done|]. apply fresh_subseteq.
Qed.

Lemma buildCombinedItemsForTarget_refines trialSeed targetColor targetShape σ :
  refines (buildCombinedItemsForTarget trialSeed targetColor targetShape) σ
    (buildCombinedItemsForTarget_ref trialSeed targetColor targetShape σ).
Proof.
  unfold buildCombinedItemsForTarget, buildCombinedItemsForTarget_ref, seededRandom_ref.
  set (rand := fresh (dom σ)).
  assert (∀ T (xs : list T) state,
            shuffle (call_ref rand) xs (<[rand := state]> σ)
            = '(ys, state') ← shuffle lcg xs state; Ok (ys, <[rand := state']> σ)) as Hsh.
  { intros T xs state.
    apply (shuffle_embed lcg (call_ref rand) (λ state, <[rand := state]> σ)).
    intros s. apply call_ref_insert. }
  rewrite Hsh. destruct (shuffle lcg _ _) as [[remainingColors s1]|e]; [|done].
  cbn [mbind result_bind]. rewrite Hsh.
  destruct (shuffle lcg _ s1) as [[remainingShapes s2]|e]; [|done].
  cbn [mbind result_bind]. destruct (mapi _ (range 7)) as [others|e]; [|done].
  cbn [mbind result_bind]. rewrite Hsh.
  destruct (shuffle lcg _ s2) as [[orderedPairs s3]|e]; [|done].
  cbn [mbind result_bind]. destruct (mapi _ orderedPairs) as [its|e]; [|done].
  cbn [mbind result_bind refines]. eexists. split; [done|]. apply fresh_subseteq.
Qed.

Lemma buildTrial_refines args practiceTrials colorIndices shapeIndices t σ :
  refines (buildTrial args practiceTrials colorIndices shapeIndices t) σ
    (buildTrial_ref args practiceTrials colorIndices shapeIndices t σ).
Proof.
  unfold buildTrial, buildTrial_ref.
  destruct (if decide (arg_condition args = shape) then _ else _) as [targetColor|e]; [|done].
  cbn [mbind result_bind].
  destruct (if decide (arg_condition args = color) then _ else _) as [targetShape|e]; [|done].
  cbn [mbind result_bind].
  set (trialSeed := arg_participantNumber args * 100000 + _ + _ + 1).
  assert (∃ value run,
            value = match arg_condition args with
                    | color => buildItemsForColorOnlyTrial trialSeed
                    | shape => buildItemsForShapeOnlyTrial trialSeed
                    | combined => buildCombinedItemsForTarget trialSeed targetColor targetShape
                    end
            ∧ run = match arg_condition args with
                    | color => buildItemsForColorOnlyTrial_ref trialSeed σ
                    | shape => buildItemsForShapeOnlyTrial_ref trialSeed σ
                    | combined =>
                        buildCombinedItemsForTarget_ref trialSeed targetColor targetShape σ
                    end
            ∧ refines value σ run) as (value & run & <- & <- & Href).
  { do 2 eexists. split; [done|]. split; [done|]. destruct (arg_condition args).
    - apply buildItemsForColorOnlyTrial_refines.
    - apply buildItemsForShapeOnlyTrial_refines.
    - apply buildCombinedItemsForTarget_refines. }
  destruct value as [its|e]; cbn [refines] in Href.
  - destruct Href as (σ' & -> & Hsub). cbn [mbind result_bind].
    destruct (findItemForTarget its _ _ _) as [correctItem|e]; [|done].
    cbn [mbind result_bind refines]. by eexists.
  - by rewrite Href.
Qed.

Lemma trials_from_refines body body_ref index ts σ :
  (∀ k t σ, refines (body k t) σ (body_ref t σ)) →
  refines (mapi_from body index ts) σ (trials_from_ref body_ref ts σ).
Proof.
  intros Hbody. revert index σ. induction ts as [|t ts IH]; intros index σ.
  - cbn. exists σ. done.
  - cbn [mapi_from trials_from_ref]. pose proof (Hbody index t σ) as Ht.
    destruct (body index t) as [trial|e]; cbn [refines] in Ht.
    + destruct Ht as (σ1 & -> & Hsub1). cbn [mbind result_bind].
      pose proof (IH (S index) σ1) as Hts.
      destruct (mapi_from body (S index) ts) as [built|e]; cbn [refines] in Hts.
      * destruct Hts as (σ2 & -> & Hsub2). cbn [mbind result_bind refines].
        exists σ2. split; [done|]. by etrans.
      * by rewrite Hts.
    + by rewrite Ht.
Qed.

Lemma generateBlockPlan_refines args σ :
  refines (generateBlockPlan args) σ (generateBlockPlan_ref args σ).
Proof.
  unfold generateBlockPlan, generateBlockPlan_ref, seededRandom_ref. cbv zeta.
  set (rand := fresh (dom σ)).
  assert (∀ len count state,
            buildBalancedIndices (call_ref rand) len count (<[rand := state]> σ)
            = '(l, state') ← buildBalancedIndices lcg len count state;
              Ok (l, <[rand := state']> σ)) as Hb.
  { intros len count state.
    apply (buildBalancedIndices_embed lcg (call_ref rand) (λ state, <[rand := state]> σ)).
    intros s. apply call_ref_insert. }
  rewrite Hb. destruct (buildBalancedIndices lcg _ _ _) as [[pc s1]|e]; [|done].
  cbn [mbind result_bind]. rewrite Hb.
  destruct (buildBalancedIndices lcg _ _ s1) as [[ps s2]|e]; [|done].
  cbn [mbind result_bind]. rewrite Hb.
  destruct (buildBalancedIndices lcg _ _ s2) as [[mc s3]|e]; [|done].
  cbn [mbind result_bind]. rewrite Hb.
  destruct (buildBalancedIndices lcg _ _ s3) as [[ms s4]|e]; [|done].
  cbn [mbind result_bind]. unfold mapi.
  match goal with
  | |- context [mapi_from ?body 0%nat ?ts] =>
      pose proof (trials_from_refines body
                    (buildTrial_ref args
                       (default DEFAULT_PRACTICE_TRIALS (arg_practiceTrials args))
                       (pc ++ mc) (ps ++ ms)) 0%nat ts (<[rand := s4]> σ)
                    (λ _ t σ', buildTrial_refines args _ _ _ t σ')) as Hts;
      destruct (mapi_from body 0%nat ts) as [built|e]; cbn [refines] in Hts
  end.
  - destruct Hts as (σ' & -> & Hsub). cbn [mbind result_bind refines].
    eexists. split; [done|]. etrans; [apply fresh_subseteq|exact Hsub].
  - by rewrite Hts.
Qed.

Lemma generateBlockPlan_same_arguments a b :
  arg_participantNumber a = arg_participantNumber b →
  arg_blockIndex a = arg_blockIndex b →
  arg_blockOrder a = arg_blockOrder b →
  arg_condition a = arg_condition b →
  practice_count a = practice_count b →
  measured_count a = measured_count b →
  generateBlockPlan a = generateBlockPlan b
  ∧ ∀ σ, generateBlockPlan_ref a σ = generateBlockPlan_ref b σ.
Proof.
  unfold practice_count, measured_count.
  intros Hpn Hbi Hbo Hc Hp Hm. split; [|intros σ];
    unfold generateBlockPlan, generateBlockPlan_ref, buildTrial, buildTrial_ref;
    by rewrite Hpn, Hbi, Hbo, Hc, Hp, Hm.
Qed.

(** * The properties of the specification *)

(** C1. For every trial [generateBlockPlan] produces (on a well-formed call:
    counts an array can hold, numbers with which the seeds are exact in
    binary64, no seed that [seededRandom] fails to normalise), in every
    condition, exactly one of the trial's 8 items matches the
    trial's target criterion (the colour name for [color], the shape name for
    [shape], both for [combined]), and the id of that item is the trial's
    [correctItemId]; the plan is produced, so the error branches of
    [findItemForTarget] are not reached. *)
Theorem generateBlockPlan_unique_target (args : BlockArgs) :
  well_formed args →
  ∃ plan,
    generateBlockPlan args = Ok plan
    ∧ ∀ trial, trial ∈ trials plan →
        trial_condition trial = arg_condition args
        ∧ length (items trial) = 8%nat
        ∧ ∃ item,
            filter (λ item, matches_target (arg_condition args) (targetColor trial)
                              (targetShape trial) item = true) (items trial) = [item]
            ∧ item_id item = correctItemId trial.
Proof.
  intros Hwf.
  destruct (generateBlockPlan_spec args Hwf) as (plan & Heq & _ & _ & _ & _ & _ & Hplan).
  destruct Hplan as (pc & ps & mc & ms & _ & _ & _ & _ & _ & Htrials).
  exists plan. split; [done|]. intros trial (t & Ht)%list_elem_of_lookup_1.
  destruct (Htrials t trial Ht) as (ci & si & _ & _ & Hspec).
  destruct Hspec as (Hcond & _ & _ & _ & _ & Hlen & Huniq).
  split; [done|]. split; [done|]. unfold unique_target in Huniq. by rewrite Hcond in Huniq.
Qed.

Lemma generateBlockPlan_unique_target_witness :
  well_formed combined_123456
  ∧ ∃ plan, generateBlockPlan combined_123456 = Ok plan
      ∧ ∀ trial, trial ∈ trials plan → length (items trial) = 8%nat.
Proof.
  assert (well_formed combined_123456) as Hwf
    by (apply nonneg_well_formed; vm_compute; discriminate).
  split; [exact Hwf|].
  destruct (generateBlockPlan_unique_target combined_123456 Hwf) as (plan & Heq & Hall).
  exists plan. split; [exact Heq|]. intros trial Hin. exact (proj1 (proj2 (Hall trial Hin))).
Defined.

(** C2. For every well-formed [generateBlockPlan] call (counts an array can
    hold, numbers with which the seeds are exact in binary64, no seed that
    [seededRandom] fails to normalise), among the measured trials the counts of the target categories differ by at most 1: every colour is the
    target [floor(m / 8)] times or once more in the [color] and [combined]
    conditions, every shape likewise in the [shape] and [combined]
    conditions, any two target values that occur differ by at most 1 in
    count, and the spreads [assertBalancedTargets] computes are at most 1.
    With 10 measured trials exactly 2 of the 8 categories have count 2 and 6
    have count 1. *)
Theorem generateBlockPlan_balanced_targets (args : BlockArgs) :
  well_formed args →
  ∃ plan,
    generateBlockPlan args = Ok plan
    ∧ let measured := filter (λ trial, isPractice trial = false) (trials plan) in
      let colors := targetColor <$> measured in
      let shapes := targetShape <$> measured in
      let m := measured_count args in
      (arg_condition args ≠ shape →
         (∀ c, c ∈ color_name <$> COLORS →
            Z.of_nat (occ c colors) = m `div` 8 ∨ Z.of_nat (occ c colors) = m `div` 8 + 1)
         ∧ (m = 10 →
              length (filter (λ c, occ c colors = 2%nat) (color_name <$> COLORS)) = 2%nat
              ∧ length (filter (λ c, occ c colors = 1%nat) (color_name <$> COLORS)) = 6%nat))
      ∧ (arg_condition args ≠ color →
           (∀ s, s ∈ shape_name <$> SHAPES →
              Z.of_nat (occ s shapes) = m `div` 8 ∨ Z.of_nat (occ s shapes) = m `div` 8 + 1)
           ∧ (m = 10 →
                length (filter (λ s, occ s shapes = 2%nat) (shape_name <$> SHAPES)) = 2%nat
                ∧ length (filter (λ s, occ s shapes = 1%nat) (shape_name <$> SHAPES)) = 6%nat))
      ∧ (∀ c1 c2, c1 ∈ colors → c2 ∈ colors → (occ c1 colors ≤ occ c2 colors + 1)%nat)
      ∧ (∀ s1 s2, s1 ∈ shapes → s2 ∈ shapes → (occ s1 shapes ≤ occ s2 shapes + 1)%nat)
      ∧ spread_at_most_1 (maxColorDiff (assertBalancedTargets (trials plan)))
      ∧ spread_at_most_1 (maxShapeDiff (assertBalancedTargets (trials plan))).
Proof.
  intros Hwf. destruct (well_formed_bounds args Hwf) as [_ Hm].
  destruct (generateBlockPlan_spec args Hwf) as (plan & Heq & _ & _ & _ & _ & _ & Hplan).
  destruct (measured_targets args plan Hwf Hplan) as (mc & ms & Hmc & Hms & Hcolors & Hshapes).
  cbv zeta in Hmc, Hms.
  assert (0 ≤ measured_count args `div` 8) as Hdiv by (apply Z.div_pos; lia).
  exists plan. split; [done|]. cbv zeta.
  set (m := measured_count args) in *.
  set (measured := filter (λ trial, isPractice trial = false) (trials plan)) in *.
  assert (∀ c1 c2, c1 ∈ targetColor <$> measured → c2 ∈ targetColor <$> measured →
            (occ c1 (targetColor <$> measured) ≤ occ c2 (targetColor <$> measured) + 1)%nat)
    as Hcpair.
  { rewrite Hcolors. destruct (decide (arg_condition args = shape)).
    - apply constant_pairwise.
    - apply (marginal_pairwise _ color_name_inj _ _ _ Hmc). }
  assert (∀ s1 s2, s1 ∈ targetShape <$> measured → s2 ∈ targetShape <$> measured →
            (occ s1 (targetShape <$> measured) ≤ occ s2 (targetShape <$> measured) + 1)%nat)
    as Hspair.
  { rewrite Hshapes. destruct (decide (arg_condition args = color)).
    - apply constant_pairwise.
    - apply (marginal_pairwise _ shape_name_inj _ _ _ Hms). }
  split; [|split; [|split; [done|split; [done|split]]]].
  - intros Hcond. rewrite Hcolors.
    destruct (decide (arg_condition args = shape)) as [?|_]; [done|].
    change (color_name <$> COLORS) with ((λ i, color_name (color_at i)) <$> seq 0 8).
    split.
    + intros c (k & -> & Hk%elem_of_seq)%list_elem_of_fmap.
      destruct (marginal_near_even _ color_name_inj _ _ _ Hmc k ltac:(lia)) as [-> | ->]; lia.
    + intros Hm10. rewrite Hm10 in Hmc.
      apply (marginal_extras _ color_name_inj 1 2 mc Hmc).
  - intros Hcond. rewrite Hshapes.
    destruct (decide (arg_condition args = color)) as [?|_]; [done|].
    change (shape_name <$> SHAPES) with ((λ i, shape_name (shape_at i)) <$> seq 0 8).
    split.
    + intros c (k & -> & Hk%elem_of_seq)%list_elem_of_fmap.
      destruct (marginal_near_even _ shape_name_inj _ _ _ Hms k ltac:(lia)) as [-> | ->]; lia.
    + intros Hm10. rewrite Hm10 in Hms.
      apply (marginal_extras _ shape_name_inj 1 2 ms Hms).
  - by apply spread_of_pairwise.
  - by apply spread_of_pairwise.
Qed.

Lemma generateBlockPlan_balanced_targets_witness :
  well_formed combined_123456
  ∧ ∃ plan, generateBlockPlan combined_123456 = Ok plan
      ∧ spread_at_most_1 (maxColorDiff (assertBalancedTargets (trials plan))).
Proof.
  assert (well_formed combined_123456) as Hwf
    by (apply nonneg_well_formed; vm_compute; discriminate).
  split; [exact Hwf|].
  destruct (generateBlockPlan_balanced_targets combined_123456 Hwf) as (plan & Heq & Hall).
  exists plan. split; [exact Heq|]. exact (proj1 (proj2 (proj2 (proj2 (proj2 Hall))))).
Defined.

(** C3. For every [categoryCount > 0], [sampleCount > 0] (both within the
    length an array can have) and every random stream (of doubles in [0, 1)),
    [buildBalancedIndices] returns a sequence of length [sampleCount] whose
    elements lie in [0, categoryCount); every category occurs
    [floor(sampleCount / categoryCount)] times or once more, so two
    categories differ by at most 1, and all occur equally often when
    [categoryCount] divides [sampleCount]. *)
Theorem buildBalancedIndices_balanced {G} (rand : G → spec_float * G)
    (categoryCount sampleCount : Z) (g : G) :
  0 < categoryCount ≤ MAX_ARRAY_LENGTH →
  0 < sampleCount ≤ MAX_ARRAY_LENGTH →
  stream_unit rand g →
  ∃ indices g',
    buildBalancedIndices rand categoryCount sampleCount g = Ok (indices, g')
    ∧ Z.of_nat (length indices) = sampleCount
    ∧ (∀ x, x ∈ indices → 0 ≤ Z.of_nat x < categoryCount)
    ∧ (∀ k : nat, Z.of_nat k < categoryCount →
         Z.of_nat (occ k indices) = sampleCount `div` categoryCount
         ∨ Z.of_nat (occ k indices) = sampleCount `div` categoryCount + 1)
    ∧ (∀ k k' : nat, Z.of_nat k < categoryCount → Z.of_nat k' < categoryCount →
         (occ k indices ≤ occ k' indices + 1)%nat)
    ∧ (sampleCount `mod` categoryCount = 0 →
         ∀ k : nat, Z.of_nat k < categoryCount →
           Z.of_nat (occ k indices) = sampleCount `div` categoryCount).
Proof.
  intros Hcat Hsample Hg.
  destruct (buildBalancedIndices_spec rand categoryCount sampleCount g Hg Hcat Hsample)
    as (indices & n & Heq & Hbal).
  pose proof (Z.div_mod sampleCount categoryCount ltac:(lia)) as Hdm.
  pose proof (Z.mod_pos_bound sampleCount categoryCount ltac:(lia)) as Hmod.
  assert (0 ≤ sampleCount `div` categoryCount) as Hdiv by (apply Z.div_pos; lia).
  assert (∀ k : nat, Z.of_nat k < categoryCount →
            occ k indices = Z.to_nat (sampleCount `div` categoryCount)
            ∨ occ k indices = S (Z.to_nat (sampleCount `div` categoryCount))) as Hocc.
  { intros k Hk. apply (balanced_occ _ _ _ _ k Hbal). lia. }
  exists indices, (advance rand n g). split; [done|]. split; [|split; [|split; [|split]]].
  - rewrite (balanced_length _ _ _ _ Hbal). nia.
  - intros x Hx. pose proof (balanced_bound _ _ _ _ _ Hbal Hx). lia.
  - intros k Hk. destruct (Hocc k Hk) as [-> | ->]; lia.
  - intros k k' Hk Hk'.
    destruct (Hocc k Hk) as [-> | ->]; destruct (Hocc k' Hk') as [-> | ->]; lia.
  - intros Hzero k Hk. rewrite Hzero in Hbal. change (Z.to_nat 0) with 0%nat in Hbal.
    rewrite (balanced_exact _ _ _ _ Hbal); lia.
Qed.

Lemma buildBalancedIndices_balanced_witness :
  0 < 8 ≤ MAX_ARRAY_LENGTH ∧ 0 < 10 ≤ MAX_ARRAY_LENGTH
  ∧ stream_unit lcg (seededRandom 42)
  ∧ ∃ indices g',
      buildBalancedIndices lcg 8 10 (seededRandom 42) = Ok (indices, g')
      ∧ Z.of_nat (length indices) = 10.
Proof.
  assert (0 < 8 ≤ MAX_ARRAY_LENGTH) as Hcat by (vm_compute; split; [reflexivity|discriminate]).
  assert (0 < 10 ≤ MAX_ARRAY_LENGTH) as Hsample
    by (vm_compute; split; [reflexivity|discriminate]).
  assert (stream_unit lcg (seededRandom 42)) as Hg
    by (apply seeded_stream_unit, nonneg_seed; lia).
  split; [exact Hcat|]. split; [exact Hsample|]. split; [exact Hg|].
  destruct (buildBalancedIndices_balanced lcg 8 10 (seededRandom 42) Hcat Hsample Hg)
    as (indices & g' & Heq & Hlen & _).
  exists indices, g'. split; [exact Heq|exact Hlen].
Defined.

(** C4. [generateBlockPlan] is deterministic: on a well-formed call, two
    calls whose arguments agree (participant number, block index, block
    order, condition, and the two counts, an omitted count standing for its
    default) return the same plan, trial for trial and item for item,
    whatever closures of [seededRandom] exist when each call is made and
    whatever their states are.  Stated on the store of the closures: a call,
    a second call made after it in the store the first one left, and a call
    in any other store all return the one plan; each creates the closures it
    draws from and leaves every closure that existed in the state it had. *)
Theorem generateBlockPlan_deterministic (a b : BlockArgs) (σ1 σ2 : Store) :
  well_formed a →
  arg_participantNumber a = arg_participantNumber b →
  arg_blockIndex a = arg_blockIndex b →
  arg_blockOrder a = arg_blockOrder b →
  arg_condition a = arg_condition b →
  practice_count a = practice_count b →
  measured_count a = measured_count b →
  ∃ plan σ1' σ1'' σ2',
    generateBlockPlan_ref a σ1 = Ok (plan, σ1')
    ∧ generateBlockPlan_ref b σ1' = Ok (plan, σ1'')
    ∧ generateBlockPlan_ref b σ2 = Ok (plan, σ2')
    ∧ σ1 ⊆ σ1' ∧ σ1' ⊆ σ1'' ∧ σ2 ⊆ σ2'.
Proof.
  intros Hwf Hpn Hbi Hbo Hc Hp Hm.
  destruct (generateBlockPlan_same_arguments a b Hpn Hbi Hbo Hc Hp Hm) as [_ Hab].
  destruct (generateBlockPlan_spec a Hwf) as (plan & Hplan & _).
  assert (∀ σ, ∃ σ', generateBlockPlan_ref a σ = Ok (plan, σ') ∧ σ ⊆ σ') as Hrun.
  { intros σ. pose proof (generateBlockPlan_refines a σ) as Href.
    by rewrite Hplan in Href. }
  destruct (Hrun σ1) as (σ1' & Heq1 & Hsub1).
  destruct (Hrun σ1') as (σ1'' & Heq1' & Hsub1').
  destruct (Hrun σ2) as (σ2' & Heq2 & Hsub2).
  exists plan, σ1', σ1'', σ2'. rewrite <- !Hab. done.
Qed.

Lemma generateBlockPlan_deterministic_witness :
  well_formed
    {| arg_participantNumber := 123456; arg_blockIndex := 0; arg_blockOrder := 1;
       arg_condition := combined; arg_practiceTrials := None;
       arg_measuredTrials := Some 10 |}
  ∧ ∃ plan σ1' σ1'' σ2',
      generateBlockPlan_ref
        {| arg_participantNumber := 123456; arg_blockIndex := 0; arg_blockOrder := 1;
           arg_condition := combined; arg_practiceTrials := None;
           arg_measuredTrials := Some 10 |} ∅ = Ok (plan, σ1')
      ∧ generateBlockPlan_ref
          {| arg_participantNumber := 123456; arg_blockIndex := 0; arg_blockOrder := 1;
             arg_condition := combined; arg_practiceTrials := Some 3;
             arg_measuredTrials := None |} σ1' = Ok (plan, σ1'')
      ∧ generateBlockPlan_ref
          {| arg_participantNumber := 123456; arg_blockIndex := 0; arg_blockOrder := 1;
             arg_condition := combined; arg_practiceTrials := Some 3;
             arg_measuredTrials := None |} {[ 1%positive := 42 ]} = Ok (plan, σ2').
Proof.
  assert (well_formed
            {| arg_participantNumber := 123456; arg_blockIndex := 0; arg_blockOrder := 1;
               arg_condition := combined; arg_practiceTrials := None;
               arg_measuredTrials := Some 10 |}) as Hwf
    by (apply nonneg_well_formed; vm_compute; discriminate).
  split; [exact Hwf|].
  destruct (generateBlockPlan_deterministic _
              {| arg_participantNumber := 123456; arg_blockIndex := 0; arg_blockOrder := 1;
                 arg_condition := combined; arg_practiceTrials := Some 3;
                 arg_measuredTrials := None |} ∅ {[ 1%positive := 42 ]} Hwf
              eq_refl eq_refl eq_refl eq_refl eq_refl eq_refl)
    as (plan & σ1' & σ1'' & σ2' & H1 & H2 & H3 & _).
  exists plan, σ1', σ1'', σ2'. split; [exact H1|]. split; [exact H2|exact H3].
Defined.

(** C5. For every well-formed [generateBlockPlan] call (counts an array can
    hold, numbers with which the seeds are exact in binary64, no seed that
    [seededRandom] fails to normalise) with [practiceTrials = p] and
    [measuredTrials = m] (3 and 10 when omitted) the
    plan has exactly [p + m] trials in presentation order; the first [p] are
    flagged practice and the remaining [m] are not, and the two counts of the
    plan are [p] and [m].  With the defaults: 13 trials, 3 practice and 10
    measured. *)
Theorem generateBlockPlan_trial_counts (args : BlockArgs) :
  well_formed args →
  ∃ plan,
    generateBlockPlan args = Ok plan
    ∧ Z.of_nat (length (trials plan)) = practice_count args + measured_count args
    ∧ (∀ (t : nat) trial, trials plan !! t = Some trial →
         trialIndexInBlock trial = Z.of_nat t + 1
         ∧ isPractice trial = bool_decide (Z.of_nat t < practice_count args))
    ∧ Z.of_nat (practiceTrials plan) = practice_count args
    ∧ Z.of_nat (measuredTrials plan) = measured_count args
    ∧ (arg_practiceTrials args = None → arg_measuredTrials args = None →
         length (trials plan) = 13%nat
         ∧ practiceTrials plan = 3%nat ∧ measuredTrials plan = 10%nat).
Proof.
  intros Hwf. destruct (well_formed_bounds args Hwf) as [Hp Hm].
  destruct (generateBlockPlan_spec args Hwf)
    as (plan & Heq & _ & _ & _ & Hpr & Hme & Hplan).
  pose proof Hplan as (pc & ps & mc & ms & _ & _ & _ & _ & _ & Htrials).
  destruct (plan_counts args plan Hwf Hplan) as (Hlen & Hlp & Hlm).
  assert (Z.of_nat (practiceTrials plan) = practice_count args) as Hpc
    by (rewrite Hpr, Hlp; lia).
  assert (Z.of_nat (measuredTrials plan) = measured_count args) as Hmc
    by (rewrite Hme, Hlm; lia).
  exists plan. split; [done|]. split; [lia|]. split; [|split; [done|split; [done|]]].
  - intros t trial Ht. destruct (Htrials t trial Ht) as (ci & si & _ & _ & Hspec).
    by destruct Hspec as (_ & ? & ? & _).
  - intros HpNone HmNone. unfold practice_count, measured_count in *.
    rewrite HpNone, HmNone in *. simpl in *. rewrite Hlen.
    unfold DEFAULT_PRACTICE_TRIALS, DEFAULT_MEASURED_TRIALS in *. 
    split; [done|]. lia.
Qed.

Lemma generateBlockPlan_trial_counts_witness :
  well_formed combined_123456
  ∧ ∃ plan, generateBlockPlan combined_123456 = Ok plan
      ∧ Z.of_nat (length (trials plan)) = 13.
Proof.
  assert (well_formed combined_123456) as Hwf
    by (apply nonneg_well_formed; vm_compute; discriminate).
  split; [exact Hwf|].
  destruct (generateBlockPlan_trial_counts combined_123456 Hwf) as (plan & Heq & Hlen & _).
  exists plan. split; [exact Heq|exact Hlen].
Defined.

(** C6. For every (non-negative) participant number [n],
    [orderToLabel(getLatinSquareOrder(n))] is "ABC", "BCA" or "CAB", chosen by
    [n mod 3] (0 gives ABC, 1 gives BCA, 2 gives CAB), and the three orders
    form a Latin square: at each position each condition occurs in exactly
    one of them. *)
Theorem latin_square_label (n : Z) :
  0 ≤ n →
  (∃ order, getLatinSquareOrder n = Some order
     ∧ orderToLabel order
       = (if decide (n `mod` 3 = 0) then "ABC"
          else if decide (n `mod` 3 = 1) then "BCA" else "CAB")
     ∧ orderToLabel order ∈ ["ABC"; "BCA"; "CAB"])
  ∧ (∀ (position : nat) (c : Condition),
       (position < 3)%nat →
       length (filter (λ order, order !! position = Some c) LATIN_SQUARE_3) = 1%nat).
Proof.
  intros Hn. split.
  - unfold getLatinSquareOrder. rewrite Z.rem_mod_nonneg by lia.
    pose proof (Z.mod_pos_bound n 3 ltac:(lia)) as Hb.
    rewrite decide_True by lia.
    assert (n `mod` 3 = 0 ∨ n `mod` 3 = 1 ∨ n `mod` 3 = 2) as [-> | [-> | ->]] by lia.
    + exists [color; shape; combined]. split; [done|]. split; [done|]. repeat first [by left|right].
    + exists [shape; combined; color]. split; [done|]. split; [done|]. repeat first [by left|right].
    + exists [combined; color; shape]. split; [done|]. split; [done|]. repeat first [by left|right].
  - intros position c Hp.
    destruct position as [|[|[|?]]]; [| | |lia]; by destruct c.
Qed.

Lemma latin_square_label_witness :
  0 ≤ 100001
  ∧ ∃ order, getLatinSquareOrder 100001 = Some order ∧ orderToLabel order = "CAB".
Proof.
  split; [lia|].
  destruct (latin_square_label 100001 ltac:(lia)) as [(order & Ho & Hl & _) _].
  exists order. split; [exact Ho|exact Hl].
Defined.

(** C7. [seededRandom] at the seed where it departs from the normalisation
    into [1, 2147483646] and from draws in [0, 1): the seed -2147483646 is
    its own remainder, and adding 2147483646 gives the state 0; from there
    the state stays 0, and every draw is the same negative double,
    (0 - 1) / 2147483646. *)
Theorem seededRandom_zero_state :
  seededRandom (-2147483646) = 0
  ∧ ¬ lcg_state (seededRandom (-2147483646))
  ∧ ∀ n : nat,
      advance lcg n (seededRandom (-2147483646)) = 0
      ∧ (lcg (advance lcg n (seededRandom (-2147483646)))).1
        = S754_finite true 4503599631564800 (-83)
      ∧ ¬ Float64.in_unit_interval (lcg (advance lcg n (seededRandom (-2147483646)))).1.
Proof.
  split; [done|]. split; [unfold lcg_state; change (seededRandom _) with 0; lia|].
  change (seededRandom _) with 0.
  assert (∀ n, advance lcg n 0 = 0) as Hfix.
  { induction n as [|n IH]; [done|]. by rewrite advance_S. }
  intros n. rewrite Hfix. split; [done|]. split; [by vm_compute|].
  intros (_ & Hle & _). by vm_compute in Hle.
Qed.

(** C8. For every input sequence (of a length an array can have) and every
    random stream (of doubles in [0, 1)), [shuffle] returns a fresh sequence
    that is a permutation of the input, leaves the input unchanged, and
    consumes exactly [length - 1] draws (none for the empty sequence).
    Stated on the store of arrays: the result is a new reference, every
    array that was in the store is still there with the same elements, and
    the new array holds what the value-level [shuffle] computes. *)
Theorem shuffle_permutation {G T} (rand : G → spec_float * G)
    (h : gmap positive (list T)) (array : positive) (elems : list T) (g : G) :
  h !! array = Some elems →
  Z.of_nat (length elems) ≤ MAX_ARRAY_LENGTH →
  stream_unit rand g →
  ∃ next shuffled,
    shuffle_ref rand array h g
    = Ok (next, <[next:=shuffled]> h, advance rand (length elems - 1) g)
    ∧ shuffle rand elems g = Ok (shuffled, advance rand (length elems - 1) g)
    ∧ h !! next = None
    ∧ (∀ r other, h !! r = Some other → <[next:=shuffled]> h !! r = Some other)
    ∧ <[next:=shuffled]> h !! array = Some elems
    ∧ shuffled ≡ₚ elems.
Proof.
  intros Harr Hlen Hg.
  destruct (shuffle_spec rand elems g Hg Hlen) as (shuffled & Heq & Hperm).
  assert (h !! fresh (dom h) = None) as Hfresh by apply not_elem_of_dom, is_fresh.
  assert (∀ r other, h !! r = Some other →
            <[fresh (dom h):=shuffled]> h !! r = Some other) as Hkeep.
  { intros r other Hr. rewrite lookup_insert_ne; [done|]. intros <-. congruence. }
  exists (fresh (dom h)), shuffled.
  rewrite (shuffle_ref_refines rand array h elems g Harr), Heq.
  split; [done|]. split; [done|]. split; [done|]. split; [done|].
  split; [by apply Hkeep|done].
Qed.

Lemma shuffle_permutation_witness :
  ({[ 1%positive := [10; 20; 30] ]} : gmap positive (list Z)) !! 1%positive
  = Some [10; 20; 30]
  ∧ Z.of_nat (length [10; 20; 30]) ≤ MAX_ARRAY_LENGTH
  ∧ stream_unit lcg (seededRandom 42)
  ∧ ∃ next shuffled,
      shuffle_ref lcg 1%positive {[ 1%positive := [10; 20; 30] ]} (seededRandom 42)
      = Ok (next, <[next:=shuffled]> {[ 1%positive := [10; 20; 30] ]},
            advance lcg 2 (seededRandom 42))
      ∧ shuffled ≡ₚ [10; 20; 30].
Proof.
  assert (Z.of_nat (length [10; 20; 30]) ≤ MAX_ARRAY_LENGTH) as Hlen
    by (vm_compute; discriminate).
  assert (stream_unit lcg (seededRandom 42)) as Hg
    by (apply seeded_stream_unit, nonneg_seed; lia).
  assert (({[ 1%positive := [10; 20; 30] ]} : gmap positive (list Z)) !! 1%positive
          = Some [10; 20; 30]) as Hlook by reflexivity.
  split; [exact Hlook|]. split; [exact Hlen|]. split; [exact Hg|].
  destruct (shuffle_permutation lcg {[ 1%positive := [10; 20; 30] ]} 1%positive
              [10; 20; 30] (seededRandom 42) Hlook Hlen Hg)
    as (next & shuffled & Heq & _ & _ & _ & _ & Hperm).
  exists next, shuffled. split; [exact Heq|exact Hperm].
Defined.

(** C9. For every random stream, [buildBalancedIndices] returns the empty
    sequence, without an error and with the generator left where it was,
    whenever [sampleCount <= 0] or [categoryCount <= 0]. *)
Theorem buildBalancedIndices_degenerate {G} (rand : G → spec_float * G)
    (categoryCount sampleCount : Z) (g : G) :
  sampleCount ≤ 0 ∨ categoryCount ≤ 0 →
  buildBalancedIndices rand categoryCount sampleCount g = Ok ([], g).
Proof. intros H. unfold buildBalancedIndices. by rewrite decide_True. Qed.

Lemma buildBalancedIndices_degenerate_witness :
  (0 ≤ 0 ∨ 8 ≤ 0) ∧ buildBalancedIndices lcg 8 0 (seededRandom 42) = Ok ([], seededRandom 42).
Proof.
  split; [left; lia|]. apply (buildBalancedIndices_degenerate lcg 8 0). left. lia.
Defined.

(** C10. For every participant number [n] from 0 to
    [MAX_PARTICIPANT_NUMBER] (with a greater one the seeds are no longer
    exact in binary64), [generateAllBlocks(n)] returns exactly 3 plans; the
    [i]-th (from 0) is the plan [generateBlockPlan] makes for block index
    [i], block order [i + 1], the [i]-th condition of
    [getLatinSquareOrder(n)], 3 practice and 10 measured trials, and carries
    these values. *)
Theorem generateAllBlocks_three (n : Z) :
  0 ≤ n ≤ MAX_PARTICIPANT_NUMBER →
  ∃ order blocks,
    getLatinSquareOrder n = Some order
    ∧ generateAllBlocks n = Ok blocks
    ∧ length blocks = 3%nat
    ∧ ∀ (i : nat) block, blocks !! i = Some block →
        ∃ c, order !! i = Some c
          ∧ generateBlockPlan
              {| arg_participantNumber := n;
                 arg_blockIndex := Z.of_nat i;
                 arg_blockOrder := Z.of_nat i + 1;
                 arg_condition := c;
                 arg_practiceTrials := Some 3;
                 arg_measuredTrials := Some 10 |} = Ok block
          ∧ blockIndex block = Z.of_nat i
          ∧ blockOrder block = Z.of_nat i + 1
          ∧ condition block = c
          ∧ practiceTrials block = 3%nat
          ∧ measuredTrials block = 10%nat
          ∧ length (trials block) = 13%nat.
Proof.
  intros Hn.
  destruct (generateAllBlocks_spec n Hn) as (order & blocks & Ho & _ & Heq & Hlen & Hall).
  exists order, blocks. split; [done|]. split; [done|]. split; [done|].
  intros i block Hi. destruct (Hall i block Hi) as (c & Hc & Hwf & Hgen).
  exists c. split; [done|]. split; [exact Hgen|].
  destruct (generateBlockPlan_spec _ Hwf)
    as (plan & Hplan & Hbi & Hbo & Hcond & Hpr & Hme & Hspec).
  rewrite Hgen in Hplan. injection Hplan as <-.
  destruct (plan_counts _ block Hwf Hspec) as (Hlen' & Hlp & Hlm).
  split; [done|]. split; [done|]. split; [done|].
  split; [by rewrite Hpr, Hlp|]. split; [by rewrite Hme, Hlm|done].
Qed.

Lemma generateAllBlocks_three_witness :
  0 ≤ 100001 ≤ MAX_PARTICIPANT_NUMBER
  ∧ ∃ order blocks,
      getLatinSquareOrder 100001 = Some order
      ∧ generateAllBlocks 100001 = Ok blocks ∧ length blocks = 3%nat.
Proof.
  assert (0 ≤ 100001 ≤ MAX_PARTICIPANT_NUMBER) as Hn by (unfold MAX_PARTICIPANT_NUMBER; lia).
  split; [exact Hn|].
  destruct (generateAllBlocks_three 100001 Hn) as (order & blocks & Ho & Hb & Hl & _).
  exists order, blocks. split; [exact Ho|]. split; [exact Hb|exact Hl].
Defined.

(** * Further properties of the code *)

(** X1. [getLatinSquareOrder] has no order ([undefined]) exactly for the
    negative participant numbers that are not multiples of 3, where [%]
    gives a negative index; [generateAllBlocks] then fails with a TypeError.
    A negative multiple of 3 gets the first row. *)
Theorem getLatinSquareOrder_undefined (n : Z) :
  (getLatinSquareOrder n = None ↔ n < 0 ∧ n `mod` 3 ≠ 0)
  ∧ (getLatinSquareOrder n = None → generateAllBlocks n = Throw TypeError)
  ∧ (n < 0 ∧ n `mod` 3 = 0 → getLatinSquareOrder n = Some [color; shape; combined]).
Proof.
  split; [split|split].
  - intros Hnone. destruct (decide (0 ≤ n)) as [Hn|Hn].
    + destruct (getLatinSquareOrder_nonneg n Hn) as [Heq Hmod]. rewrite Heq in Hnone.
      destruct Hmod as [Hm | [Hm | Hm]]; by rewrite Hm in Hnone.
    + split; [lia|]. intros Hmod. revert Hnone. unfold getLatinSquareOrder.
      assert (Z.rem n 3 = 0) as -> by (Z.quot_rem_to_equations; Z.div_mod_to_equations; lia).
      done.
  - intros [Hn Hmod]. by apply getLatinSquareOrder_negative.
  - intros Hnone. unfold generateAllBlocks. by rewrite Hnone.
  - intros [Hn Hmod]. unfold getLatinSquareOrder.
    assert (Z.rem n 3 = 0) as -> by (Z.quot_rem_to_equations; Z.div_mod_to_equations; lia).
    done.
Qed.

(** X2. Except for the negative seeds that are 1 modulo 2147483647,
    [seededRandom] starts in a state in [1, 2147483646]; the state stays in
    that range after any number of draws, and every draw is a double in
    [0, 1). *)
Theorem seededRandom_normalised (seed : Z) :
  ¬ (seed < 0 ∧ seed `mod` 2147483647 = 1) →
  1 ≤ seededRandom seed ≤ 2147483646
  ∧ ∀ n : nat,
      1 ≤ advance lcg n (seededRandom seed) ≤ 2147483646
      ∧ Float64.in_unit_interval (lcg (advance lcg n (seededRandom seed))).1.
Proof.
  rewrite <- degenerate_seed_iff. intros Hseed.
  pose proof (seededRandom_state seed Hseed) as Hs. split; [done|].
  intros n. split; [by apply lcg_state_advance|]. by apply lcg_stream_unit.
Qed.

Lemma seededRandom_normalised_witness :
  ¬ (0 < 0 ∧ 0 `mod` 2147483647 = 1)
  ∧ seededRandom 0 = 2147483646
  ∧ Float64.in_unit_interval (lcg (advance lcg 5 (seededRandom 0))).1.
Proof.
  assert (¬ (0 < 0 ∧ 0 `mod` 2147483647 = 1)) as H by lia.
  split; [exact H|]. split; [reflexivity|].
  exact (proj2 (proj2 (seededRandom_normalised 0 H) 5%nat)).
Defined.

(** X3. The step of the generator is injective on the states in
    [1, 2147483646] and has no fixed point there: two generators in
    different states are in different states after any number of draws, and
    a draw always changes the state. *)
Theorem lcg_states_never_merge (n : nat) (s1 s2 : Z) :
  lcg_state s1 → lcg_state s2 →
  (advance lcg n s1 = advance lcg n s2 → s1 = s2) ∧ (lcg s1).2 ≠ s1.
Proof.
  intros H1 H2. split; [by apply lcg_advance_inj|by apply lcg_step_moves].
Qed.

Lemma lcg_states_never_merge_witness :
  lcg_state 1 ∧ lcg_state 2
  ∧ (advance lcg 3 1 = advance lcg 3 2 → 1 = 2) ∧ (lcg 1).2 ≠ 1.
Proof.
  assert (lcg_state 1) as H1 by (unfold lcg_state; lia).
  assert (lcg_state 2) as H2 by (unfold lcg_state; lia).
  split; [exact H1|]. split; [exact H2|]. exact (lcg_states_never_merge 3 1 2 H1 H2).
Defined.

(** X4. On positive arguments [buildBalancedIndices] makes a fixed number of
    draws: [sampleCount - 1] for the final shuffle, and [categoryCount - 1]
    more for the shuffle that picks the extras when [categoryCount] does not
    divide [sampleCount]. *)
Theorem buildBalancedIndices_draw_count {G} (rand : G → spec_float * G)
    (categoryCount sampleCount : Z) (g : G) :
  0 < categoryCount ≤ MAX_ARRAY_LENGTH →
  0 < sampleCount ≤ MAX_ARRAY_LENGTH →
  stream_unit rand g →
  ∃ indices,
    buildBalancedIndices rand categoryCount sampleCount g
    = Ok (indices, advance rand (balanced_draws categoryCount sampleCount) g).
Proof. intros Hcat Hsample Hg. by apply buildBalancedIndices_draws. Qed.

Lemma buildBalancedIndices_draw_count_witness :
  0 < 8 ≤ MAX_ARRAY_LENGTH ∧ 0 < 10 ≤ MAX_ARRAY_LENGTH
  ∧ stream_unit lcg (seededRandom 42)
  ∧ ∃ indices,
      buildBalancedIndices lcg 8 10 (seededRandom 42)
      = Ok (indices, advance lcg 16 (seededRandom 42)).
Proof.
  assert (0 < 8 ≤ MAX_ARRAY_LENGTH) as Hcat by (vm_compute; split; [reflexivity|discriminate]).
  assert (0 < 10 ≤ MAX_ARRAY_LENGTH) as Hsample
    by (vm_compute; split; [reflexivity|discriminate]).
  assert (stream_unit lcg (seededRandom 42)) as Hg
    by (apply seeded_stream_unit, nonneg_seed; lia).
  split; [exact Hcat|]. split; [exact Hsample|]. split; [exact Hg|].
  exact (buildBalancedIndices_draw_count lcg 8 10 (seededRandom 42) Hcat Hsample Hg).
Defined.

(** X5. In the result of [buildBalancedIndices] on positive arguments,
    exactly [sampleCount mod categoryCount] categories occur
    [floor(sampleCount / categoryCount) + 1] times and all the others occur
    [floor(sampleCount / categoryCount)] times. *)
Theorem buildBalancedIndices_extras {G} (rand : G → spec_float * G)
    (categoryCount sampleCount : Z) (g : G) :
  0 < categoryCount ≤ MAX_ARRAY_LENGTH →
  0 < sampleCount ≤ MAX_ARRAY_LENGTH →
  stream_unit rand g →
  ∃ indices g',
    buildBalancedIndices rand categoryCount sampleCount g = Ok (indices, g')
    ∧ let categories := seq 0 (Z.to_nat categoryCount) in
      let base := sampleCount `div` categoryCount in
      Z.of_nat (length (filter (λ k, Z.of_nat (occ k indices) = base + 1) categories))
      = sampleCount `mod` categoryCount
      ∧ Z.of_nat (length (filter (λ k, Z.of_nat (occ k indices) = base) categories))
        = categoryCount - sampleCount `mod` categoryCount.
Proof.
  intros Hcat Hsample Hg.
  destruct (buildBalancedIndices_spec rand categoryCount sampleCount g Hg Hcat Hsample)
    as (indices & n & Heq & Hbal).
  pose proof (Z.mod_pos_bound sampleCount categoryCount ltac:(lia)) as Hmod.
  assert (0 ≤ sampleCount `div` categoryCount) as Hdiv by (apply Z.div_pos; lia).
  destruct (balanced_occ_extras _ _ _ _ Hbal) as [H1 H2].
  exists indices, (advance rand n g). split; [done|]. cbv zeta. split.
  - rewrite (filter_ext_in _ (λ k, occ k indices = S (Z.to_nat (sampleCount `div` categoryCount))))
      by (intros k _; lia).
    rewrite H1. lia.
  - rewrite (filter_ext_in _ (λ k, occ k indices = Z.to_nat (sampleCount `div` categoryCount)))
      by (intros k _; lia).
    rewrite H2. lia.
Qed.

Lemma buildBalancedIndices_extras_witness :
  0 < 8 ≤ MAX_ARRAY_LENGTH ∧ 0 < 10 ≤ MAX_ARRAY_LENGTH
  ∧ stream_unit lcg (seededRandom 42)
  ∧ ∃ indices g',
      buildBalancedIndices lcg 8 10 (seededRandom 42) = Ok (indices, g')
      ∧ Z.of_nat (length (filter (λ k, Z.of_nat (occ k indices) = 1 + 1) (seq 0 8))) = 2.
Proof.
  assert (0 < 8 ≤ MAX_ARRAY_LENGTH) as Hcat by (vm_compute; split; [reflexivity|discriminate]).
  assert (0 < 10 ≤ MAX_ARRAY_LENGTH) as Hsample
    by (vm_compute; split; [reflexivity|discriminate]).
  assert (stream_unit lcg (seededRandom 42)) as Hg
    by (apply seeded_stream_unit, nonneg_seed; lia).
  split; [exact Hcat|]. split; [exact Hsample|]. split; [exact Hg|].
  destruct (buildBalancedIndices_extras lcg 8 10 (seededRandom 42) Hcat Hsample Hg)
    as (indices & g' & Heq & Hextra & _).
  exists indices, g'. split; [exact Heq|exact Hextra].
Defined.

(** X6. In every trial of the plan of a well-formed call (whose seeds are
    exact in binary64) the eight items have the ids [item_1] to
    [item_8] in display order; [correctItemId] names exactly one of them, and
    that item has both the target colour and the target shape of the trial
    (in the colour-only blocks every item is a circle and the target shape is
    [circle]; in the shape-only blocks every item is black and the target
    colour is [black]); the prompt is made of these targets. *)
Theorem generateBlockPlan_correct_item (args : BlockArgs) :
  well_formed args →
  ∃ plan,
    generateBlockPlan args = Ok plan
    ∧ ∀ trial, trial ∈ trials plan →
        item_id <$> items trial = ITEM_IDS
        ∧ promptText trial
          = prompt_of (trial_condition trial) (targetColor trial) (targetShape trial)
        ∧ ∃ item,
            filter (λ item, item_id item = correctItemId trial) (items trial) = [item]
            ∧ colorName item = targetColor trial
            ∧ shapeName item = targetShape trial.
Proof.
  intros Hwf. destruct (generateBlockPlan_spec args Hwf) as (plan & Heq & _).
  exists plan. split; [done|]. intros trial (t & Ht)%list_elem_of_lookup_1.
  destruct (plan_trial_items args plan t trial Hwf Heq Ht)
    as (_ & _ & _ & Hcond & _ & Hprompt & [Hids _] & Hitem).
  split; [done|]. split; [by rewrite Hcond|done].
Qed.

Lemma generateBlockPlan_correct_item_witness :
  well_formed combined_123456
  ∧ ∃ plan, generateBlockPlan combined_123456 = Ok plan
      ∧ ∀ trial, trial ∈ trials plan → item_id <$> items trial = ITEM_IDS.
Proof.
  assert (well_formed combined_123456) as Hwf
    by (apply nonneg_well_formed; vm_compute; discriminate).
  split; [exact Hwf|].
  destruct (generateBlockPlan_correct_item combined_123456 Hwf) as (plan & Heq & Hall).
  exists plan. split; [exact Heq|]. intros trial Hin. exact (proj1 (Hall trial Hin)).
Defined.

(** X7. [buildItemsForColorOnlyTrial] (on a seed the generator normalises)
    returns eight items that show each colour of [COLORS] exactly once, with
    the hex value of the table, all of them circles. *)
Theorem buildItemsForColorOnlyTrial_palette (trialSeed : Z) :
  ¬ degenerate_seed trialSeed →
  ∃ its,
    buildItemsForColorOnlyTrial trialSeed = Ok its
    ∧ length its = 8%nat
    ∧ item_color <$> its ≡ₚ COLORS
    ∧ ∀ item, item ∈ its → shapeName item = "circle" ∧ shapeSymbol item = "●".
Proof.
  intros Hseed. destruct (color_items_spec trialSeed Hseed) as (its & Heq & Hids & Hc & Hall).
  exists its. split; [done|]. split; [|split; [done|]].
  - by rewrite <- (length_fmap item_id), Hids.
  - by apply Forall_forall.
Qed.

Lemma buildItemsForColorOnlyTrial_palette_witness :
  ¬ degenerate_seed 12345600001
  ∧ ∃ its, buildItemsForColorOnlyTrial 12345600001 = Ok its ∧ item_color <$> its ≡ₚ COLORS.
Proof.
  assert (¬ degenerate_seed 12345600001) as Hseed by (apply nonneg_seed; lia).
  split; [exact Hseed|].
  destruct (buildItemsForColorOnlyTrial_palette 12345600001 Hseed) as (its & Heq & _ & Hc & _).
  exists its. split; [exact Heq|exact Hc].
Defined.

(** X8. [buildItemsForShapeOnlyTrial] (on a seed the generator normalises)
    returns eight items that show each shape of [SHAPES] exactly once, with
    the symbol of the table, all of them black. *)
Theorem buildItemsForShapeOnlyTrial_palette (trialSeed : Z) :
  ¬ degenerate_seed trialSeed →
  ∃ its,
    buildItemsForShapeOnlyTrial trialSeed = Ok its
    ∧ length its = 8%nat
    ∧ item_shape <$> its ≡ₚ SHAPES
    ∧ ∀ item, item ∈ its → colorName item = "black" ∧ colorHex item = "#111111".
Proof.
  intros Hseed. destruct (shape_items_spec trialSeed Hseed) as (its & Heq & Hids & Hs & Hall).
  exists its. split; [done|]. split; [|split; [done|]].
  - by rewrite <- (length_fmap item_id), Hids.
  - by apply Forall_forall.
Qed.

Lemma buildItemsForShapeOnlyTrial_palette_witness :
  ¬ degenerate_seed 12345600001
  ∧ ∃ its, buildItemsForShapeOnlyTrial 12345600001 = Ok its ∧ item_shape <$> its ≡ₚ SHAPES.
Proof.
  assert (¬ degenerate_seed 12345600001) as Hseed by (apply nonneg_seed; lia).
  split; [exact Hseed|].
  destruct (buildItemsForShapeOnlyTrial_palette 12345600001 Hseed) as (its & Heq & _ & Hs & _).
  exists its. split; [exact Heq|exact Hs].
Defined.

(** X9. For a target colour and a target shape of the tables,
    [buildCombinedItemsForTarget] (on a seed the generator normalises)
    returns eight items in which every colour of [COLORS] and every shape of
    [SHAPES] occurs exactly once, with the hex value and the symbol of the
    tables; one item pairs the target colour with the target shape, so no
    distractor shares the colour or the shape of the target. *)
Theorem buildCombinedItemsForTarget_palette (trialSeed : Z) (c : Color) (s : Shape) :
  c ∈ COLORS → s ∈ SHAPES → ¬ degenerate_seed trialSeed →
  ∃ its,
    buildCombinedItemsForTarget trialSeed (color_name c) (shape_name s) = Ok its
    ∧ length its = 8%nat
    ∧ item_color <$> its ≡ₚ COLORS
    ∧ item_shape <$> its ≡ₚ SHAPES
    ∧ ∃ item, item ∈ its ∧ item_color item = c ∧ item_shape item = s.
Proof.
  intros (ci & Hci)%list_elem_of_lookup_1 (si & Hsi)%list_elem_of_lookup_1 Hseed.
  apply color_at_lookup in Hci as [Hci <-]. apply shape_at_lookup in Hsi as [Hsi <-].
  destruct (combined_items_spec trialSeed ci si Hseed Hci Hsi)
    as (its & Heq & Hids & Hc & Hs & Hitem).
  exists its. split; [done|]. split; [|done].
  by rewrite <- (length_fmap item_id), Hids.
Qed.

Lemma buildCombinedItemsForTarget_palette_witness :
  color_at 1 ∈ COLORS ∧ shape_at 4 ∈ SHAPES ∧ ¬ degenerate_seed 12345600001
  ∧ ∃ its, buildCombinedItemsForTarget 12345600001 "blue" "star" = Ok its
      ∧ item_color <$> its ≡ₚ COLORS ∧ item_shape <$> its ≡ₚ SHAPES.
Proof.
  assert (color_at 1 ∈ COLORS) as Hc by (apply (list_elem_of_lookup_2 _ 1%nat); reflexivity).
  assert (shape_at 4 ∈ SHAPES) as Hs by (apply (list_elem_of_lookup_2 _ 4%nat); reflexivity).
  assert (¬ degenerate_seed 12345600001) as Hseed by (apply nonneg_seed; lia).
  split; [exact Hc|]. split; [exact Hs|]. split; [exact Hseed|].
  destruct (buildCombinedItemsForTarget_palette 12345600001 _ _ Hc Hs Hseed)
    as (its & Heq & _ & Hcs & Hss & _).
  exists its. split; [exact Heq|]. split; [exact Hcs|exact Hss].
Defined.

(** X10. The trials of the plan of a well-formed call carry the block index,
    the block order and the condition of the plan; the trial at position [t]
    (from 0) has the id [b<blockIndex>_t<t + 1>], so the ids of a plan are
    pairwise distinct.  (On such a call the seeds are exact, and the block
    index is below 10^21, so that the id has all its digits.) *)
Theorem generateBlockPlan_trial_ids (args : BlockArgs) :
  well_formed args →
  ∃ plan,
    generateBlockPlan args = Ok plan
    ∧ (∀ (t : nat) trial, trials plan !! t = Some trial →
         trial_id trial
         = "b" +:+ pretty (blockIndex plan) +:+ "_t" +:+ pretty (Z.of_nat t + 1)
         ∧ trial_blockIndex trial = blockIndex plan
         ∧ trial_blockOrder trial = blockOrder plan
         ∧ trial_condition trial = condition plan
         ∧ targetType trial = condition plan)
    ∧ NoDup (trial_id <$> trials plan).
Proof.
  intros Hwf.
  destruct (generateBlockPlan_spec args Hwf) as (plan & Heq & Hbi & Hbo & Hc & _).
  exists plan. split; [done|]. split; [|by apply (plan_trial_ids_NoDup args)].
  intros t trial Ht.
  destruct (plan_trial_items args plan t trial Hwf Heq Ht)
    as (Hid & Htbi & Htbo & Hcond & Htt & _).
  rewrite Hbi, Hbo, Hc. done.
Qed.

Lemma generateBlockPlan_trial_ids_witness :
  well_formed combined_123456
  ∧ ∃ plan, generateBlockPlan combined_123456 = Ok plan
      ∧ NoDup (trial_id <$> trials plan).
Proof.
  assert (well_formed combined_123456) as Hwf
    by (apply nonneg_well_formed; vm_compute; discriminate).
  split; [exact Hwf|].
  destruct (generateBlockPlan_trial_ids combined_123456 Hwf) as (plan & Heq & _ & Hnd).
  exists plan. split; [exact Heq|exact Hnd].
Defined.

(** X11. [findItemForTarget] returns the first item of the list that meets
    the criterion of the condition, and throws (the error of that condition)
    exactly when no item meets it, in particular on an empty list. *)
Theorem findItemForTarget_first (its : list StimulusItem) (targetColor targetShape : string)
    (c : Condition) :
  match findItemForTarget its targetColor targetShape c with
  | Ok item =>
      ∃ before after,
        its = before ++ item :: after
        ∧ matches_target c targetColor targetShape item = true
        ∧ ∀ other, other ∈ before → matches_target c targetColor targetShape other = false
  | Throw e =>
      e = NoMatchingTarget c
      ∧ ∀ other, other ∈ its → matches_target c targetColor targetShape other = false
  end.
Proof.
  assert (∀ f : StimulusItem → bool,
            match List.find f its with
            | Some item =>
                ∃ before after, its = before ++ item :: after ∧ f item = true
                  ∧ ∀ other, other ∈ before → f other = false
            | None => ∀ other, other ∈ its → f other = false
            end) as Hfind.
  { intros f. induction its as [|x l IH]; [by intros other ?%elem_of_nil|].
    cbn [List.find]. destruct (f x) eqn:Hx.
    - exists [], l. split; [done|]. split; [done|]. by intros other ?%elem_of_nil.
    - destruct (List.find f l) as [item|].
      + destruct IH as (before & after & -> & Hitem & Hbefore).
        exists (x :: before), after. split; [done|]. split; [done|].
        intros other [->|Hin]%elem_of_cons; [done|by apply Hbefore].
      + intros other [->|Hin]%elem_of_cons; [done|by apply IH]. }
  unfold findItemForTarget. destruct c; cbn [matches_target].
  - specialize (Hfind (λ item, bool_decide (colorName item = targetColor))).
    by destruct (List.find _ its).
  - specialize (Hfind (λ item, bool_decide (shapeName item = targetShape))).
    by destruct (List.find _ its).
  - specialize (Hfind (λ item, bool_decide (colorName item = targetColor)
                               && bool_decide (shapeName item = targetShape))).
    by destruct (List.find _ its).
Qed.

(** X12. The practice trials of the plan of a well-formed call (whose seeds
    are exact in binary64) are balanced like the measured ones:
    among them every colour is the target [floor(p / 8)] times or once more
    (in the [color] and [combined] conditions), and every shape likewise (in
    the [shape] and [combined] conditions); with at most 8 practice trials, 3
    by default, no target colour and no target shape is repeated. *)
Theorem generateBlockPlan_practice_targets (args : BlockArgs) :
  well_formed args →
  ∃ plan,
    generateBlockPlan args = Ok plan
    ∧ let practice := filter (λ trial, isPractice trial = true) (trials plan) in
      let colors := targetColor <$> practice in
      let shapes := targetShape <$> practice in
      let p := practice_count args in
      (arg_condition args ≠ shape →
         (∀ c, c ∈ color_name <$> COLORS →
            Z.of_nat (occ c colors) = p `div` 8 ∨ Z.of_nat (occ c colors) = p `div` 8 + 1)
         ∧ (p < 8 → NoDup colors))
      ∧ (arg_condition args ≠ color →
           (∀ s, s ∈ shape_name <$> SHAPES →
              Z.of_nat (occ s shapes) = p `div` 8 ∨ Z.of_nat (occ s shapes) = p `div` 8 + 1)
           ∧ (p < 8 → NoDup shapes)).
Proof.
  intros Hwf. destruct (well_formed_bounds args Hwf) as [Hp _].
  destruct (generateBlockPlan_spec args Hwf) as (plan & Heq & _ & _ & _ & _ & _ & Hplan).
  destruct (practice_targets args plan Hwf Hplan) as (pc & ps & Hpc & Hps & Hcolors & Hshapes).
  cbv zeta in Hpc, Hps.
  assert (0 ≤ practice_count args `div` 8) as Hdiv by (apply Z.div_pos; lia).
  exists plan. split; [done|]. cbv zeta.
  set (p := practice_count args) in *.
  split.
  - intros Hcond. rewrite Hcolors.
    destruct (decide (arg_condition args = shape)) as [?|_]; [done|].
    change (color_name <$> COLORS) with ((λ i, color_name (color_at i)) <$> seq 0 8).
    split.
    + intros c (k & -> & Hk%elem_of_seq)%list_elem_of_fmap.
      destruct (marginal_near_even _ color_name_inj _ _ _ Hpc k ltac:(lia)) as [-> | ->]; lia.
    + intros Hp8. rewrite Z.div_small in Hpc by lia. change (Z.to_nat 0) with 0%nat in Hpc.
      apply NoDup_fmap_2_strong; [|by eapply balanced_few_NoDup].
      intros i j Hi Hj. apply color_name_inj;
        [exact (balanced_bound _ _ _ _ _ Hpc Hi)|exact (balanced_bound _ _ _ _ _ Hpc Hj)].
  - intros Hcond. rewrite Hshapes.
    destruct (decide (arg_condition args = color)) as [?|_]; [done|].
    change (shape_name <$> SHAPES) with ((λ i, shape_name (shape_at i)) <$> seq 0 8).
    split.
    + intros c (k & -> & Hk%elem_of_seq)%list_elem_of_fmap.
      destruct (marginal_near_even _ shape_name_inj _ _ _ Hps k ltac:(lia)) as [-> | ->]; lia.
    + intros Hp8. rewrite Z.div_small in Hps by lia. change (Z.to_nat 0) with 0%nat in Hps.
      apply NoDup_fmap_2_strong; [|by eapply balanced_few_NoDup].
      intros i j Hi Hj. apply shape_name_inj;
        [exact (balanced_bound _ _ _ _ _ Hps Hi)|exact (balanced_bound _ _ _ _ _ Hps Hj)].
Qed.

Lemma generateBlockPlan_practice_targets_witness :
  well_formed combined_123456
  ∧ ∃ plan, generateBlockPlan combined_123456 = Ok plan
      ∧ NoDup (targetColor <$> filter (λ trial, isPractice trial = true) (trials plan)).
Proof.
  assert (well_formed combined_123456) as Hwf
    by (apply nonneg_well_formed; vm_compute; discriminate).
  split; [exact Hwf|].
  destruct (generateBlockPlan_practice_targets combined_123456 Hwf) as (plan & Heq & Hc & _).
  exists plan. split; [exact Heq|].
  apply (proj2 (Hc ltac:(discriminate))). reflexivity.
Defined.

(** X13. What [assertBalancedTargets] computes: with no measured trial both
    differences are [-Infinity]; otherwise each is the number of measured
    trials of the most frequent target minus that of the least frequent
    target, among the targets that occur at all (a colour or a shape that is
    never a target is not counted as 0). *)
Theorem assertBalancedTargets_spread (plan_trials : list TrialPlan) :
  let measured := filter (λ trial, isPractice trial = false) plan_trials in
  let colors := targetColor <$> measured in
  let shapes := targetShape <$> measured in
  (measured = [] →
     assertBalancedTargets plan_trials
     = {| maxColorDiff := NegInfinity; maxShapeDiff := NegInfinity |})
  ∧ (measured ≠ [] →
       (∃ cmax cmin,
          cmax ∈ colors ∧ cmin ∈ colors
          ∧ (∀ c, c ∈ colors → (occ cmin colors ≤ occ c colors ≤ occ cmax colors)%nat)
          ∧ maxColorDiff (assertBalancedTargets plan_trials)
            = Spread (Z.of_nat (occ cmax colors) - Z.of_nat (occ cmin colors)))
       ∧ (∃ smax smin,
            smax ∈ shapes ∧ smin ∈ shapes
            ∧ (∀ s, s ∈ shapes → (occ smin shapes ≤ occ s shapes ≤ occ smax shapes)%nat)
            ∧ maxShapeDiff (assertBalancedTargets plan_trials)
              = Spread (Z.of_nat (occ smax shapes) - Z.of_nat (occ smin shapes)))).
Proof.
  cbv zeta. unfold assertBalancedTargets. cbn [maxColorDiff maxShapeDiff].
  set (measured := filter (λ trial, isPractice trial = false) plan_trials).
  split.
  - intros ->. done.
  - intros Hne. split; apply spread_of_counts; by destruct measured.
Qed.

(** X14. On the plans of the well-formed calls of [generateBlockPlan] (whose
    seeds are exact in binary64) with at least one measured trial, the colour difference [assertBalancedTargets] returns is 1 when the
    block has colour targets ([color] or [combined]) and the number of
    measured trials is above 8 and not a multiple of 8, and 0 otherwise (for
    a multiple of 8, for fewer than 8 trials, whose targets are all
    different, and in the [shape] condition, whose target colour is always
    [black]); the shape difference likewise. *)
Theorem assertBalancedTargets_plan (args : BlockArgs) :
  well_formed args → 0 < measured_count args →
  ∃ plan,
    generateBlockPlan args = Ok plan
    ∧ let m := measured_count args in
      maxColorDiff (assertBalancedTargets (trials plan))
      = Spread (if decide (arg_condition args ≠ shape ∧ 8 < m ∧ m `mod` 8 ≠ 0) then 1 else 0)
      ∧ maxShapeDiff (assertBalancedTargets (trials plan))
        = Spread (if decide (arg_condition args ≠ color ∧ 8 < m ∧ m `mod` 8 ≠ 0) then 1 else 0).
Proof.
  intros Hwf Hpos. destruct (well_formed_bounds args Hwf) as [_ Hm].
  destruct (generateBlockPlan_spec args Hwf) as (plan & Heq & _ & _ & _ & _ & _ & Hplan).
  destruct (measured_targets args plan Hwf Hplan) as (mc & ms & Hmc & Hms & Hcolors & Hshapes).
  cbv zeta in Hmc, Hms.
  pose proof (Z.div_mod (measured_count args) 8 ltac:(lia)) as Hdm.
  pose proof (Z.mod_pos_bound (measured_count args) 8 ltac:(lia)) as Hmod.
  assert (0 ≤ measured_count args `div` 8) as Hdiv by (apply Z.div_pos; lia).
  exists plan. split; [done|]. cbv zeta. unfold assertBalancedTargets.
  cbn [maxColorDiff maxShapeDiff]. rewrite Hcolors, Hshapes.
  set (m := measured_count args) in *.
  assert (mc ≠ []) as Hmcne.
  { intros ->. pose proof (balanced_length_Z m [] ltac:(lia) Hmc) as Hl. simpl in Hl. lia. }
  assert (ms ≠ []) as Hmsne.
  { intros ->. pose proof (balanced_length_Z m [] ltac:(lia) Hms) as Hl. simpl in Hl. lia. }
  split.
  - destruct (decide (arg_condition args = shape)) as [Hc|Hc].
    + rewrite spread_of_constant by done. by rewrite decide_False by (by intros [? _]).
    + rewrite (spread_of_balanced _ color_name_inj _ _ _ Hmc) by (done || lia). f_equal.
      destruct (decide (0 < Z.to_nat (m `div` 8) ∧ 0 < Z.to_nat (m `mod` 8))%nat) as [H|H].
      * rewrite decide_True; [done|]. split; [done|]. lia.
      * rewrite decide_False; [done|]. intros (_ & H8 & Hr). lia.
  - destruct (decide (arg_condition args = color)) as [Hc|Hc].
    + rewrite spread_of_constant by done. by rewrite decide_False by (by intros [? _]).
    + rewrite (spread_of_balanced _ shape_name_inj _ _ _ Hms) by (done || lia). f_equal.
      destruct (decide (0 < Z.to_nat (m `div` 8) ∧ 0 < Z.to_nat (m `mod` 8))%nat) as [H|H].
      * rewrite decide_True; [done|]. split; [done|]. lia.
      * rewrite decide_False; [done|]. intros (_ & H8 & Hr). lia.
Qed.

Lemma assertBalancedTargets_plan_witness :
  well_formed combined_123456 ∧ 0 < measured_count combined_123456
  ∧ ∃ plan, generateBlockPlan combined_123456 = Ok plan
      ∧ maxColorDiff (assertBalancedTargets (trials plan)) = Spread 1
      ∧ maxShapeDiff (assertBalancedTargets (trials plan)) = Spread 1.
Proof.
  assert (well_formed combined_123456) as Hwf
    by (apply nonneg_well_formed; vm_compute; discriminate).
  assert (0 < measured_count combined_123456) as Hm by reflexivity.
  split; [exact Hwf|]. split; [exact Hm|].
  destruct (assertBalancedTargets_plan combined_123456 Hwf Hm) as (plan & Heq & Hc & Hs).
  exists plan. split; [exact Heq|]. split; [exact Hc|exact Hs].
Defined.

(** X15. A session of [generateAllBlocks] (for a participant number from 0
    to [MAX_PARTICIPANT_NUMBER], with which the seeds are exact) presents
    every condition exactly once, in the order of the Latin square; it has 39
    trials, 30 of them measured, and no two trials of the session have the
    same id. *)
Theorem generateAllBlocks_session (n : Z) :
  0 ≤ n ≤ MAX_PARTICIPANT_NUMBER →
  ∃ blocks,
    generateAllBlocks n = Ok blocks
    ∧ getLatinSquareOrder n = Some (condition <$> blocks)
    ∧ condition <$> blocks ≡ₚ CONDITIONS
    ∧ length (concat (trials <$> blocks)) = 39%nat
    ∧ length (filter (λ trial, isPractice trial = false) (concat (trials <$> blocks)))
      = 30%nat
    ∧ NoDup (trial_id <$> concat (trials <$> blocks)).
Proof.
  intros Hn.
  destruct (generateAllBlocks_spec n Hn) as (order & blocks & Ho & Hin & Heq & Hlen & Hall).
  exists blocks. split; [done|].
  assert (condition <$> blocks = order) as Hconds.
  { apply list_eq. intros i. rewrite list_lookup_fmap.
    destruct (blocks !! i) as [block|] eqn:Hi.
    - destruct (Hall i block Hi) as (c & Hc & Hwf & Hgen).
      destruct (generateBlockPlan_spec _ Hwf) as (plan & Hplan & _ & _ & Hcond & _).
      rewrite Hgen in Hplan. injection Hplan as <-. simpl. by rewrite Hcond, Hc.
    - simpl. symmetry. apply lookup_ge_None_2. apply lookup_ge_None_1 in Hi.
      unfold LATIN_SQUARE_3 in Hin.
      repeat (apply elem_of_cons in Hin as [->|Hin]); [| | |by apply elem_of_nil in Hin];
        simpl; lia. }
  split; [by rewrite Hconds|]. split.
  { rewrite Hconds. unfold LATIN_SQUARE_3 in Hin.
    repeat (apply elem_of_cons in Hin as [->|Hin]); [| | |by apply elem_of_nil in Hin];
      unfold CONDITIONS.
    - done.
    - symmetry. apply (Permutation_cons_append [shape; combined] color).
    - apply (Permutation_cons_append [color; shape] combined). }
  destruct blocks as [|b0 [|b1 [|b2 [|? ?]]]]; try done.
  destruct (Hall 0%nat b0 eq_refl) as (c0 & _ & Hwf0 & Hgen0).
  destruct (Hall 1%nat b1 eq_refl) as (c1 & _ & Hwf1 & Hgen1).
  destruct (Hall 2%nat b2 eq_refl) as (c2 & _ & Hwf2 & Hgen2).
  destruct (generateBlockPlan_spec _ Hwf0) as (p0 & Hp0 & _ & _ & _ & _ & _ & Hs0).
  destruct (generateBlockPlan_spec _ Hwf1) as (p1 & Hp1 & _ & _ & _ & _ & _ & Hs1).
  destruct (generateBlockPlan_spec _ Hwf2) as (p2 & Hp2 & _ & _ & _ & _ & _ & Hs2).
  rewrite Hgen0 in Hp0. injection Hp0 as <-.
  rewrite Hgen1 in Hp1. injection Hp1 as <-.
  rewrite Hgen2 in Hp2. injection Hp2 as <-.
  destruct (plan_counts _ b0 Hwf0 Hs0) as (Hl0 & _ & Hm0).
  destruct (plan_counts _ b1 Hwf1 Hs1) as (Hl1 & _ & Hm1).
  destruct (plan_counts _ b2 Hwf2 Hs2) as (Hl2 & _ & Hm2).
  cbn [fmap list_fmap concat]. rewrite app_nil_r.
  split; [by rewrite !length_app, Hl0, Hl1, Hl2|].
  split; [by rewrite !filter_app, !length_app, Hm0, Hm1, Hm2|].
  rewrite !fmap_app.
  pose proof (session_block_ids n 0 c0 b0) as Hid0.
  pose proof (session_block_ids n 1 c1 b1) as Hid1.
  pose proof (session_block_ids n 2 c2 b2) as Hid2.
  apply NoDup_app. split; [by apply (plan_trial_ids_NoDup _ b0 Hwf0)|]. split.
  - intros id (t0 & -> & Ht0)%list_elem_of_fmap.
    rewrite elem_of_app. intros [(t1 & Heq1 & Ht1)%list_elem_of_fmap
                               | (t2 & Heq2 & Ht2)%list_elem_of_fmap].
    + specialize (Hid0 t0 ltac:(lia) Hwf0 Hgen0 Ht0).
      specialize (Hid1 t1 ltac:(lia) Hwf1 Hgen1 Ht1).
      rewrite Heq1, Hid1 in Hid0. done.
    + specialize (Hid0 t0 ltac:(lia) Hwf0 Hgen0 Ht0).
      specialize (Hid2 t2 ltac:(lia) Hwf2 Hgen2 Ht2).
      rewrite Heq2, Hid2 in Hid0. done.
  - apply NoDup_app. split; [by apply (plan_trial_ids_NoDup _ b1 Hwf1)|].
    split; [|by apply (plan_trial_ids_NoDup _ b2 Hwf2)].
    intros id (t1 & -> & Ht1)%list_elem_of_fmap (t2 & Heq2 & Ht2)%list_elem_of_fmap.
    specialize (Hid1 t1 ltac:(lia) Hwf1 Hgen1 Ht1).
    specialize (Hid2 t2 ltac:(lia) Hwf2 Hgen2 Ht2).
    rewrite Heq2, Hid2 in Hid1. done.
Qed.

Lemma generateAllBlocks_session_witness :
  0 ≤ 100001 ≤ MAX_PARTICIPANT_NUMBER
  ∧ ∃ blocks, generateAllBlocks 100001 = Ok blocks
      ∧ condition <$> blocks ≡ₚ CONDITIONS
      ∧ NoDup (trial_id <$> concat (trials <$> blocks)).
Proof.
  assert (0 ≤ 100001 ≤ MAX_PARTICIPANT_NUMBER) as Hn by (unfold MAX_PARTICIPANT_NUMBER; lia).
  split; [exact Hn|].
  destruct (generateAllBlocks_session 100001 Hn)
    as (blocks & Heq & _ & Hperm & _ & _ & Hnd).
  exists blocks. split; [exact Heq|]. split; [exact Hperm|exact Hnd].
Defined.

(** X16. [orderToLabel] writes one letter per condition and loses nothing:
    two orders have the same label only if they are the same order. *)
Theorem orderToLabel_injective (o1 o2 : list Condition) :
  (orderToLabel o1 = orderToLabel o2 ↔ o1 = o2)
  ∧ String.length (orderToLabel o1) = length o1.
Proof.
  split; [split|].
  - apply orderToLabel_inj.
  - by intros ->.
  - apply orderToLabel_length.
Qed.

(** X17. Over any run of [3 * k] consecutive participant numbers (from a
    non-negative one) each of the three orders of the Latin square is
    assigned exactly [k] times. *)
Theorem latin_square_consecutive (a : Z) (k : nat) (order : list Condition) :
  0 ≤ a → order ∈ LATIN_SQUARE_3 →
  occ (Some order) (getLatinSquareOrder <$> seqZ a (3 * Z.of_nat k)) = k
  ∧ occ (orderToLabel order)
        ((λ n, default "" (orderToLabel <$> getLatinSquareOrder n)) <$> seqZ a (3 * Z.of_nat k))
    = k.
Proof.
  intros Ha Hin. pose proof (latin_consecutive a k order Ha Hin) as Hocc.
  split; [done|]. rewrite <- Hocc at 2.
  replace ((λ n, default "" (orderToLabel <$> getLatinSquareOrder n))
             <$> seqZ a (3 * Z.of_nat k))
    with ((λ o, default "" (orderToLabel <$> o))
            <$> (getLatinSquareOrder <$> seqZ a (3 * Z.of_nat k)))
    by (by rewrite <- list_fmap_compose).
  change (orderToLabel order)
    with ((λ o, default "" (orderToLabel <$> o)) (Some order)).
  apply occ_fmap_inj.
  intros o (m & -> & Hm)%list_elem_of_fmap. apply elem_of_seqZ in Hm.
  destruct (getLatinSquareOrder_nonneg m ltac:(lia)) as [Heq Hmod]. rewrite Heq.
  destruct Hmod as [-> | [-> | ->]]; simpl; intros Hl%orderToLabel_inj; by rewrite Hl.
Qed.

Lemma latin_square_consecutive_witness :
  0 ≤ 100000 ∧ [shape; combined; color] ∈ LATIN_SQUARE_3
  ∧ occ (Some [shape; combined; color]) (getLatinSquareOrder <$> seqZ 100000 300) = 100%nat.
Proof.
  assert ([shape; combined; color] ∈ LATIN_SQUARE_3) as Hin
    by (apply (list_elem_of_lookup_2 _ 1%nat); reflexivity).
  split; [lia|]. split; [exact Hin|].
  exact (proj1 (latin_square_consecutive 100000 100 _ ltac:(lia) Hin)).
Defined.

(** X18. For every draw of [Math.random] (a double in [0, 1)),
    [createParticipantNumber] is a six-digit number, from 100000 to 999999;
    it has a Latin-square order, and [generateAllBlocks] builds its three
    blocks without an error. *)
Theorem createParticipantNumber_six_digits (random : spec_float) :
  Float64.in_unit_interval random →
  ∃ n order blocks,
    createParticipantNumber random = Some n
    ∧ 100000 ≤ n ≤ 999999
    ∧ getLatinSquareOrder n = Some order
    ∧ generateAllBlocks n = Ok blocks.
Proof.
  intros Hr. destruct (createParticipantNumber_range random Hr) as (n & Heq & Hn).
  destruct (generateAllBlocks_spec n ltac:(unfold MAX_PARTICIPANT_NUMBER; lia))
    as (order & blocks & Ho & _ & Hb & _).
  by exists n, order, blocks.
Qed.

Lemma createParticipantNumber_six_digits_witness :
  Float64.in_unit_interval (lcg (seededRandom 42)).1
  ∧ ∃ n order blocks,
      createParticipantNumber (lcg (seededRandom 42)).1 = Some n
      ∧ 100000 ≤ n ≤ 999999
      ∧ getLatinSquareOrder n = Some order
      ∧ generateAllBlocks n = Ok blocks.
Proof.
  assert (Float64.in_unit_interval (lcg (seededRandom 42)).1) as Hr
    by (apply lcg_unit, seededRandom_state, nonneg_seed; lia).
  split; [exact Hr|]. exact (createParticipantNumber_six_digits _ Hr).
Defined.

(** X23. The letter [orderToLabel] writes for a condition is the letter
    [readableCondition] shows for it before the colon, so a label lists its
    conditions by the letters of their readable names; and no two conditions
    have the same readable name. *)
Theorem readableCondition_letters (order : list Condition) :
  orderToLabel order
  = String.concat "" ((λ c, String.substring 0 1 (readableCondition c)) <$> order)
  ∧ (∀ c, String.substring 1 2 (readableCondition c) = ": ")
  ∧ ∀ c1 c2, readableCondition c1 = readableCondition c2 ↔ c1 = c2.
Proof.
  split; [|split].
  - unfold orderToLabel. f_equal. apply list_fmap_ext. by intros i [] _.
  - by intros [].
  - intros c1 c2. split; [|by intros ->]. by destruct c1, c2.
Qed.

(** X19. [escapeCsvValue] loses nothing: two values are written alike only
    if they have the same text, and a reader of CSV gets that text back from
    the written field, also when it holds commas, double quotes or line
    feeds; a text without any of them is written as it is. *)
Theorem escapeCsvValue_readable {V} (String_of : V → string) (v1 v2 : option V) :
  (escapeCsvValue String_of v1 = escapeCsvValue String_of v2
   ↔ text_of String_of v1 = text_of String_of v2)
  ∧ readCsv (escapeCsvValue String_of v1) = [[text_of String_of v1]]
  ∧ (plain (text_of String_of v1) → escapeCsvValue String_of v1 = text_of String_of v1).
Proof.
  assert (∀ v : option V, readCsv (escapeCsvValue String_of v) = [[text_of String_of v]])
    as Hread.
  { intros v. unfold readCsv. rewrite <- (string_app_nil_r (escapeCsvValue String_of v)).
    by rewrite readCsv_from_field. }
  split; [split|split].
  - intros Heq. pose proof (Hread v1) as H1. rewrite Heq, Hread in H1. by injection H1.
  - unfold escapeCsvValue. by intros ->.
  - apply Hread.
  - intros (H1 & H2 & H3). unfold escapeCsvValue. by rewrite H1, H2, H3.
Qed.

(** X20. A reader of CSV gets back from [toCsv] the table that was written:
    the keys of the first row as the header record, then one record per row
    with the text of [record[key]] at each of these keys: the row's own
    value, or else the one it inherits from its prototype, or else the empty
    text; the other keys of the row are not written.  This holds when the
    first row has a key and no key holds a comma, a double quote or a line
    feed: [toCsv] does not escape the header. *)
Theorem toCsv_readable {V} (String_of : V → string) (first : Row) (rest : list Row) :
  Object_keys first ≠ [] →
  Forall plain (Object_keys first) →
  readCsv (toCsv String_of (first :: rest))
  = Object_keys first :: cells String_of (Object_keys first) (first :: rest).
Proof. apply toCsv_read. Qed.

Lemma toCsv_readable_witness :
  Object_keys (sample_object [("id", Some "a,b"); ("toString", Some "t")]) ≠ []
  ∧ Forall plain (Object_keys (sample_object [("id", Some "a,b"); ("toString", Some "t")]))
  ∧ readCsv (toCsv id
               [sample_object [("id", Some "a,b"); ("toString", Some "t")];
                sample_object [("id", Some ("x" +:+ String QUOTE "y")); ("other", Some "z")];
                sample_object [("toString", None)]])
    = [["id"; "toString"]; ["a,b"; "t"];
       ["x" +:+ String QUOTE "y"; "function toString() { [native code] }"]; [""; ""]].
Proof.
  assert (Object_keys (sample_object [("id", Some "a,b"); ("toString", Some "t")]) ≠ [])
    as Hne by discriminate.
  assert (Forall plain
            (Object_keys (sample_object [("id", Some "a,b"); ("toString", Some "t")])))
    as Hplain by (repeat constructor).
  split; [exact Hne|]. split; [exact Hplain|].
  exact (toCsv_readable id (sample_object [("id", Some "a,b"); ("toString", Some "t")])
           [sample_object [("id", Some ("x" +:+ String QUOTE "y")); ("other", Some "z")];
            sample_object [("toString", None)]] Hne Hplain).
Defined.

(** X21. The mean reaction time of the participant summary is exact: for
    measured rows with non-negative reaction times whose sum is below 2^50,
    the double division followed by [Math.round] gives the mean rounded to
    the nearest integer, a tie going up; it is 0 (not [NaN]) when no row is
    included in the analysis, and it lies between the least and the greatest
    measured reaction time.  Rows that are not included in the analysis do
    not count. *)
Theorem buildParticipantSummary_mean (session : SessionState) :
  let measured :=
    filter (λ trial, included_in_analysis trial = true) (trialSummaries session) in
  let total := reduce_sum reaction_time_ms measured in
  let n := Z.of_nat (length measured) in
  Z.of_nat (length (trialSummaries session)) ≤ MAX_ARRAY_LENGTH →
  (∀ row, row ∈ measured → 0 ≤ reaction_time_ms row) →
  total < 2 ^ 50 →
  mean_reaction_time_ms_measured (buildParticipantSummary session)
  = Some (if decide (measured = []) then 0 else (2 * total + n) `div` (2 * n))
  ∧ (measured ≠ [] → ∀ lo hi,
       (∀ row, row ∈ measured → lo ≤ reaction_time_ms row ≤ hi) →
       ∃ mean,
         mean_reaction_time_ms_measured (buildParticipantSummary session) = Some mean
         ∧ lo ≤ mean ≤ hi).
Proof.
  intros measured total n Hmax Hpos Hsum.
  pose proof (summary_mean_spec session Hmax Hpos Hsum) as Hmean.
  fold measured total n in Hmean. split; [done|].
  intros Hne lo hi Hall. rewrite Hmean, decide_False by done.
  eexists. split; [done|]. apply rounded_mean_bounds.
  - unfold n. destruct measured; [done|simpl; lia].
  - pose proof (reduce_sum_bounds reaction_time_ms measured lo hi Hall). fold total n in H. lia.
Qed.

Lemma buildParticipantSummary_mean_witness :
  Z.of_nat (length (trialSummaries sample_session)) ≤ MAX_ARRAY_LENGTH
  ∧ (∀ row,
       row ∈ filter (λ trial, included_in_analysis trial = true) (trialSummaries sample_session) →
       0 ≤ reaction_time_ms row)
  ∧ reduce_sum reaction_time_ms
      (filter (λ trial, included_in_analysis trial = true) (trialSummaries sample_session))
    < 2 ^ 50
  ∧ mean_reaction_time_ms_measured (buildParticipantSummary sample_session) = Some 1251.
Proof.
  assert (Z.of_nat (length (trialSummaries sample_session)) ≤ MAX_ARRAY_LENGTH) as Hmax
    by (vm_compute; discriminate).
  assert (∀ row,
            row ∈ filter (λ trial, included_in_analysis trial = true)
                    (trialSummaries sample_session) →
            0 ≤ reaction_time_ms row) as Hpos.
  { intros row Hrow. vm_compute in Hrow.
    apply elem_of_cons in Hrow as [->|Hrow]; [vm_compute; discriminate|].
    apply elem_of_cons in Hrow as [->|Hrow]; [vm_compute; discriminate|].
    by apply elem_of_nil in Hrow. }
  assert (reduce_sum reaction_time_ms
            (filter (λ trial, included_in_analysis trial = true)
               (trialSummaries sample_session)) < 2 ^ 50) as Hsum by reflexivity.
  split; [exact Hmax|]. split; [exact Hpos|]. split; [exact Hsum|].
  exact (proj1 (buildParticipantSummary_mean sample_session Hmax Hpos Hsum)).
Defined.

(** X22. [createSession] does not fail when it draws the participant number
    itself or is given one from 0 to [MAX_PARTICIPANT_NUMBER] (with which
    the seeds are exact and the id has all the digits of the number), and no
    order is given: the session has the Latin-square order of its participant
    number, its blocks are those [generateAllBlocks] builds for that number
    (leaving out the two counts gives the same plans as the defaults written
    out), its id is [P-] followed by the number, and a number that was drawn
    has six digits. *)
Theorem createSession_blocks (env : Environment) (args : option SessionArgs) :
  Float64.in_unit_interval (Math_random env) →
  args ≫= session_assignedOrder = None →
  (∀ n, args ≫= session_participantNumber = Some n → 0 ≤ n ≤ MAX_PARTICIPANT_NUMBER) →
  ∃ session,
    createSession env args = Ok session
    ∧ participantId session = "P-" +:+ pretty (participantNumber session)
    ∧ getLatinSquareOrder (participantNumber session) = Some (assignedOrder session)
    ∧ generateAllBlocks (participantNumber session) = Ok (blocks session)
    ∧ trialSummaries session = []
    ∧ match args ≫= session_participantNumber with
      | Some n => participantNumber session = n
      | None => 100000 ≤ participantNumber session ≤ 999999
      end.
Proof.
  intros Hr Horder Hgiven.
  destruct (args ≫= session_participantNumber) as [n|] eqn:Hnum.
  - destruct (createSession_numbered env args n Horder (Hgiven n eq_refl))
      as (session & Heq & Hn & Hid & Ho & Hb & Hts & _); [by rewrite Hnum|].
    exists session. rewrite Hn. done.
  - destruct (createParticipantNumber_range (Math_random env) Hr) as (n & Hdraw & Hn).
    destruct (createSession_numbered env args n Horder
                ltac:(unfold MAX_PARTICIPANT_NUMBER; lia))
      as (session & Heq & Hpn & Hid & Ho & Hb & Hts & _); [by rewrite Hnum|].
    exists session. rewrite Hpn. done.
Qed.

Lemma createSession_blocks_witness :
  Float64.in_unit_interval (Math_random sample_environment)
  ∧ ∃ session,
      createSession sample_environment None = Ok session
      ∧ generateAllBlocks (participantNumber session) = Ok (blocks session)
      ∧ 100000 ≤ participantNumber session ≤ 999999.
Proof.
  assert (Float64.in_unit_interval (Math_random sample_environment)) as Hr
    by (apply lcg_unit, seededRandom_state, nonneg_seed; lia).
  split; [exact Hr|].
  destruct (createSession_blocks sample_environment None Hr eq_refl ltac:(intros n [=]))
    as (session & Heq & _ & _ & Hb & _ & Hn).
  exists session. split; [exact Heq|]. split; [exact Hb|exact Hn].
Defined.

(** X24. [generateBlockPlan] does not check the signs of its counts.  A
    negative count is accepted without an error (for counts of at most an
    array length in magnitude, and seeds that are exact): the plan then has
    [max(0, p + m)] trials, shorter than the other count asks for, of which
    the first [min(p, p + m)] (none if that is negative) are practice; the
    [practiceTrials] and [measuredTrials] of the plan count these trials, not
    the arguments.  Every trial still has 8 items and exactly one target. *)
Theorem generateBlockPlan_any_sign (args : BlockArgs) :
  any_sign_call args →
  ∃ plan,
    generateBlockPlan args = Ok plan
    ∧ let p := practice_count args in
      let m := measured_count args in
      Z.of_nat (length (trials plan)) = Z.max 0 (p + m)
      ∧ Z.of_nat (practiceTrials plan) = Z.max 0 (Z.min p (p + m))
      ∧ Z.of_nat (measuredTrials plan) = Z.max 0 (p + m) - Z.max 0 (Z.min p (p + m))
      ∧ ∀ (t : nat) trial, trials plan !! t = Some trial →
          isPractice trial = bool_decide (Z.of_nat t < p)
          ∧ length (items trial) = 8%nat
          ∧ unique_target trial.
Proof.
  intros Hcall.
  destruct (generateBlockPlan_any args Hcall)
    as (plan & Heq & Hpr & Hme & Hlen & Htrials).
  exists plan. split; [done|]. cbv zeta.
  set (p := practice_count args) in *. set (m := measured_count args) in *.
  assert (filter (λ trial, isPractice trial = true) (trials plan)
          = take (Z.to_nat p) (trials plan)) as Hfp.
  { apply filter_index_take. intros t trial Ht.
    destruct (Htrials t trial Ht) as (-> & _). rewrite bool_decide_eq_true. lia. }
  assert (filter (λ trial, isPractice trial = false) (trials plan)
          = drop (Z.to_nat p) (trials plan)) as Hfm.
  { apply filter_index_drop. intros t trial Ht.
    destruct (Htrials t trial Ht) as (-> & _). rewrite bool_decide_eq_false. lia. }
  rewrite Hpr, Hme, Hfp, Hfm, length_take, length_drop, Hlen.
  split; [lia|]. split; [lia|]. split; [lia|done].
Qed.

Lemma generateBlockPlan_any_sign_witness :
  any_sign_call negative_practice
  ∧ ∃ plan,
      generateBlockPlan negative_practice = Ok plan
      ∧ Z.of_nat (length (trials plan)) = 8
      ∧ Z.of_nat (practiceTrials plan) = 0
      ∧ Z.of_nat (measuredTrials plan) = 8.
Proof.
  assert (any_sign_call negative_practice) as Hcall.
  { do 3 (split; [vm_compute; discriminate|]).
    split; [split; vm_compute; discriminate|].
    split; [|intros t _]; apply nonneg_seed; unfold block_seed, trial_seed; simpl; lia. }
  split; [exact Hcall|].
  destruct (generateBlockPlan_any_sign negative_practice Hcall)
    as (plan & Heq & Hlen & Hpr & Hme & _).
  exists plan. split; [exact Heq|]. split; [exact Hlen|]. split; [exact Hpr|exact Hme].
Defined.

(** X25. The result of [assertBalancedTargets] depends on the measured
    trials only, and not on their order: two lists of trials that are
    rearrangements of each other get the same differences, and so does a
    list without its practice trials. *)
Theorem assertBalancedTargets_order (trials1 trials2 : list TrialPlan) :
  trials1 ≡ₚ trials2 →
  assertBalancedTargets trials1 = assertBalancedTargets trials2
  ∧ assertBalancedTargets (filter (λ trial, isPractice trial = false) trials1)
    = assertBalancedTargets trials1.
Proof.
  intros Hp. unfold assertBalancedTargets. split.
  - set (m1 := filter (λ trial, isPractice trial = false) trials1).
    set (m2 := filter (λ trial, isPractice trial = false) trials2).
    assert (m1 ≡ₚ m2) as Hm by (unfold m1, m2; by rewrite Hp).
    rewrite (count_targets_perm (targetColor <$> m1) (targetColor <$> m2)) by (by rewrite Hm).
    rewrite (count_targets_perm (targetShape <$> m1) (targetShape <$> m2)) by (by rewrite Hm).
    done.
  - by rewrite list_filter_filter_l by done.
Qed.

Lemma assertBalancedTargets_order_witness :
  [sample_trial 1 "red" "star"; sample_trial 2 "blue" "star"]
  ≡ₚ [sample_trial 2 "blue" "star"; sample_trial 1 "red" "star"]
  ∧ assertBalancedTargets [sample_trial 1 "red" "star"; sample_trial 2 "blue" "star"]
    = assertBalancedTargets [sample_trial 2 "blue" "star"; sample_trial 1 "red" "star"].
Proof.
  assert ([sample_trial 1 "red" "star"; sample_trial 2 "blue" "star"]
          ≡ₚ [sample_trial 2 "blue" "star"; sample_trial 1 "red" "star"]) as Hp
    by apply perm_swap.
  split; [exact Hp|]. exact (proj1 (assertBalancedTargets_order _ _ Hp)).
Defined.
